(** * Artemis: readiness waits, dataset loading and reference snapshots

    A shallow embedding of [artemis/base_pytest.py] and
    [artemis/docker_orchestrator.py].  Python values are modelled by the
    types of module [Py]; code that threads the file system, the container
    fleet or the process-wide fixture state is written in a state-and-
    exception monad, so that an exception keeps the effects done before it,
    as in Python. *)

From Stdlib Require Import ZArith String Ascii List Bool Lia.
From stdpp Require Import base option list gmap strings pretty.

Open Scope string_scope.
Open Scope list_scope.
Open Scope Z_scope.

(** ** Python values and builtins *)

Module Py.

(** The exception classes that the modelled code raises or lets through. *)
Inductive exn : Type :=
| RetryError (msg : string)        (* artemis.utils.RetryError *)
| Exception (msg : string)
| AssertionError (msg : string)
| ValueError (msg : string)
| KeyError (key : string)
| TypeError (msg : string)
| IndexError (msg : string)
| HTTPError (status_code : Z)
| FileNotFoundError (path : string)
| FileExistsError (path : string)
| IsADirectoryError (path : string)
| NotADirectoryError (path : string).

Inductive result (A : Type) : Type :=
| Ok (a : A)
| Raise (e : exn).
Arguments Ok {A} a.
Arguments Raise {A} e.

Definition is_ok {A} (r : result A) : bool :=
  match r with Ok _ => true | Raise _ => false end.

(** [s[n:]] *)
Fixpoint str_drop (n : nat) (s : string) : string :=
  match n, s with
  | O, _ => s
  | S _, EmptyString => EmptyString
  | S k, String _ s' => str_drop k s'
  end.

(** [needle in hay] on strings. *)
Fixpoint str_in (needle hay : string) : bool :=
  String.prefix needle hay
  || match hay with
     | EmptyString => false
     | String _ hay' => str_in needle hay'
     end.

(** [s.endswith(suffix)] for one suffix. *)
Fixpoint str_endswith (s suffix : string) : bool :=
  String.eqb s suffix
  || match s with
     | EmptyString => false
     | String _ s' => str_endswith s' suffix
     end.

(** [s.endswith(suffixes)] for a tuple of suffixes. *)
Definition str_endswith_any (s : string) (suffixes : list string) : bool :=
  existsb (str_endswith s) suffixes.

(** [s.replace(old, new)] for a non-empty [old]: occurrences are replaced
    from the left and do not overlap; [skip] counts the characters of the
    occurrence just replaced that are still to be passed over. *)
Fixpoint replace_from (old new : string) (skip : nat) (s : string) : string :=
  match s with
  | EmptyString => EmptyString
  | String c s' =>
      match skip with
      | S k => replace_from old new k s'
      | O =>
          if String.prefix old s
          then new +:+ replace_from old new (String.length old - 1) s'
          else String c (replace_from old new 0 s')
      end
  end.

(** With an empty [old] Python puts [new] before every character and at
    the end. *)
Fixpoint replace_empty (new s : string) : string :=
  match s with
  | EmptyString => new
  | String c s' => new +:+ String c (replace_empty new s')
  end.

Definition str_replace (s old new : string) : string :=
  match old with
  | EmptyString => replace_empty new s
  | String _ _ => replace_from old new 0 s
  end.

(** [os.path.join(a, b)] of [posixpath], for two components. *)
Definition os_path_join (a b : string) : string :=
  if String.prefix "/" b then b
  else if String.eqb a "" || str_endswith a "/" then a +:+ b
  else a +:+ "/" +:+ b.

(** Decoded JSON documents.  An object keeps its members in insertion
    order, as [OrderedDict] and Python 3 dictionaries do. *)
#[warnings="-register-all"]
Inductive json : Type :=
| JNull
| JBool (b : bool)
| JNum (n : Z)
| JStr (s : string)
| JArr (items : list json)
| JObj (members : list (string * json)).

(** [d.get(key)] on the members of an object. *)
Fixpoint dict_get (key : string) (members : list (string * json)) : option json :=
  match members with
  | [] => None
  | (k, v) :: rest => if String.eqb key k then Some v else dict_get key rest
  end.

(** [d[key] = v]: an existing key keeps its place, a new one goes last. *)
Fixpoint dict_set (key : string) (v : json) (members : list (string * json))
  : list (string * json) :=
  match members with
  | [] => [(key, v)]
  | (k, w) :: rest =>
      if String.eqb key k then (k, v) :: rest else (k, w) :: dict_set key v rest
  end.

(** [doc[key]] *)
Definition getitem (doc : json) (key : string) : result json :=
  match doc with
  | JObj members =>
      match dict_get key members with
      | Some v => Ok v
      | None => Raise (KeyError key)
      end
  | _ => Raise (TypeError "indices must be integers")
  end.

End Py.
Import Py.

(** ** State and exceptions

    A computation over a state [S] returns a result together with the state
    it leaves; a raised exception keeps the state reached so far. *)

Definition M (S A : Type) : Type := S -> result A * S.

Definition ret {S A} (a : A) : M S A := fun s => (Ok a, s).

Definition raise {S A} (e : exn) : M S A := fun s => (Raise e, s).

Definition bind {S A B} (m : M S A) (k : A -> M S B) : M S B :=
  fun s =>
    match m s with
    | (Ok a, s') => k a s'
    | (Raise e, s') => (Raise e, s')
    end.

Definition lift {S A} (r : result A) : M S A := fun s => (r, s).

Definition gets {S A} (f : S -> A) : M S A := fun s => (Ok (f s), s).

Definition modify {S} (f : S -> S) : M S unit := fun s => (Ok tt, f s).

Notation "x <- m ;; k" := (bind m (fun x => k))
  (at level 100, m at next level, right associativity).
Notation "m ;;; k" := (bind m (fun _ => k))
  (at level 100, right associativity).

(** ** The [retrying] decorator

    [@retry(stop_max_delay=d, wait_fixed=w, retry_on_exception=p)] calls the
    decorated function until an attempt is accepted.  An attempt that
    returns is accepted; one that raises [e] is rejected when [p e] holds.
    After a rejected attempt the loop reads the time elapsed since the first
    attempt began: at [d] milliseconds or more it raises the attempt's own
    exception, otherwise it sleeps [w] milliseconds and calls again.

    The services polled are outside the program.  A run is given what each
    attempt observes, paired with the clock reading (milliseconds since the
    first attempt) taken after it; the sleeps advance that clock and have no
    other effect.  A run that needs more attempts than were supplied has no
    outcome ([None]). *)

Module retrying.

Record Retrying : Type := {
  stop_max_delay : Z;
  wait_fixed : Z;
  retry_on_exception : exn -> bool
}.

(** The default of [retry_on_exception]: every exception is retried. *)
Definition always_reject (e : exn) : bool := true.

Definition should_reject {A} (r : Retrying) (attempt : result A) : bool :=
  match attempt with
  | Ok _ => false
  | Raise e => retry_on_exception r e
  end.

Definition stop_after_delay (r : Retrying) (delay_since_first_attempt_ms : Z) : bool :=
  stop_max_delay r <=? delay_since_first_attempt_ms.

(** The outcome and the number of the attempt that produced it. *)
Fixpoint call {O A} (r : Retrying) (fn : O -> result A)
    (attempts : list (O * Z)) (attempt_number : nat) : option (result A * nat) :=
  match attempts with
  | [] => None
  | (observed, delay_since_first_attempt_ms) :: later =>
      let attempt := fn observed in
      if negb (should_reject r attempt) then Some (attempt, attempt_number)
      else if stop_after_delay r delay_since_first_attempt_ms
           then Some (attempt, attempt_number)
           else call r fn later (S attempt_number)
  end.

Definition retry {O A} (r : Retrying) (fn : O -> result A)
    (attempts : list (O * Z)) : option (result A * nat) :=
  call r fn attempts 1%nat.

(** An attempt after which the loop calls again: it was rejected, and the
    clock read after it is short of [stop_max_delay]. *)
Definition goes_on {O A} (r : Retrying) (fn : O -> result A) (p : O * Z) : Prop :=
  should_reject r (fn (fst p)) = true /\ snd p < stop_max_delay r.

End retrying.

(** ** [artemis.utils] *)

Module utils.

(** Modelled from the spec: [utils.is_retry_exception], of the module
    [artemis/utils.py] that is not among the sources.  A retryable condition
    ([utils.RetryError]) drives another poll; every other exception is fatal
    and is propagated at once. *)
Definition is_retry_exception (e : exn) : bool :=
  match e with
  | RetryError _ => true
  | _ => false
  end.

End utils.

(** ** What the backend services answer *)

Module Http.

Record response (B : Type) : Type := { status_code : Z; body : B }.
Arguments status_code {B} _.
Arguments body {B} _.

(** [r.raise_for_status()]: client and server errors raise. *)
Definition raise_for_status {B} (r : response B) : result unit :=
  if (400 <=? status_code r) && (status_code r <? 600)
  then Raise (HTTPError (status_code r))
  else Ok tt.

End Http.

(** An entry of a job's ["data_sets"]. *)
Module JobDataSet.
Record t : Type := { type : string; state : string }.
End JobDataSet.

(** A job of [GET /v0/jobs/{instance}].  ["created_at"] is kept as the
    instant [strptime] reads from it, in microseconds; ["state"] is the
    state of the job itself, which the wait reads for its messages. *)
Module Job.
Record t : Type := {
  created_at : Z;
  state : string;
  data_sets : list JobDataSet.t
}.
End Job.

(** The answer of [coverage/{cov}/status]; either level may be missing. *)
Module CoverageStatus.
Record status_t : Type := {
  status : option string;
  last_load_at : option string
}.
Record t : Type := { status_obj : option status_t }.
End CoverageStatus.

(** The configuration of a test dataset; durations are in milliseconds. *)
Module DataSet.
Record t : Type := {
  name : string;
  reload_timeout : Z;
  fixed_wait : Z;
  scenario : string
}.
End DataSet.

(** ** [ArtemisTestFixture.update_data_by_dataset]: the two waits *)

Definition get_last_coverage_loaded_time (_response : CoverageStatus.t) : string :=
  match CoverageStatus.status_obj _response with
  | None => ""
  | Some st =>
      match CoverageStatus.last_load_at st with
      | None => ""
      | Some t => t
      end
  end.

(** What the loop does with an entry of the requested type. *)
Definition entry_outcome (data_type : string) (job : Job.t) (dataset : JobDataSet.t)
  : result unit :=
  if String.eqb (JobDataSet.state dataset) "done" then Ok tt
  else if negb (String.eqb (JobDataSet.state dataset) "failed") then
    Raise (RetryError
      ("Job with dataset '" +:+ data_type +:+ "' still in process ("
         +:+ Job.state job +:+ ")"))
  else
    Raise (Exception
      ("Dataset '" +:+ data_type +:+ "' in state '" +:+ Job.state job +:+ "'")).

(** The loop over [job["data_sets"]]: [None] when it ends without returning
    or raising. *)
Fixpoint scan_data_sets (data_type : string) (job : Job.t)
    (data_sets : list JobDataSet.t) : option (result unit) :=
  match data_sets with
  | [] => None
  | dataset :: rest =>
      if String.eqb data_type (JobDataSet.type dataset)
      then Some (entry_outcome data_type job dataset)
      else scan_data_sets data_type job rest
  end.

(** The loop over [jobs_resp]. *)
Fixpoint scan_jobs (data_type : string) (time_limit : Z) (jobs_resp : list Job.t)
  : result unit :=
  match jobs_resp with
  | [] =>
      Raise (RetryError ("Job with dataset '" +:+ data_type +:+ "' not yet created "))
  | job :: rest =>
      if Job.created_at job >? time_limit then
        match scan_data_sets data_type job (Job.data_sets job) with
        | Some outcome => outcome
        | None => scan_jobs data_type time_limit rest
        end
      else scan_jobs data_type time_limit rest
  end.

(** One call of the undecorated [wait_for_data_processing]. *)
Definition wait_for_data_processing_once (data_type : string) (time_limit : Z)
    (r : Http.response (list Job.t)) : result unit :=
  match Http.raise_for_status r with
  | Raise e => Raise e
  | Ok _ => scan_jobs data_type time_limit (Http.body r)
  end.

Definition data_set_retry (data_set : DataSet.t) : retrying.Retrying :=
  {| retrying.stop_max_delay := DataSet.reload_timeout data_set;
     retrying.wait_fixed := DataSet.fixed_wait data_set;
     retrying.retry_on_exception := utils.is_retry_exception |}.

Definition wait_for_data_processing (data_set : DataSet.t) (data_type : string)
    (time_limit : Z) (polls : list (Http.response (list Job.t) * Z))
  : option (result unit * nat) :=
  retrying.retry (data_set_retry data_set)
    (wait_for_data_processing_once data_type time_limit) polls.

(** One call of the undecorated [wait_for_kraken_reload]. *)
Definition wait_for_kraken_reload_once (last_data_loaded : string)
    (_response : CoverageStatus.t) : result unit :=
  let new_data_loaded := get_last_coverage_loaded_time _response in
  if String.eqb last_data_loaded new_data_loaded
  then Raise (RetryError "kraken data is not loaded")
  else Ok tt.

Definition wait_for_kraken_reload (data_set : DataSet.t) (last_data_loaded : string)
    (polls : list (CoverageStatus.t * Z)) : option (result unit * nat) :=
  retrying.retry (data_set_retry data_set)
    (wait_for_kraken_reload_once last_data_loaded) polls.

(** ** [docker_orchestrator]: the wait on the instances configurator *)

Module Container.
Record t : Type := {
  name : string;
  status : string;
  attrs_Name : string
}.
End Container.

Definition COMPOSE_PROJECT_NAME : string := "navitia".

Definition get_compose_containers_list (all_containers_list : list Container.t)
  : list Container.t :=
  List.filter (fun x => str_in COMPOSE_PROJECT_NAME (Container.attrs_Name x))
    all_containers_list.

(** [next((x for x in l if p(x)), None)] *)
Fixpoint next {A} (p : A -> bool) (l : list A) : option A :=
  match l with
  | [] => None
  | x :: rest => if p x then Some x else next p rest
  end.

(** One call of the undecorated [wait_for_instance_configuration_status];
    a call that returns gives the lines it printed. *)
Definition wait_for_instance_configuration_status_once (status : string)
    (all_containers_list : list Container.t) : result (list string) :=
  let docker_list := get_compose_containers_list all_containers_list in
  match next (fun x => str_in "instances_configurator" (Container.name x)) docker_list with
  | Some instance_config_container =>
      if negb (String.eqb (Container.status instance_config_container) status)
      then Raise (Exception
             ("instances_configurator status: "
                +:+ Container.status instance_config_container
                +:+ " - Expected: " +:+ status))
      else Ok []
  | None => Ok ["No 'instances_configurator' container found"]
  end.

Definition instance_configuration_retry : retrying.Retrying :=
  {| retrying.stop_max_delay := 2000000;
     retrying.wait_fixed := 2000;
     retrying.retry_on_exception := retrying.always_reject |}.

Definition wait_for_instance_configuration_status (status : string)
    (polls : list (list Container.t * Z)) : option (result (list string) * nat) :=
  retrying.retry instance_configuration_retry
    (wait_for_instance_configuration_status_once status) polls.

(** ** Configuration and the modules the fixture imports *)

(** [artemis.configuration_manager.config] *)
Class Config : Type := {
  URL_JORMUN : string;
  URL_TYR : string;
  DATA_DIR : string;
  CONTAINER_DATA_INPUT_PATH : string;
  RESPONSE_FILE_PATH : string
}.

(** ** [update_data_by_dataset]: staging the input data

    The data tree is read, never written, by the fixture: each directory of
    it that exists is given with the files it holds, in the order
    [os.listdir] returns them.  The archives the fixture writes are kept by
    path, and each [put_archive] on the first [tyr_worker] container is
    recorded in order. *)

#[warnings="-register-all"]
Inductive blob : Type :=
| Data (content : string)
| ZipFile (members : list (string * blob))     (* arcname, member *)
| TarFile (members : list (string * blob)).

Record Staging : Type := {
  written : gmap string blob;
  pushed : list (string * string * blob)   (* container, path, archive *)
}.

Definition write_archive (path : string) (b : blob) : M Staging unit :=
  modify (fun st => {| written := <[path := b]> (written st); pushed := pushed st |}).

Definition read_archive (path : string) : M Staging blob :=
  fun st =>
    match written st !! path with
    | Some b => (Ok b, st)
    | None => (Raise (FileNotFoundError path), st)
    end.

Definition put_archive (container : Container.t) (path : string) (data : blob)
  : M Staging unit :=
  modify (fun st =>
    {| written := written st;
       pushed := pushed st ++ [(Container.name container, path, data)] |}).

(** [l[0]] *)
Definition first_item {A} (l : list A) : result A :=
  match l with
  | x :: _ => Ok x
  | [] => Raise (IndexError "list index out of range")
  end.

Section StageInput.

Context {config : Config}.
Variable data_tree : gmap string (list (string * string)).
Variable all_containers : list Container.t.
Variable data_set : DataSet.t.

Definition data_path : string := DATA_DIR.

Definition input_path : string :=
  CONTAINER_DATA_INPUT_PATH +:+ "/" +:+ DataSet.name data_set.

Definition containers : list Container.t :=
  List.filter (fun x => str_in "tyr_worker" (Container.name x)) all_containers.

Definition put_data (data_type : string) (file_suffix : list string) (zipped : bool)
  : M Staging bool :=
  let path := data_path +:+ "/" +:+ DataSet.name data_set +:+ "/" +:+ data_type in
  let zip_file :=
    path +:+ "/" +:+ DataSet.name data_set +:+ "_" +:+ data_type +:+ ".zip" in
  match data_tree !! path with
  | Some listing =>
      let files :=
        List.filter (fun f => str_endswith_any (fst f) file_suffix) listing in
      (if zipped
       then write_archive zip_file
              (ZipFile (List.map (fun f => (fst f, Data (snd f))) files))
       else ret tt) ;;;
      members <-
        (if zipped
         then z <- read_archive zip_file ;; ret [(data_type +:+ ".zip", z)]
         else ret (List.map (fun f => (fst f, Data (snd f))) files)) ;;
      write_archive ("./" +:+ data_type +:+ ".tar") (TarFile members) ;;;
      container <- lift (first_item containers) ;;
      data <- read_archive ("./" +:+ data_type +:+ ".tar") ;;
      put_archive container input_path data ;;;
      ret true
  | None => ret false
  end.

(** (type of data files, type of dataset, files extension, is zipped) *)
Definition data_to_process : list (string * string * list string * bool) :=
  [ ("fusio", "fusio", [".txt"; ".csv"], true);
    ("osm", "osm", [".pbf"], false);
    ("fusio-poi", "poi", [".txt"], true);
    ("geopal", "geopal", [".txt"], true);
    ("fusio-geopal", "geopal", [".txt"], true) ].

(** The loop that fills [dataset_types_to_process]. *)
Fixpoint stage_all (todo : list (string * string * list string * bool))
    (dataset_types_to_process : list string) : M Staging (list string) :=
  match todo with
  | [] => ret dataset_types_to_process
  | (data_files_type, dataset_type, file_ext, is_zipped) :: rest =>
      staged <- put_data data_files_type file_ext is_zipped ;;
      stage_all rest
        (if staged then dataset_types_to_process ++ [dataset_type]
         else dataset_types_to_process)
  end.

Definition stage_and_push_input : M Staging (list string) :=
  stage_all data_to_process [].

End StageInput.

(** ** [ArtemisTestFixture.manage_data]

    [dataset_binarized] is a class attribute: one list for the whole
    process.  The four steps of a load work on the backend and do not see
    the list. *)

Record Fixture (W : Type) : Type := {
  dataset_binarized : list string;
  backend : W
}.
Arguments dataset_binarized {W} _.
Arguments backend {W} _.

Definition on_backend {W A} (m : M W A) : M (Fixture W) A :=
  fun fx =>
    let '(r, w) := m (backend fx) in
    (r, {| dataset_binarized := dataset_binarized fx; backend := w |}).

Definition append_binarized {W} (name : string) : M (Fixture W) unit :=
  modify (fun fx =>
    {| dataset_binarized := dataset_binarized fx ++ [name]; backend := backend fx |}).

(** [name in l] on a list of strings. *)
Definition name_in (name : string) (l : list string) : bool :=
  existsb (String.eqb name) l.

Section ManageData.

Variable W : Type.
Variable update_instance_db : string -> M W unit.
Variable remove_data_by_dataset : DataSet.t -> M W unit.
Variable update_data_by_dataset : DataSet.t -> M W unit.
Variable check_values : string -> M W unit.

(** The four steps of one load, in the order of the loop body. *)
Definition load_pipeline (data_set : DataSet.t) : M W unit :=
  update_instance_db (DataSet.name data_set) ;;;
  remove_data_by_dataset data_set ;;;
  update_data_by_dataset data_set ;;;
  check_values (DataSet.name data_set).

Fixpoint manage_data_loop (data_sets : list DataSet.t) : M (Fixture W) unit :=
  match data_sets with
  | [] => ret tt
  | data_set :: rest =>
      binarized <- gets dataset_binarized ;;
      if name_in (DataSet.name data_set) binarized then manage_data_loop rest
      else
        on_backend (update_instance_db (DataSet.name data_set)) ;;;
        on_backend (remove_data_by_dataset data_set) ;;;
        on_backend (update_data_by_dataset data_set) ;;;
        on_backend (check_values (DataSet.name data_set)) ;;;
        append_binarized (DataSet.name data_set) ;;;
        manage_data_loop rest
  end.

Definition manage_data (skip_bina : bool) (data_sets : list DataSet.t)
  : M (Fixture W) unit :=
  if skip_bina then ret tt else manage_data_loop data_sets.

End ManageData.

(** ** [ArtemisTestFixture.journey]: the query URL *)

(** [for x in xs: query = "{query}&<key>={x}"] *)
Definition add_each (key : string) (xs : list string) (query : string) : string :=
  fold_left (fun query x => query +:+ "&" +:+ key +:+ "=" +:+ x) xs query.

(** [for k, v in kwargs.items(): query = "{query}&{k}={v}"] *)
Definition add_kwargs (kwargs : list (string * string)) (query : string) : string :=
  fold_left (fun query kv => query +:+ "&" +:+ fst kv +:+ "=" +:+ snd kv) kwargs query.

Definition overridden_scenario (scenario : string) : string :=
  if name_in scenario ["distributed"; "experimental"; "asgard"]
  then "distributed"
  else "new_default".

Section Journey.

Context {config : Config}.
(** [str(data_set)], of a class that is not among the sources. *)
Variable str_data_set : DataSet.t -> string.
Variable data_sets : list DataSet.t.

(** The text after the question mark. *)
Definition journey_query (_from to datetime datetime_represents : string)
    (first_section_mode last_section_mode forbidden_uris direct_path_mode : list string)
    (kwargs : list (string * string)) : result string :=
  if String.eqb datetime "" then Raise (AssertionError "")
  else
    let query :=
      "from=" +:+ _from +:+ "&to=" +:+ to +:+ "&datetime=" +:+ datetime
        +:+ "&datetime_represents=" +:+ datetime_represents in
    let query := add_each "first_section_mode[]" first_section_mode query in
    let query := add_each "last_section_mode[]" last_section_mode query in
    let query := add_each "direct_path_mode[]" direct_path_mode query in
    let query := add_each "forbidden_uris[]" forbidden_uris query in
    let query := add_kwargs kwargs query in
    match first_item data_sets with
    | Raise e => Raise e
    | Ok data_set0 =>
        let query :=
          query +:+ "&_override_scenario="
            +:+ overridden_scenario (DataSet.scenario data_set0) in
        let query := query +:+ "&_current_datetime=" +:+ datetime in
        Ok query
    end.

(** The URL that [journey] hands to [request_compare]. *)
Definition journey_http_query (_from to datetime datetime_represents : string)
    (first_section_mode last_section_mode forbidden_uris direct_path_mode : list string)
    (kwargs : list (string * string)) : result string :=
  match journey_query _from to datetime datetime_represents first_section_mode
          last_section_mode forbidden_uris direct_path_mode kwargs with
  | Raise e => Raise e
  | Ok query_parameters =>
      match first_item data_sets with
      | Raise e => Raise e
      | Ok data_set0 =>
          Ok (URL_JORMUN +:+ "/v1/coverage/" +:+ str_data_set data_set0
                +:+ "/journeys?" +:+ query_parameters)
      end
  end.

End Journey.

(** The parameters of a query string: the pieces between ampersands, each
    cut at its first equals sign. *)
Fixpoint split_on (sep : ascii) (s : string) : list string :=
  match s with
  | EmptyString => [EmptyString]
  | String c s' =>
      if Ascii.eqb c sep then EmptyString :: split_on sep s'
      else
        match split_on sep s' with
        | piece :: pieces => String c piece :: pieces
        | [] => [String c EmptyString]
        end
  end.

Fixpoint cut_at (sep : ascii) (s : string) : string * string :=
  match s with
  | EmptyString => (EmptyString, EmptyString)
  | String c s' =>
      if Ascii.eqb c sep then (EmptyString, s')
      else let '(k, v) := cut_at sep s' in (String c k, v)
  end.

Definition query_params (query : string) : list (string * string) :=
  List.map (cut_at "=") (split_on "&" query).

Definition params_named (key : string) (query : string) : list (string * string) :=
  List.filter (fun kv => String.eqb (fst kv) key) (query_params query).

(** ** Reference files: [write_full_response_to_file], [create_reference]
    and [compare_with_ref] *)

(** [ujson] *)
Class Ujson : Type := {
  loads : string -> result json;
  (** [dumps] with the options that [write_full_response_to_file] passes. *)
  dumps : json -> string
}.

(** What the fixture uses of [artemis.utils] and
    [artemis.pytest_report_makers]; neither module is among the sources. *)
Class Helpers : Type := {
  order_response : json -> json;
  journeys_diff : json -> json -> string;
  PY3 : bool
}.

(** A response checker: an object with a [filter] and a [compare]. *)
Module Checker.
Record t : Type := {
  filter : json -> json;
  (** returns, or raises [AssertionError] on a mismatch *)
  compare : json -> json -> result unit
}.
End Checker.

(** What the helpers of [CommonTestFixture] answer for the running test and
    the current count of calls to [request_compare]. *)
Record TestCall : Type := {
  get_reference_file_path : string;
  get_reference_filename_prefix : string;
  get_reference_suffix_path : string;
  get_test_name : string
}.

(** The file system, by path, the paths taken as they are written.  The
    output tree is part of the state with its directories: it is removed
    when the package is imported and made again by [os.makedirs], and
    [open] looks at the directories above an artifact.  The references
    folder is given with the settings: the directories above a reference
    file are outside the state and are taken to be there. *)
Inductive node : Type :=
| File (text : string)
| Dir.

Record Disk : Type := {
  files : gmap string node;
  (** the entries [add_to_report] received: test name, query, message *)
  report : list (string * string * string)
}.

Definition os_path_isfile (path : string) (d : Disk) : bool :=
  match files d !! path with
  | Some (File _) => true
  | _ => false
  end.

Definition os_path_exists (path : string) (d : Disk) : bool :=
  match files d !! path with
  | Some _ => true
  | None => false
  end.

(** The directories above a path, from the top: what is written before
    each slash of the path, unless it is empty or ends with a slash itself
    (the working directory, the root, a doubled slash). *)
Fixpoint dirs_above_from (seen rest : string) : list string :=
  match rest with
  | EmptyString => []
  | String c rest' =>
      (if Ascii.eqb c "/" && negb (String.eqb seen "" || str_endswith seen "/")
       then [seen] else [])
      ++ dirs_above_from (seen +:+ String c EmptyString) rest'
  end.

Definition dirs_above (path : string) : list string := dirs_above_from "" path.

(** [os.mkdir(name)] in a directory that is there. *)
Definition os_mkdir (name : string) : M Disk unit :=
  fun d =>
    match files d !! name with
    | Some _ => (Raise (FileExistsError name), d)
    | None => (Ok tt, {| files := <[name := Dir]> (files d); report := report d |})
    end.

(** The directories [dirs] above [name] are made where they are missing,
    from the top, and then [name].  A regular file on the way stops
    [os.mkdir] of what is below it. *)
Fixpoint make_dirs (dirs : list string) (name : string) : M Disk unit :=
  match dirs with
  | [] => os_mkdir name
  | a :: below =>
      fun d =>
        match files d !! a with
        | Some (File _) => (Raise (NotADirectoryError (hd name below)), d)
        | Some Dir => make_dirs below name d
        | None =>
            make_dirs below name
              {| files := <[a := Dir]> (files d); report := report d |}
        end
  end.

(** [os.makedirs(name)]: every missing directory above [name] is made,
    and [name] itself. *)
Definition os_makedirs (name : string) : M Disk unit :=
  if String.eqb name "" then raise (FileNotFoundError name)
  else make_dirs (dirs_above name) name.

(** [open(path, "w")] followed by one [write], for a file of the
    references folder: the directories above it are not looked at. *)
Definition write_reference_file (path text : string) : M Disk unit :=
  fun d =>
    match files d !! path with
    | Some Dir => (Raise (IsADirectoryError path), d)
    | _ => (Ok tt, {| files := <[path := File text]> (files d); report := report d |})
    end.

(** What [open] makes of the directories above [path]: each of them has
    to be a directory. *)
Fixpoint resolve (dirs : list string) (path : string) (d : Disk) : result unit :=
  match dirs with
  | [] => Ok tt
  | a :: below =>
      match files d !! a with
      | Some Dir => resolve below path d
      | Some (File _) => Raise (NotADirectoryError path)
      | None => Raise (FileNotFoundError path)
      end
  end.

(** [open(path, "w")] followed by one [write]: the directories above
    [path] are looked at first. *)
Definition write_text (path text : string) : M Disk unit :=
  fun d =>
    match resolve (dirs_above path) path d with
    | Raise e => (Raise e, d)
    | Ok _ => write_reference_file path text d
    end.

(** [open(path, "r")] followed by [read]. *)
Definition read_text (path : string) : M Disk string :=
  fun d =>
    match files d !! path with
    | Some (File text) => (Ok text, d)
    | Some Dir => (Raise (IsADirectoryError path), d)
    | None => (Raise (FileNotFoundError path), d)
    end.

Definition add_to_report (test_name query message : string) : M Disk unit :=
  modify (fun d =>
    {| files := files d; report := report d ++ [(test_name, query, message)] |}).

Section ReferenceFiles.

Context {config : Config} {ujson : Ujson} {helpers : Helpers}.
Variable self : TestCall.

(** The [OrderedDict] that [write_full_response_to_file] builds. *)
Definition reference_text (http_query response_string : string)
    (response_checker : Checker.t) : result json :=
  let query := str_replace http_query (str_drop 7 URL_JORMUN) "localhost" in
  match loads response_string with
  | Raise e => Raise e
  | Ok parsed =>
      let response := order_response (Checker.filter response_checker parsed) in
      match loads (str_replace response_string (str_drop 7 URL_JORMUN) "localhost") with
      | Raise e => Raise e
      | Ok full_response =>
          Ok (JObj [ ("query", JStr query);
                     ("response", response);
                     ("full_response", full_response) ])
      end
  end.

(** [open_w] is what [open(filepath, "w")] and the [write] do where
    [filepath] is: [write_reference_file] in the references folder,
    [write_text] in the output tree. *)
Definition write_full_response_to_file (open_w : string -> string -> M Disk unit)
    (http_query response_string filepath : string)
    (response_checker : Checker.t) : M Disk unit :=
  reference_text <- lift (reference_text http_query response_string response_checker) ;;
  open_w filepath (dumps reference_text).

Definition create_reference (http_query response_string : string)
    (response_checker : Checker.t) : M Disk unit :=
  let filepath := get_reference_file_path self in
  is_file <- gets (os_path_isfile filepath) ;;
  if is_file : bool then raise (AssertionError "")
  else write_full_response_to_file write_reference_file http_query response_string filepath
         response_checker.

Definition compare_with_ref (http_query response_string : string)
    (response_checker : Checker.t) : M Disk unit :=
  resp_dict <- lift (loads response_string) ;;
  let filtered_response := Checker.filter response_checker resp_dict in
  let reference_filepath := get_reference_file_path self in
  is_file <- gets (os_path_isfile reference_filepath) ;;
  if negb is_file then raise (AssertionError (reference_filepath +:+ " is not a file"))
  else
    raw_reference <- read_text reference_filepath ;;
    ref_dict <- lift (loads raw_reference) ;;
    reference_full_response <- lift (getitem ref_dict "full_response") ;;
    let filtered_reference := Checker.filter response_checker reference_full_response in
    match Checker.compare response_checker filtered_response filtered_reference with
    | Ok _ => ret tt
    | Raise (AssertionError e) =>
        let filename_prefix := get_reference_filename_prefix self in
        let output_dir_path :=
          os_path_join RESPONSE_FILE_PATH (get_reference_suffix_path self) in
        present <- gets (os_path_exists output_dir_path) ;;
        (if negb present then os_makedirs output_dir_path else ret tt) ;;;
        let response_filename := filename_prefix +:+ "_resp.json" in
        let response_filepath := os_path_join output_dir_path response_filename in
        write_full_response_to_file write_text http_query response_string
          response_filepath response_checker ;;;
        let output_reference_filename := filename_prefix +:+ "_ref.json" in
        let output_reference_filepath :=
          os_path_join output_dir_path output_reference_filename in
        write_text output_reference_filepath raw_reference ;;;
        (if PY3
         then add_to_report (get_test_name self) http_query
                (journeys_diff filtered_reference filtered_response)
         else ret tt) ;;;
        raise (AssertionError e)
    | Raise other => raise other
    end.

(** [request_compare], after the HTTP call has answered [response_string]. *)
Definition request_compare (create_ref : bool) (http_query response_string : string)
    (checker : Checker.t) : M Disk unit :=
  if create_ref then create_reference http_query response_string checker
  else compare_with_ref http_query response_string checker.

End ReferenceFiles.

(** ** A small JSON reader and writer

    The worked examples below need a concrete [ujson].  This one reads
    objects, arrays, strings without escapes, integers, [true], [false] and
    [null], and writes them back without insignificant blanks; on the texts
    it accepts it decodes what [ujson.loads] decodes. *)

Module LiteJson.

Definition quote : ascii := Ascii.ascii_of_nat 34.

Definition is_space (c : ascii) : bool :=
  let n := Ascii.nat_of_ascii c in
  (n =? 32)%nat || (n =? 10)%nat || (n =? 9)%nat || (n =? 13)%nat.

Fixpoint skip_ws (s : string) : string :=
  match s with
  | EmptyString => EmptyString
  | String c s' => if is_space c then skip_ws s' else s
  end.

(** The text up to the closing quote, and what follows it. *)
Fixpoint read_string (s : string) : option (string * string) :=
  match s with
  | EmptyString => None
  | String c s' =>
      if Ascii.eqb c quote then Some (EmptyString, s')
      else if Ascii.eqb c "\" then None
      else
        match read_string s' with
        | Some (t, r) => Some (String c t, r)
        | None => None
        end
  end.

Definition digit_of (c : ascii) : option Z :=
  let n := Z.of_nat (Ascii.nat_of_ascii c) in
  if (48 <=? n) && (n <=? 57) then Some (n - 48) else None.

Fixpoint read_digits (acc : Z) (s : string) : Z * string :=
  match s with
  | EmptyString => (acc, s)
  | String c s' =>
      match digit_of c with
      | Some d => read_digits (10 * acc + d) s'
      | None => (acc, s)
      end
  end.

Definition read_number (s : string) : option (json * string) :=
  match s with
  | EmptyString => None
  | String c rest =>
      if Ascii.eqb c "-" then
        match rest with
        | String d _ =>
            match digit_of d with
            | Some _ => let '(n, r) := read_digits 0 rest in Some (JNum (- n), r)
            | None => None
            end
        | EmptyString => None
        end
      else
        match digit_of c with
        | Some _ => let '(n, r) := read_digits 0 s in Some (JNum n, r)
        | None => None
        end
  end.

Fixpoint parse_value (fuel : nat) (s : string) {struct fuel} : option (json * string) :=
  match fuel with
  | O => None
  | S fuel' =>
      match skip_ws s with
      | EmptyString => None
      | String c rest as here =>
          if Ascii.eqb c quote then
            match read_string rest with
            | Some (t, r) => Some (JStr t, r)
            | None => None
            end
          else if Ascii.eqb c "[" then
            if String.prefix "]" (skip_ws rest)
            then Some (JArr [], str_drop 1 (skip_ws rest))
            else
              match parse_items fuel' rest with
              | Some (items, r) => Some (JArr items, r)
              | None => None
              end
          else if Ascii.eqb c "{" then
            if String.prefix "}" (skip_ws rest)
            then Some (JObj [], str_drop 1 (skip_ws rest))
            else
              match parse_members fuel' [] rest with
              | Some (members, r) => Some (JObj members, r)
              | None => None
              end
          else if String.prefix "true" here then Some (JBool true, str_drop 4 here)
          else if String.prefix "false" here then Some (JBool false, str_drop 5 here)
          else if String.prefix "null" here then Some (JNull, str_drop 4 here)
          else read_number here
      end
  end

with parse_items (fuel : nat) (s : string) {struct fuel} : option (list json * string) :=
  match fuel with
  | O => None
  | S fuel' =>
      match parse_value fuel' s with
      | Some (v, r) =>
          match skip_ws r with
          | String c r' =>
              if Ascii.eqb c "," then
                match parse_items fuel' r' with
                | Some (items, r'') => Some (v :: items, r'')
                | None => None
                end
              else if Ascii.eqb c "]" then Some ([v], r')
              else None
          | EmptyString => None
          end
      | None => None
      end
  end

with parse_members (fuel : nat) (seen : list (string * json)) (s : string) {struct fuel}
  : option (list (string * json) * string) :=
  match fuel with
  | O => None
  | S fuel' =>
      match skip_ws s with
      | String c r =>
          if Ascii.eqb c quote then
            match read_string r with
            | Some (k, r1) =>
                match skip_ws r1 with
                | String c1 r2 =>
                    if Ascii.eqb c1 ":" then
                      match parse_value fuel' r2 with
                      | Some (v, r3) =>
                          match skip_ws r3 with
                          | String c3 r4 =>
                              if Ascii.eqb c3 "," then
                                parse_members fuel' (dict_set k v seen) r4
                              else if Ascii.eqb c3 "}" then Some (dict_set k v seen, r4)
                              else None
                          | EmptyString => None
                          end
                      | None => None
                      end
                    else None
                | EmptyString => None
                end
            | None => None
            end
          else None
      | EmptyString => None
      end
  end.

Definition loads (s : string) : result json :=
  match parse_value (2 * String.length s + 2) s with
  | Some (v, r) =>
      match skip_ws r with
      | EmptyString => Ok v
      | String _ _ => Raise (ValueError "Trailing data")
      end
  | None => Raise (ValueError "Expected object or value")
  end.

Definition quoted (s : string) : string :=
  String quote s +:+ String quote EmptyString.

Fixpoint dumps (doc : json) : string :=
  match doc with
  | JNull => "null"
  | JBool b => if b then "true" else "false"
  | JNum n => pretty n
  | JStr s => quoted s
  | JArr items =>
      "[" +:+
      (fix each (l : list json) : string :=
         match l with
         | [] => ""
         | [x] => dumps x
         | x :: rest => dumps x +:+ "," +:+ each rest
         end) items
      +:+ "]"
  | JObj members =>
      "{" +:+
      (fix each (l : list (string * json)) : string :=
         match l with
         | [] => ""
         | [(k, v)] => quoted k +:+ ":" +:+ dumps v
         | (k, v) :: rest => quoted k +:+ ":" +:+ dumps v +:+ "," +:+ each rest
         end) members
      +:+ "}"
  end.

(** JSON text is written below with apostrophes for the double quotes. *)
Fixpoint text (s : string) : string :=
  match s with
  | EmptyString => EmptyString
  | String c s' => String (if Ascii.eqb c "'" then quote else c) (text s')
  end.

Definition ujson : Ujson := Build_Ujson loads dumps.

End LiteJson.

(** ** Notions used in the statements *)

(** The entries of type [data_type] in the jobs created after [time_limit],
    each with its job, in the order of the answer. *)
Definition fresh_entries (data_type : string) (time_limit : Z) (jobs : list Job.t)
  : list (Job.t * JobDataSet.t) :=
  flat_map
    (fun job =>
       if Job.created_at job >? time_limit
       then List.map (pair job)
              (List.filter (fun e => String.eqb data_type (JobDataSet.type e))
                 (Job.data_sets job))
       else [])
    jobs.

(** Some job created after [time_limit] has an entry of type [data_type]
    whose state is "done". *)
Definition has_done_entry (data_type : string) (time_limit : Z) (jobs : list Job.t)
  : bool :=
  existsb
    (fun job =>
       (Job.created_at job >? time_limit)
       && existsb
            (fun e =>
               String.eqb data_type (JobDataSet.type e)
               && String.eqb (JobDataSet.state e) "done")
            (Job.data_sets job))
    jobs.

(** What staging archives for a category whose directory exists. *)
Record StagedCategory : Type := {
  staged_files_type : string;
  staged_dataset_type : string;
  staged_zipped : bool;
  (** the files of the directory that end with the extension *)
  staged_files : list (string * blob)
}.

Section StagedNotions.

Context {config : Config}.
Variable data_tree : gmap string (list (string * string)).
Variable data_set : DataSet.t.

Definition category_path (data_files_type : string) : string :=
  DATA_DIR +:+ "/" +:+ DataSet.name data_set +:+ "/" +:+ data_files_type.

Definition category_zip_path (data_files_type : string) : string :=
  category_path data_files_type +:+ "/" +:+ DataSet.name data_set +:+ "_"
    +:+ data_files_type +:+ ".zip".

(** The categories of the table whose directory exists, in its order. *)
Definition staged_categories (todo : list (string * string * list string * bool))
  : list StagedCategory :=
  omap
    (fun entry =>
       let '(data_files_type, dataset_type, file_ext, is_zipped) := entry in
       match data_tree !! category_path data_files_type with
       | Some listing =>
           Some {| staged_files_type := data_files_type;
                   staged_dataset_type := dataset_type;
                   staged_zipped := is_zipped;
                   staged_files :=
                     List.map (fun f => (fst f, Data (snd f)))
                       (List.filter (fun f => str_endswith_any (fst f) file_ext)
                          listing) |}
       | None => None
       end)
    todo.

(** The tar of a category: its files inside one zip named after the
    category, or the files themselves when the category is not zipped. *)
Definition category_tar (c : StagedCategory) : blob :=
  TarFile
    (if staged_zipped c
     then [(staged_files_type c +:+ ".zip", ZipFile (staged_files c))]
     else staged_files c).

(** The archives written for a category: the zip in its directory, when
    it is zipped, and the tar in the working directory. *)
Definition write_category (written : gmap string blob) (c : StagedCategory)
  : gmap string blob :=
  <["./" +:+ staged_files_type c +:+ ".tar" := category_tar c]>
    (if staged_zipped c
     then <[category_zip_path (staged_files_type c) := ZipFile (staged_files c)]> written
     else written).

End StagedNotions.

(** [c] occurs in [s]. *)
Fixpoint has_char (c : ascii) (s : string) : bool :=
  match s with
  | EmptyString => false
  | String c' s' => Ascii.eqb c' c || has_char c s'
  end.

(** A text without ampersand, and a parameter name: without ampersand and
    without equals sign. *)
Definition plain_text (s : string) : bool := negb (has_char "&" s).

Definition plain_name (s : string) : bool :=
  negb (has_char "&" s) && negb (has_char "=" s).

(** The arguments of a call of [journey] do not interfere with the syntax
    of the query string. *)
Definition plain_arguments (_from to datetime datetime_represents : string)
    (first_section_mode last_section_mode forbidden_uris direct_path_mode : list string)
    (kwargs : list (string * string)) : bool :=
  plain_text _from && plain_text to && plain_text datetime
  && plain_text datetime_represents
  && forallb plain_text first_section_mode
  && forallb plain_text last_section_mode
  && forallb plain_text forbidden_uris
  && forallb plain_text direct_path_mode
  && forallb (fun kv => plain_name (fst kv) && plain_text (snd kv)) kwargs.

(** ** Data of the worked examples *)

Module Demo.

Definition fr_idf : DataSet.t :=
  {| DataSet.name := "fr-idf";
     DataSet.reload_timeout := 120000;
     DataSet.fixed_wait := 1000;
     DataSet.scenario := "new_default" |}.

Definition entry (type state : string) : JobDataSet.t :=
  {| JobDataSet.type := type; JobDataSet.state := state |}.

Definition job (created_at : Z) (state : string) (data_sets : list JobDataSet.t) : Job.t :=
  {| Job.created_at := created_at; Job.state := state; Job.data_sets := data_sets |}.

Definition answer (jobs : list Job.t) : Http.response (list Job.t) :=
  {| Http.status_code := 200; Http.body := jobs |}.

(** A job still running listed before one that is done, both newer than
    the time limit 100. *)
Definition running_then_done : list Job.t :=
  [ job 200 "running" [entry "fusio" "running"];
    job 300 "done" [entry "fusio" "done"] ].

Definition done_only : list Job.t :=
  [ job 300 "done" [entry "fusio" "done"] ].

(** A job that failed listed before one that is done. *)
Definition failed_then_done : list Job.t :=
  [ job 200 "failed" [entry "fusio" "failed"];
    job 300 "done" [entry "fusio" "done"] ].

(** An entry that failed in a job whose own state is still "running". *)
Definition failed_in_running_job : list Job.t :=
  [ job 200 "running" [entry "fusio" "failed"] ].

Definition container (name status : string) : Container.t :=
  {| Container.name := name;
     Container.status := status;
     Container.attrs_Name := "/" +:+ name |}.

(** A backend that only records the steps run on it. *)
Definition logged (step : string) (name : string) : M (list string) unit :=
  modify (fun log => log ++ [step +:+ " " +:+ name]).

Definition logged_manage_data : bool -> list DataSet.t -> M (Fixture (list string)) unit :=
  manage_data (list string)
    (logged "update_instance_db")
    (fun data_set => logged "remove_data_by_dataset" (DataSet.name data_set))
    (fun data_set => logged "update_data_by_dataset" (DataSet.name data_set))
    (logged "check_values").

Definition config : Config :=
  {| URL_JORMUN := "http://navitia.io";
     URL_TYR := "http://tyr";
     DATA_DIR := "/artemis/data";
     CONTAINER_DATA_INPUT_PATH := "/srv/ed/input";
     RESPONSE_FILE_PATH := "/artemis/output" |}.

(** Only the "fusio" directory of "fr-idf" exists; it holds a data file
    and a note. *)
Definition data_tree : gmap string (list (string * string)) :=
  {[ "/artemis/data/fr-idf/fusio" := [("a.txt", "stops"); ("README.md", "notes")] ]}.

Definition fleet : list Container.t :=
  [ container "navitia_kraken-fr-idf_1" "running";
    container "navitia_tyr_worker_1" "running" ].

(** Structural equality of documents, members in order. *)
Fixpoint json_eqb (a b : json) : bool :=
  match a, b with
  | JNull, JNull => true
  | JBool x, JBool y => Bool.eqb x y
  | JNum x, JNum y => Z.eqb x y
  | JStr x, JStr y => String.eqb x y
  | JArr xs, JArr ys =>
      (fix each (xs ys : list json) : bool :=
         match xs, ys with
         | [], [] => true
         | x :: xs', y :: ys' => json_eqb x y && each xs' ys'
         | _, _ => false
         end) xs ys
  | JObj xs, JObj ys =>
      (fix each (xs ys : list (string * json)) : bool :=
         match xs, ys with
         | [], [] => true
         | (k, x) :: xs', (l, y) :: ys' => String.eqb k l && json_eqb x y && each xs' ys'
         | _, _ => false
         end) xs ys
  | _, _ => false
  end.

(** A checker whose filter drops the top-level "links" and whose
    comparison wants the two documents equal. *)
Definition strip_links (doc : json) : json :=
  match doc with
  | JObj members =>
      JObj (List.filter (fun kv => negb (String.eqb (fst kv) "links")) members)
  | other => other
  end.

Definition links_checker : Checker.t :=
  {| Checker.filter := strip_links;
     Checker.compare := fun response reference =>
       if json_eqb response reference then Ok tt
       else Raise (AssertionError "response and reference differ") |}.

(** Helpers whose [order_response] leaves the documents of the examples as
    they are: their objects have their keys in order already. *)
Definition helpers : Helpers :=
  {| order_response := fun doc => doc;
     journeys_diff := fun reference response => "journeys differ";
     PY3 := true |}.

Definition test_call : TestCall :=
  {| get_reference_file_path := "/artemis/references/TestIdfm/test_idfm_01_0.json";
     get_reference_filename_prefix := "test_idfm_01_0";
     get_reference_suffix_path := "TestIdfm";
     get_test_name := "test_idfm_01" |}.

Definition journeys_query : string :=
  "http://navitia.io/v1/coverage/fr-idf/journeys?from=A&to=B".

(** A response whose body names the backend host. *)
Definition response_with_host : string :=
  LiteJson.text
    "{'journeys': [{'duration': 100}], 'links': ['http://navitia.io/v1/journeys'], 'self': 'http://navitia.io/v1/coverage/fr-idf'}".

(** A response whose body does not. *)
Definition response_without_host : string :=
  LiteJson.text "{'journeys': [{'duration': 100}], 'links': ['/v1/journeys']}".

(** A reference file written when the filter kept the links; its journey
    lasts 90 where the live response says 100. *)
Definition stored_reference : string :=
  LiteJson.text
    "{'query': 'http://localhost/v1/coverage/fr-idf/journeys?from=A&to=B', 'response': {'journeys': [{'duration': 90}], 'links': ['/v1/journeys']}, 'full_response': {'journeys': [{'duration': 90}], 'links': ['/v1/journeys']}}".

Definition empty_disk : Disk := {| files := ∅; report := [] |}.

Definition disk_with_reference : Disk :=
  {| files := {[ "/artemis/references/TestIdfm/test_idfm_01_0.json" := File stored_reference ]};
     report := [] |}.

Definition loaded_at (t : string) : CoverageStatus.t :=
  {| CoverageStatus.status_obj :=
       Some {| CoverageStatus.status := Some "running";
               CoverageStatus.last_load_at := Some t |} |}.

End Demo.

(** ** [docker_orchestrator]: the other waits

    All of them are decorated with
    [@retry(stop_max_delay=3000000, wait_fixed=2000)]: every exception is
    retried.  A call that returns gives the lines it printed. *)

Definition orchestrator_retry : retrying.Retrying :=
  {| retrying.stop_max_delay := 3000000;
     retrying.wait_fixed := 2000;
     retrying.retry_on_exception := retrying.always_reject |}.

(** One call of the undecorated [wait_for_cities_db], on the status code of
    the answer. *)
Definition wait_for_cities_db_once (status_code : Z) : result (list string) :=
  if negb (status_code =? 200) then Raise (Exception "Cities not reachable")
  else Ok ["Wait for cities db upgrade..."; " -> Cities Responding"].

Definition wait_for_cities_db (polls : list (Z * Z))
  : option (result (list string) * nat) :=
  retrying.retry orchestrator_retry wait_for_cities_db_once polls.

(** One call of the undecorated [wait_for_cities_job_completion], on the
    status code and the text of the answer.  [response.text] is a string,
    and a string indexed by a string raises [TypeError]. *)
Definition wait_for_cities_job_completion_once (answer : Z * string)
  : result (list string) :=
  if negb (fst answer =? 200) then Raise (Exception "Cities not reachable")
  else Raise (TypeError "string indices must be integers").

Definition wait_for_cities_job_completion (polls : list (Z * string * Z))
  : option (result (list string) * nat) :=
  retrying.retry orchestrator_retry wait_for_cities_job_completion_once polls.

(** One call of the undecorated [wait_for_kraken_stop]. *)
Definition wait_for_kraken_stop_once (kraken_name : string)
    (all_containers_list : list Container.t) : result (list string) :=
  let docker_list := get_compose_containers_list all_containers_list in
  match next (fun x => str_in kraken_name (Container.name x)) docker_list with
  | Some kraken_container =>
      if String.eqb (Container.status kraken_container) "running"
      then Raise (Exception "Kraken still running...")
      else Ok ["Container " +:+ Container.name kraken_container +:+ " : Status: "
                 +:+ Container.status kraken_container]
  | None => Ok ["No container found for " +:+ kraken_name]
  end.

Definition wait_for_kraken_stop (kraken_name : string)
    (polls : list (list Container.t * Z)) : option (result (list string) * nat) :=
  retrying.retry orchestrator_retry (wait_for_kraken_stop_once kraken_name) polls.

(** One call of [wait_for_kraken_removal], of [wait_for_docker_removal]. *)
Definition wait_for_kraken_removal_once (kraken_name : string)
    (all_containers_list : list Container.t) : result unit :=
  let docker_list := get_compose_containers_list all_containers_list in
  match next (fun x => str_in kraken_name (Container.name x)) docker_list with
  | Some _ => Raise (Exception "Kraken not yet removed...")
  | None => Ok tt
  end.

Definition wait_for_docker_removal (kraken_name : string)
    (polls : list (list Container.t * Z)) : option (result unit * nat) :=
  retrying.retry orchestrator_retry (wait_for_kraken_removal_once kraken_name) polls.

(** One call of [wait_for_containers_stop], of [docker_clean]. *)
Definition wait_for_containers_stop_once (all_containers_list : list Container.t)
  : result unit :=
  match get_compose_containers_list all_containers_list with
  | _ :: _ => Raise (Exception "Containers still running...")
  | [] => Ok tt
  end.

Definition wait_for_containers_stop (polls : list (list Container.t * Z))
  : option (result unit * nat) :=
  retrying.retry orchestrator_retry wait_for_containers_stop_once polls.

(** ** [remove_data_by_dataset] and [update_data_by_dataset] as a whole

    Beside the archives, the commands run in the worker by [exec_run] are
    recorded.  Each wait polls on its own: the polls of the job waits are
    given wait by wait, in the order of the calls. *)

Record Loading : Type := {
  staging : Staging;
  executed : list (string * string)   (* container, command *)
}.

Definition exec_run (container : Container.t) (cmd : string) : M Loading unit :=
  modify (fun ld =>
    {| staging := staging ld;
       executed := executed ld ++ [(Container.name container, cmd)] |}).

Definition on_staging {A} (m : M Staging A) : M Loading A :=
  fun ld =>
    let '(r, st) := m (staging ld) in
    (r, {| staging := st; executed := executed ld |}).

Section UpdateData.

Context {config : Config}.
Variable data_tree : gmap string (list (string * string)).
Variable all_containers : list Container.t.
Variable data_set : DataSet.t.

Definition remove_data_by_dataset : M Loading unit :=
  let file_path := "/srv/ed/output/" +:+ DataSet.name data_set +:+ ".nav.lz4" in
  match containers all_containers with
  | [] => ret tt
  | worker :: _ => exec_run worker ("rm " +:+ file_path)
  end.

(** [for dataset_type in dataset_types_to_process:
       wait_for_data_processing(dataset_type, current_utc_datetime)] *)
Fixpoint wait_for_each (dataset_types_to_process : list string)
    (current_utc_datetime : Z)
    (jobs_polls : list (list (Http.response (list Job.t) * Z)))
  : option (result unit) :=
  match dataset_types_to_process with
  | [] => Some (Ok tt)
  | dataset_type :: rest =>
      match jobs_polls with
      | [] => None
      | polls :: more =>
          match wait_for_data_processing data_set dataset_type current_utc_datetime
                  polls with
          | None => None
          | Some (Raise e, _) => Some (Raise e)
          | Some (Ok _, _) => wait_for_each rest current_utc_datetime more
          end
      end
  end.

(** [status_before] is the answer of the status request made before the
    staging, [current_utc_datetime] the clock read before it. *)
Definition update_data_by_dataset (status_before : CoverageStatus.t)
    (current_utc_datetime : Z)
    (jobs_polls : list (list (Http.response (list Job.t) * Z)))
    (reload_polls : list (CoverageStatus.t * Z))
    (ld : Loading) : option (result unit) * Loading :=
  let '(_, ld1) :=
    match containers all_containers with
    | [] => ret tt ld
    | worker :: _ => exec_run worker ("mkdir " +:+ input_path data_set) ld
    end in
  let last_reload_time := get_last_coverage_loaded_time status_before in
  match on_staging (stage_and_push_input data_tree all_containers data_set) ld1 with
  | (Raise e, ld2) => (Some (Raise e), ld2)
  | (Ok dataset_types_to_process, ld2) =>
      match wait_for_each dataset_types_to_process current_utc_datetime jobs_polls with
      | None => (None, ld2)
      | Some (Raise e) => (Some (Raise e), ld2)
      | Some (Ok _) =>
          match wait_for_kraken_reload data_set last_reload_time reload_polls with
          | None => (None, ld2)
          | Some (outcome, _) => (Some outcome, ld2)
          end
      end
  end.

End UpdateData.

(** A computation that leaves the node at [path] as it is, and the report
    with at most new entries at its end. *)
Definition leaves_alone (path : string) {A} (m : M Disk A) : Prop :=
  forall d,
    files (snd (m d)) !! path = files d !! path
    /\ exists added, report (snd (m d)) = report d ++ added.

(** A computation that leaves what is at [path] there, when something
    is. *)
Definition keeps (path : string) {A} (m : M Disk A) : Prop :=
  forall d n, files d !! path = Some n -> files (snd (m d)) !! path = Some n.

(** ** More data for the worked examples *)

Module Cases.

(** A reference whose journey lasts 100, like the live response, and whose
    links differ from it. *)
Definition agreeing_reference : string :=
  LiteJson.text
    "{'query': 'http://localhost/v1/coverage/fr-idf/journeys?from=A&to=B', 'response': {'journeys': [{'duration': 100}]}, 'full_response': {'journeys': [{'duration': 100}], 'links': ['/v1/journeys?page=2']}}".

Definition disk_with_agreeing_reference : Disk :=
  {| files :=
       {[ "/artemis/references/TestIdfm/test_idfm_01_0.json" := File agreeing_reference ]};
     report := [] |}.

(** The reference of the examples under its directories, once the
    output tree has been removed at import. *)
Definition disk_after_import : Disk :=
  {| files :=
       {[ "/artemis" := Dir;
          "/artemis/references" := Dir;
          "/artemis/references/TestIdfm" := Dir;
          "/artemis/references/TestIdfm/test_idfm_01_0.json" := File Demo.stored_reference ]};
     report := [] |}.

(** The same with the output directory made again, and a regular file
    where the directory of the test should be. *)
Definition disk_with_file_in_the_way : Disk :=
  {| files :=
       {[ "/artemis" := Dir;
          "/artemis/output" := Dir;
          "/artemis/output/TestIdfm" := File "notes";
          "/artemis/references" := Dir;
          "/artemis/references/TestIdfm" := Dir;
          "/artemis/references/TestIdfm/test_idfm_01_0.json" := File Demo.stored_reference ]};
     report := [] |}.

End Cases.

(** ** A backend on which a coverage does not come up *)

Module Outage.

Definition fr_bre : DataSet.t :=
  {| DataSet.name := "fr-bre";
     DataSet.reload_timeout := 120000;
     DataSet.fixed_wait := 1000;
     DataSet.scenario := "distributed" |}.

(** The check of "fr-bre" fails; every other step is only recorded. *)
Definition check_values (name : string) : M (list string) unit :=
  if String.eqb name "fr-bre" then raise (Exception "Coverage fr-bre NOT RUNNING")
  else Demo.logged "check_values" name.

End Outage.

(** ** [ArtemisTestFixture.update_instance_db]

    The body of an answer of [GET /v0/instances/] is kept as the list of
    the ["name"]s of the instances it lists.  The requests sent with [PUT]
    are recorded in order: the URL and the data. *)

Definition tyr_scan_retry : retrying.Retrying :=
  {| retrying.stop_max_delay := 60000;
     retrying.wait_fixed := 500;
     retrying.retry_on_exception := utils.is_retry_exception |}.

(** One call of the undecorated [wait_for_tyr_instance_scan]. *)
Definition wait_for_tyr_instance_scan_once (instance_name : string)
    (instances_request : Http.response (list string)) : result unit :=
  match Http.raise_for_status instances_request with
  | Raise e => Raise e
  | Ok _ =>
      if negb (name_in instance_name (Http.body instances_request))
      then Raise (RetryError
             ("Instance " +:+ instance_name +:+ " not yet scanned by Tyr"))
      else Ok tt
  end.

Definition wait_for_tyr_instance_scan (instance_name : string)
    (polls : list (Http.response (list string) * Z)) : option (result unit * nat) :=
  retrying.retry tyr_scan_retry (wait_for_tyr_instance_scan_once instance_name) polls.

Section UpdateInstanceDb.

Context {config : Config}.

(** The text [json.dumps(default_values)]; [default_values] is imported
    from [artemis.instance_default_values]. *)
Variable default_values_data : string.

(** [r] is the answer to the [PUT]. *)
Definition update_instance_db (data_set : string)
    (scan_polls : list (Http.response (list string) * Z))
    (r : Http.response string) (sent : list (string * string))
  : option (result unit) * list (string * string) :=
  match wait_for_tyr_instance_scan data_set scan_polls with
  | None => (None, sent)
  | Some (Raise e, _) => (Some (Raise e), sent)
  | Some (Ok _, _) =>
      let instance_url := URL_TYR +:+ "/v0/instances/" +:+ data_set in
      (Some (Http.raise_for_status r), sent ++ [(instance_url, default_values_data)])
  end.

End UpdateInstanceDb.

(** ** [ArtemisTestFixture.check_values]

    The answer of [coverage/{cov}/status] as [check_values] reads it: the
    ["status"] object, its ["status"] and its ["parameters"], a dictionary;
    each of them may be missing. *)

Module InstanceStatus.
Record status_t : Type := {
  status : option string;
  parameters : option (list (string * json))
}.
Record t : Type := { status_obj : option status_t }.
End InstanceStatus.

Section CheckValues.

(** [default_values], of [artemis.instance_default_values], in the order
    of [items()]. *)
Variable default_values : list (string * json).
(** [tyr != artemis] on two decoded values, and the text [format] gives for
    a value. *)
Variable py_ne : json -> json -> bool.
Variable py_str : json -> string.
(** [json.dumps] of the dictionary of differences. *)
Variable dumps_diffs : list (string * json) -> string.

(** [k in params]; [params] is the empty string when ["parameters"] is
    missing. *)
Definition in_params (k : string) (params : option (list (string * json))) : bool :=
  match params with
  | Some members =>
      match dict_get k members with
      | Some _ => true
      | None => false
      end
  | None => str_in k ""
  end.

(** [params[k]] *)
Definition params_getitem (params : option (list (string * json))) (k : string)
  : result json :=
  match params with
  | Some members => getitem (JObj members) k
  | None => Raise (TypeError "string indices must be integers")
  end.

(** The loop over [default_values.items()]. *)
Fixpoint collect_diffs (items : list (string * json))
    (params : option (list (string * json))) (diffs : list (string * json))
  : result (list (string * json)) :=
  match items with
  | [] => Ok diffs
  | (k, v) :: rest =>
      if negb (in_params k params)
      then collect_diffs rest params (dict_set k (JStr "Missing in Tyr") diffs)
      else
        match params_getitem params k with
        | Raise e => Raise e
        | Ok tyr =>
            if py_ne tyr v
            then collect_diffs rest params
                   (dict_set k (JStr (py_str v +:+ " != " +:+ py_str tyr)) diffs)
            else collect_diffs rest params diffs
        end
  end.

(** [_response] and [_status] are what [utils.request] returned. *)
Definition check_values (data_set : string) (_response : InstanceStatus.t)
    (_status : Z) : result unit :=
  if negb (_status =? 200) then Raise (Exception "Error while getting coverage status")
  else
    let cov_status :=
      match InstanceStatus.status_obj _response with
      | None => ""
      | Some st =>
          match InstanceStatus.status st with
          | None => ""
          | Some s => s
          end
      end in
    if negb (String.eqb cov_status "running")
    then Raise (Exception ("Coverage " +:+ data_set +:+ " NOT RUNNING"))
    else
      let params :=
        match InstanceStatus.status_obj _response with
        | None => None
        | Some st => InstanceStatus.parameters st
        end in
      match collect_diffs default_values params [] with
      | Raise e => Raise e
      | Ok [] => Ok tt
      | Ok (d :: more) =>
          Raise (Exception
            ("Diff(s) in parameters : " +:+ dumps_diffs (d :: more)))
      end.

End CheckValues.

(** A default value that Tyr holds, equal: [k in params] and not
    [params[k] != v]. *)
Definition agrees (py_ne : json -> json -> bool)
    (params : option (list (string * json))) (kv : string * json) : Prop :=
  exists members tyr,
    params = Some members
    /\ dict_get (fst kv) members = Some tyr
    /\ py_ne tyr (snd kv) = false.

(** ** Defaults and answers of Tyr for the worked examples *)

Module Defaults.

Definition default_values : list (string * json) :=
  [ ("max_walking_duration_to_pt", JNum 1800); ("bss_provider", JBool true) ].

Definition py_ne (tyr artemis : json) : bool := negb (Demo.json_eqb tyr artemis).

Definition dumps_diffs (diffs : list (string * json)) : string :=
  LiteJson.dumps (JObj diffs).

Definition running (members : list (string * json)) : InstanceStatus.t :=
  {| InstanceStatus.status_obj :=
       Some {| InstanceStatus.status := Some "running";
               InstanceStatus.parameters := Some members |} |}.

End Defaults.

(** ** [docker_orchestrator]: the script

    [args] is what [docopt] returns.  The steps of the script start
    processes and wait on them; they are kept as computations over the state
    of the machine.  [launch_coverages] returns [has_failures], or nothing
    when the template is not found. *)

Module Args.
Record t : Type := {
  test : bool;
  clean : bool;
  coverage : list string;
  p : bool;
  pull : bool
}.
End Args.

(** How the script ends: its last statement returns, an exception of a
    step or of the script gets out, or a name is read that was never
    bound. *)
Inductive script_end : Type :=
| Exits
| Raises (e : exn)
| NameError (name : string).

Section Main.

Variable W : Type.
Variable os_chdir : M W unit.
Variable init_dockers : bool -> M W unit.
Variable launch_coverages : list string -> M W (option bool).
Variable docker_clean : M W unit.

(** The statements under [if args["test"]]; they bind [f]. *)
Definition run_tests (args : Args.t) : M W (option bool) :=
  os_chdir ;;;
  init_dockers (Args.p args || Args.pull args) ;;;
  launch_coverages (Args.coverage args).

Definition main (args : Args.t) (w : W) : script_end * W :=
  let '(r, w1) :=
    (if Args.test args then f <- run_tests args ;; ret (Some f) else ret None) w in
  match r with
  | Raise e => (Raises e, w1)
  | Ok f =>
      let '(r2, w2) :=
        (if Args.clean args || Args.test args then docker_clean else ret tt) w1 in
      match r2 with
      | Raise e => (Raises e, w2)
      | Ok _ =>
          match f with
          | None => (NameError "f", w2)
          | Some (Some true) => (Raises (Exception "Some tests FAILED"), w2)
          | Some _ => (Exits, w2)
          end
      end
  end.

End Main.

(** ** [launch_coverages]

    An instance of [artemis_custom_instances_list.yml] is a dictionary.  The
    body of the loop over the instances writes the compose file of the
    instance, starts its containers, waits for them, runs [pytest], stops
    and removes the Kraken and deletes the file; it is kept as a
    computation that gives the exit code of [pytest]. *)

Section LaunchCoverages.

Variable W : Type.
Variable run_instance : list (string * json) -> M W Z.

(** [coverage_to_run in x] *)
Definition instance_has (coverage_to_run : string) (x : list (string * json)) : bool :=
  match dict_get coverage_to_run x with
  | Some _ => true
  | None => false
  end.

(** [for coverage_to_run in coverages: list_of_coverages.extend(...)] *)
Fixpoint extend_each (coverages : list string) (instances : list (list (string * json)))
  : list (list (string * json)) :=
  match coverages with
  | [] => []
  | coverage_to_run :: rest =>
      List.filter (instance_has coverage_to_run) instances ++ extend_each rest instances
  end.

Definition list_of_coverages (coverages : list string)
    (instances : list (list (string * json))) : list (list (string * json)) :=
  match coverages with
  | [] => instances
  | _ :: _ => extend_each coverages instances
  end.

Fixpoint run_instances (todo : list (list (string * json))) (has_failures : bool)
  : M W bool :=
  match todo with
  | [] => ret has_failures
  | instance :: rest =>
      p <- run_instance instance ;;
      run_instances rest (if negb (p =? 0) then true else has_failures)
  end.

(** [DOCKER_COMPOSE_PATH] and [TEST_PATH] are the two settings read,
    [template] is the template when [get_template] finds it, [instances]
    is [data["instances"]]. *)
Definition launch_coverages (DOCKER_COMPOSE_PATH TEST_PATH : string)
    (template : option string) (instances : list (list (string * json)))
    (coverages : list string) : M W (option bool) :=
  if String.eqb DOCKER_COMPOSE_PATH ""
  then raise (Exception "DOCKER_COMPOSE_PATH needs to be set")
  else if String.eqb TEST_PATH ""
  then raise (Exception "TEST_PATH needs to be set")
  else
    match template with
    | None => ret None
    | Some _ =>
        has_failures <- run_instances (list_of_coverages coverages instances) false ;;
        ret (Some has_failures)
    end.

End LaunchCoverages.

(** * Properties *)

(** ** The retry loop *)

Section RetryLoop.

Context {O A : Type}.
Variable r : retrying.Retrying.
Variable fn : O -> result A.

Lemma call_goes_on p later n :
  retrying.goes_on r fn p ->
  retrying.call r fn (p :: later) n = retrying.call r fn later (S n).
Proof.
  destruct p as [o delay]. intros [Hrej Hdelay]. simpl in *.
  rewrite Hrej. simpl. unfold retrying.stop_after_delay.
  destruct (Z.leb_spec (retrying.stop_max_delay r) delay); [lia | reflexivity].
Qed.

Lemma call_accepts o delay later n :
  retrying.should_reject r (fn o) = false ->
  retrying.call r fn ((o, delay) :: later) n = Some (fn o, n).
Proof. intros Hacc. simpl. rewrite Hacc. reflexivity. Qed.

Lemma call_gives_up o delay later n :
  retrying.should_reject r (fn o) = true ->
  retrying.stop_max_delay r <= delay ->
  retrying.call r fn ((o, delay) :: later) n = Some (fn o, n).
Proof.
  intros Hrej Hdelay. simpl. rewrite Hrej. simpl. unfold retrying.stop_after_delay.
  destruct (Z.leb_spec (retrying.stop_max_delay r) delay); [reflexivity | lia].
Qed.

Lemma call_accepts_after before : forall o delay later n,
  Forall (retrying.goes_on r fn) before ->
  retrying.should_reject r (fn o) = false ->
  retrying.call r fn (before ++ (o, delay) :: later) n
  = Some (fn o, (n + length before)%nat).
Proof.
  induction before as [|p before IH]; intros o delay later n Hbefore Hacc.
  - simpl app. rewrite call_accepts by assumption. simpl. do 2 f_equal. lia.
  - inversion Hbefore as [|? ? Hp Hrest]; subst.
    change ((p :: before) ++ (o, delay) :: later)
      with (p :: (before ++ (o, delay) :: later)).
    rewrite call_goes_on by assumption.
    rewrite IH by assumption. simpl. do 2 f_equal. lia.
Qed.

Lemma call_accepted_inv attempts : forall n res k,
  retrying.call r fn attempts n = Some (res, k) ->
  retrying.should_reject r res = false ->
  exists before o delay later,
    attempts = before ++ (o, delay) :: later
    /\ k = (n + length before)%nat
    /\ Forall (retrying.goes_on r fn) before
    /\ fn o = res.
Proof.
  induction attempts as [|[o delay] later IH]; intros n res k Hcall Hacc.
  - discriminate.
  - simpl in Hcall.
    destruct (retrying.should_reject r (fn o)) eqn:Hrej; simpl in Hcall.
    + destruct (retrying.stop_after_delay r delay) eqn:Hstop.
      * inversion Hcall; subst. congruence.
      * destruct (IH _ _ _ Hcall Hacc) as (before & o' & delay' & later' & -> & -> & Hb & Hfn).
        exists ((o, delay) :: before), o', delay', later'.
        repeat split; try assumption.
        -- simpl. lia.
        -- constructor; [|assumption]. split; [assumption|].
           unfold retrying.stop_after_delay in Hstop. simpl. lia.
    + inversion Hcall; subst.
      exists [], o, delay, later. repeat split; try constructor. simpl. lia.
Qed.

(** The loop returns a value at attempt [k] exactly when the first [k - 1]
    attempts were rejected with time left and the [k]-th returned it. *)
Lemma retry_returns_iff attempts a k :
  retrying.retry r fn attempts = Some (Ok a, k) <->
  exists before o delay later,
    attempts = before ++ (o, delay) :: later
    /\ k = S (length before)
    /\ Forall (retrying.goes_on r fn) before
    /\ fn o = Ok a.
Proof.
  unfold retrying.retry. split.
  - intros Hcall. apply call_accepted_inv in Hcall; [|reflexivity].
    destruct Hcall as (before & o & delay & later & ? & ? & ? & ?).
    exists before, o, delay, later. auto.
  - intros (before & o & delay & later & -> & -> & Hb & Hfn).
    rewrite call_accepts_after; [|assumption|rewrite Hfn; reflexivity].
    rewrite Hfn. reflexivity.
Qed.

End RetryLoop.

(** ** The wait on the reload of Kraken *)

Lemma wait_for_kraken_reload_once_unchanged last_data_loaded _response :
  get_last_coverage_loaded_time _response = last_data_loaded ->
  wait_for_kraken_reload_once last_data_loaded _response
  = Raise (RetryError "kraken data is not loaded").
Proof.
  intros <-. unfold wait_for_kraken_reload_once. rewrite String.eqb_refl. reflexivity.
Qed.

Lemma wait_for_kraken_reload_once_changed last_data_loaded _response :
  wait_for_kraken_reload_once last_data_loaded _response = Ok tt
  <-> get_last_coverage_loaded_time _response <> last_data_loaded.
Proof.
  unfold wait_for_kraken_reload_once.
  destruct (String.eqb_spec last_data_loaded (get_last_coverage_loaded_time _response));
    split; intros H; try congruence; try discriminate.
Qed.

Lemma kraken_reload_goes_on data_set last_data_loaded p :
  retrying.goes_on (data_set_retry data_set)
    (wait_for_kraken_reload_once last_data_loaded) p
  <-> get_last_coverage_loaded_time (fst p) = last_data_loaded
      /\ snd p < DataSet.reload_timeout data_set.
Proof.
  unfold retrying.goes_on. simpl. split; intros [H1 H2]; split; try assumption.
  - unfold wait_for_kraken_reload_once in H1.
    destruct (String.eqb_spec last_data_loaded (get_last_coverage_loaded_time (fst p)));
      [congruence | discriminate].
  - rewrite wait_for_kraken_reload_once_unchanged by assumption. reflexivity.
Qed.

(** C4.  The reload wait started with the baseline [t0] succeeds at poll
    number [k] exactly when each of the first [k - 1] polls observed [t0]
    (with time left to poll again) and poll [k] observed another timestamp;
    a poll that observes [t0] raises the retryable [RetryError]. *)
Theorem wait_for_kraken_reload_first_change (data_set : DataSet.t) (t0 : string) :
  (forall polls k,
      wait_for_kraken_reload data_set t0 polls = Some (Ok tt, k) <->
      exists before observed delay later,
        polls = before ++ (observed, delay) :: later
        /\ k = S (length before)
        /\ Forall (fun p => get_last_coverage_loaded_time (fst p) = t0
                           /\ snd p < DataSet.reload_timeout data_set) before
        /\ get_last_coverage_loaded_time observed <> t0)
  /\ (forall observed,
        get_last_coverage_loaded_time observed = t0 ->
        exists msg,
          wait_for_kraken_reload_once t0 observed = Raise (RetryError msg)
          /\ utils.is_retry_exception (RetryError msg) = true).
Proof.
  split.
  - intros polls k. unfold wait_for_kraken_reload. rewrite retry_returns_iff.
    split; intros (before & o & delay & later & Hpolls & Hk & Hb & Ho);
      exists before, o, delay, later; repeat split; try assumption.
    + eapply List.Forall_impl; [|exact Hb]. intros p Hp.
      apply kraken_reload_goes_on in Hp. exact Hp.
    + apply wait_for_kraken_reload_once_changed. assumption.
    + eapply List.Forall_impl; [|exact Hb]. intros p Hp.
      apply kraken_reload_goes_on. exact Hp.
    + apply wait_for_kraken_reload_once_changed. assumption.
  - intros observed Hsame. eexists. split; [|reflexivity].
    apply wait_for_kraken_reload_once_unchanged. assumption.
Qed.

(** Two polls still see the load of 08:00, the third sees a new one. *)
Lemma wait_for_kraken_reload_first_change_witness :
  wait_for_kraken_reload Demo.fr_idf "20200101T080000"
    [ (Demo.loaded_at "20200101T080000", 40);
      (Demo.loaded_at "20200101T080000", 1050);
      (Demo.loaded_at "20200101T091500", 2060);
      (Demo.loaded_at "20200101T091500", 3070) ]
  = Some (Ok tt, 3%nat).
Proof.
  apply (proj1 (wait_for_kraken_reload_first_change Demo.fr_idf "20200101T080000")).
  exists [ (Demo.loaded_at "20200101T080000", 40);
           (Demo.loaded_at "20200101T080000", 1050) ],
    (Demo.loaded_at "20200101T091500"), 2060,
    [ (Demo.loaded_at "20200101T091500", 3070) ].
  repeat split.
  - repeat constructor.
  - simpl. discriminate.
Defined.

(** ** The wait on the jobs of Tyr *)

Lemma entry_outcome_done data_type job dataset :
  entry_outcome data_type job dataset = Ok tt <-> JobDataSet.state dataset = "done".
Proof.
  unfold entry_outcome.
  destruct (String.eqb_spec (JobDataSet.state dataset) "done") as [Hd|Hd].
  - tauto.
  - destruct (negb _); split; intros H; try discriminate; contradiction.
Qed.

(** A failed entry is fatal: the exception is not one that the decorator
    retries. *)
Lemma entry_outcome_failed data_type job dataset :
  JobDataSet.state dataset = "failed" ->
  entry_outcome data_type job dataset
  = Raise (Exception
      ("Dataset '" +:+ data_type +:+ "' in state '" +:+ Job.state job +:+ "'"))
  /\ utils.is_retry_exception
       (Exception
          ("Dataset '" +:+ data_type +:+ "' in state '" +:+ Job.state job +:+ "'"))
     = false.
Proof.
  intros Hf. unfold entry_outcome. rewrite Hf. split; reflexivity.
Qed.

(** Any state other than "done" and "failed" is retried. *)
Lemma entry_outcome_in_process data_type job dataset :
  JobDataSet.state dataset <> "done" ->
  JobDataSet.state dataset <> "failed" ->
  entry_outcome data_type job dataset
  = Raise (RetryError
      ("Job with dataset '" +:+ data_type +:+ "' still in process ("
         +:+ Job.state job +:+ ")")).
Proof.
  intros Hd Hf. unfold entry_outcome.
  destruct (String.eqb_spec (JobDataSet.state dataset) "done"); [contradiction|].
  destruct (String.eqb_spec (JobDataSet.state dataset) "failed"); [contradiction|].
  reflexivity.
Qed.

Lemma scan_data_sets_first data_type job data_sets :
  scan_data_sets data_type job data_sets
  = match List.filter (fun e => String.eqb data_type (JobDataSet.type e)) data_sets with
    | [] => None
    | dataset :: _ => Some (entry_outcome data_type job dataset)
    end.
Proof.
  induction data_sets as [|dataset rest IH]; [reflexivity|].
  simpl. destruct (String.eqb data_type (JobDataSet.type dataset)); [reflexivity|exact IH].
Qed.

(** One scan of the answer is decided by the first entry of the requested
    type among the jobs created after the time limit; without such an entry
    the scan asks for a retry. *)
Lemma scan_jobs_first_fresh data_type time_limit jobs_resp :
  scan_jobs data_type time_limit jobs_resp
  = match fresh_entries data_type time_limit jobs_resp with
    | [] =>
        Raise (RetryError ("Job with dataset '" +:+ data_type +:+ "' not yet created "))
    | (job, dataset) :: _ => entry_outcome data_type job dataset
    end.
Proof.
  induction jobs_resp as [|job rest IH]; [reflexivity|].
  unfold fresh_entries in *. simpl.
  destruct (Job.created_at job >? time_limit); [|exact IH].
  rewrite scan_data_sets_first.
  destruct (List.filter _ (Job.data_sets job)) as [|dataset others]; [exact IH|reflexivity].
Qed.

Lemma in_fresh_entries data_type time_limit jobs job dataset :
  In (job, dataset) (fresh_entries data_type time_limit jobs) <->
  In job jobs /\ time_limit < Job.created_at job
  /\ In dataset (Job.data_sets job) /\ JobDataSet.type dataset = data_type.
Proof.
  unfold fresh_entries. rewrite in_flat_map. split.
  - intros (j & Hj & Hin).
    destruct (Z.gtb_spec (Job.created_at j) time_limit) as [Hgt|Hle]; [|destruct Hin].
    apply in_map_iff in Hin. destruct Hin as (e & Heq & He).
    inversion Heq; subst. apply filter_In in He. destruct He as [He Ht].
    apply String.eqb_eq in Ht. repeat split; auto.
  - intros (Hj & Hgt & He & Ht). exists job. split; [assumption|].
    destruct (Z.gtb_spec (Job.created_at job) time_limit) as [_|Hle]; [|lia].
    apply in_map_iff. exists dataset. split; [reflexivity|].
    apply filter_In. split; [assumption|]. apply String.eqb_eq. auto.
Qed.

(** Jobs that are not newer than the time limit play no part in a scan. *)
Lemma scan_jobs_ignores_stale data_type time_limit jobs_resp :
  scan_jobs data_type time_limit jobs_resp
  = scan_jobs data_type time_limit
      (List.filter (fun job => Job.created_at job >? time_limit) jobs_resp).
Proof.
  induction jobs_resp as [|job rest IH]; [reflexivity|].
  simpl. destruct (Job.created_at job >? time_limit) eqn:Hfresh; [|exact IH].
  simpl. rewrite Hfresh.
  destruct (scan_data_sets data_type job (Job.data_sets job)); [reflexivity|exact IH].
Qed.

Lemma wait_for_data_processing_once_ok data_type time_limit r :
  wait_for_data_processing_once data_type time_limit r = Ok tt <->
  Http.raise_for_status r = Ok tt
  /\ exists job dataset rest,
       fresh_entries data_type time_limit (Http.body r) = (job, dataset) :: rest
       /\ JobDataSet.state dataset = "done".
Proof.
  unfold wait_for_data_processing_once. rewrite scan_jobs_first_fresh.
  destruct (Http.raise_for_status r) as [[]|e].
  - destruct (fresh_entries data_type time_limit (Http.body r)) as [|[job dataset] rest].
    + split; [discriminate|]. intros (_ & j & d & l & Hnil & _). discriminate.
    + rewrite entry_outcome_done. split.
      * intros Hd. split; [reflexivity|]. exists job, dataset, rest. auto.
      * intros (_ & j & d & l & Heq & Hd). inversion Heq; subst. exact Hd.
  - split; [discriminate|]. intros [H _]. discriminate.
Qed.

Lemma data_processing_goes_on data_set data_type time_limit p :
  retrying.goes_on (data_set_retry data_set)
    (wait_for_data_processing_once data_type time_limit) p
  <-> (exists msg,
         wait_for_data_processing_once data_type time_limit (fst p)
         = Raise (RetryError msg))
      /\ snd p < DataSet.reload_timeout data_set.
Proof.
  unfold retrying.goes_on. simpl. split; intros [H1 H2]; split; try assumption.
  - destruct (wait_for_data_processing_once data_type time_limit (fst p)) as [|e];
      [discriminate|].
    destruct e; try discriminate. eexists. reflexivity.
  - destruct H1 as [msg ->]. reflexivity.
Qed.

(** C2, as the code has it.  The job-state wait succeeds at poll number [k]
    exactly when each of the first [k - 1] polls asked for a retry (with
    time left to poll again) and poll [k] returned.  A poll returns exactly
    when the answer is not an HTTP error and the first entry of type [d]
    among the jobs created strictly after [t0], in the order of the answer,
    has state "done".  Only jobs created strictly after [t0] are looked at:
    a scan gives what it gives on the answer without the other jobs, so a
    job with [created_at <= t0] never makes the wait succeed. *)
Theorem wait_for_data_processing_first_fresh_entry
    (data_set : DataSet.t) (d : string) (t0 : Z) :
  (forall polls k,
      wait_for_data_processing data_set d t0 polls = Some (Ok tt, k) <->
      exists before r delay later,
        polls = before ++ (r, delay) :: later
        /\ k = S (length before)
        /\ Forall (fun p =>
                     (exists msg,
                        wait_for_data_processing_once d t0 (fst p)
                        = Raise (RetryError msg))
                     /\ snd p < DataSet.reload_timeout data_set) before
        /\ wait_for_data_processing_once d t0 r = Ok tt)
  /\ (forall r,
        wait_for_data_processing_once d t0 r = Ok tt <->
        Http.raise_for_status r = Ok tt
        /\ exists job dataset rest,
             fresh_entries d t0 (Http.body r) = (job, dataset) :: rest
             /\ JobDataSet.state dataset = "done")
  /\ (forall jobs job dataset,
        In (job, dataset) (fresh_entries d t0 jobs) <->
        In job jobs /\ t0 < Job.created_at job
        /\ In dataset (Job.data_sets job) /\ JobDataSet.type dataset = d)
  /\ (forall jobs,
        scan_jobs d t0 jobs
        = scan_jobs d t0 (List.filter (fun job => Job.created_at job >? t0) jobs)).
Proof.
  split; [|split; [|split]]; [| | |apply scan_jobs_ignores_stale].
  - intros polls k. unfold wait_for_data_processing. rewrite retry_returns_iff.
    split; intros (before & o & delay & later & Hpolls & Hk & Hb & Ho);
      exists before, o, delay, later; repeat split; try assumption;
      (eapply List.Forall_impl; [|exact Hb]); intros p Hp;
      apply data_processing_goes_on; exact Hp.
  - intros r. apply wait_for_data_processing_once_ok.
  - intros jobs job dataset. apply in_fresh_entries.
Qed.

(** No job yet, then a job in process, then the job done. *)
Lemma wait_for_data_processing_first_fresh_entry_witness :
  wait_for_data_processing Demo.fr_idf "fusio" 100
    [ (Demo.answer [], 40);
      (Demo.answer [Demo.job 200 "running" [Demo.entry "fusio" "running"]], 1050);
      (Demo.answer Demo.done_only, 2060) ]
  = Some (Ok tt, 3%nat).
Proof.
  apply (proj1 (wait_for_data_processing_first_fresh_entry Demo.fr_idf "fusio" 100)).
  exists [ (Demo.answer [], 40);
           (Demo.answer [Demo.job 200 "running" [Demo.entry "fusio" "running"]], 1050) ],
    (Demo.answer Demo.done_only), 2060, [].
  split; [reflexivity|]. split; [reflexivity|]. split; [|reflexivity].
  constructor; [split; [eexists; reflexivity | reflexivity]|].
  constructor; [split; [eexists; reflexivity | reflexivity]|].
  constructor.
Defined.

(** C2 as stated fails.  The answer holds a job created after the time
    limit whose entry of the requested type is "done", and the poll does not
    succeed: a job in process listed before it makes the poll ask for a
    retry (the wait then succeeds one poll later, on another answer), and a
    failed job listed before it makes the wait fail at once. *)
Lemma done_entry_behind_another_does_not_succeed :
  has_done_entry "fusio" 100 Demo.running_then_done = true
  /\ wait_for_data_processing_once "fusio" 100 (Demo.answer Demo.running_then_done)
     = Raise (RetryError "Job with dataset 'fusio' still in process (running)")
  /\ wait_for_data_processing Demo.fr_idf "fusio" 100
       [ (Demo.answer Demo.running_then_done, 40);
         (Demo.answer Demo.done_only, 1050) ]
     = Some (Ok tt, 2%nat)
  /\ has_done_entry "fusio" 100 Demo.failed_then_done = true
  /\ wait_for_data_processing Demo.fr_idf "fusio" 100
       [ (Demo.answer Demo.failed_then_done, 40);
         (Demo.answer Demo.done_only, 1050) ]
     = Some (Raise (Exception "Dataset 'fusio' in state 'failed'"), 1%nat).
Proof. repeat split. Qed.

(** C3, at the failing input.  The entry of type "fusio" is in state
    "failed" while its job is in state "running": the wait fails at the
    first poll, and the error names the state of the job. *)
Lemma failed_entry_error_names_job_state :
  wait_for_data_processing Demo.fr_idf "fusio" 100
    [ (Demo.answer Demo.failed_in_running_job, 40) ]
  = Some (Raise (Exception "Dataset 'fusio' in state 'running'"), 1%nat).
Proof. reflexivity. Qed.

(** ** The wait on the instances configurator *)

Lemma next_none {X} (p : X -> bool) (l : list X) :
  next p l = None <-> Forall (fun x => p x = false) l.
Proof.
  induction l as [|x rest IH]; simpl.
  - split; [constructor|reflexivity].
  - destruct (p x) eqn:Hp.
    + split; [discriminate|]. intros H. inversion H; congruence.
    + rewrite IH. split; [constructor; assumption|]. intros H. inversion H; assumption.
Qed.

Lemma next_some {X} (p : X -> bool) (l : list X) (x : X) :
  next p l = Some x ->
  exists before after,
    l = before ++ x :: after /\ p x = true /\ Forall (fun y => p y = false) before.
Proof.
  induction l as [|y rest IH]; simpl; [discriminate|].
  destruct (p y) eqn:Hp.
  - intros [= ->]. exists [], rest. repeat split; [assumption|constructor].
  - intros H. destruct (IH H) as (before & after & -> & Hx & Hb).
    exists (y :: before), after. repeat split; [assumption|constructor; assumption].
Qed.

(** C9.  One poll of the container-status wait looks at the first
    container of the compose list whose name contains
    "instances_configurator".  When there is none, the wait prints that
    none was found and returns at that poll.  When the container has the
    expected status the wait returns; with any other status the poll raises
    an exception that the decorator retries: with time left the loop polls
    again, and it gives up with that exception once [stop_max_delay] is
    reached. *)
Theorem wait_for_instance_configuration_status_cases
    (status : string) (all_containers_list : list Container.t)
    (delay : Z) (later : list (list Container.t * Z)) :
  (Forall (fun x => str_in "instances_configurator" (Container.name x) = false)
     (get_compose_containers_list all_containers_list) ->
   wait_for_instance_configuration_status status ((all_containers_list, delay) :: later)
   = Some (Ok ["No 'instances_configurator' container found"], 1%nat))
  /\ (forall c,
        next (fun x => str_in "instances_configurator" (Container.name x))
          (get_compose_containers_list all_containers_list) = Some c ->
        (Container.status c = status ->
         wait_for_instance_configuration_status status
           ((all_containers_list, delay) :: later)
         = Some (Ok [], 1%nat))
        /\ (Container.status c <> status ->
            exists msg,
              wait_for_instance_configuration_status_once status all_containers_list
              = Raise (Exception msg)
              /\ retrying.retry_on_exception instance_configuration_retry (Exception msg)
                 = true
              /\ (delay < 2000000 ->
                  wait_for_instance_configuration_status status
                    ((all_containers_list, delay) :: later)
                  = retrying.call instance_configuration_retry
                      (wait_for_instance_configuration_status_once status) later 2%nat)
              /\ (2000000 <= delay ->
                  wait_for_instance_configuration_status status
                    ((all_containers_list, delay) :: later)
                  = Some (Raise (Exception msg), 1%nat)))).
Proof.
  unfold wait_for_instance_configuration_status, retrying.retry. split.
  - intros Hnone. apply next_none in Hnone.
    rewrite call_accepts; unfold wait_for_instance_configuration_status_once;
      rewrite Hnone; reflexivity.
  - intros c Hc. split.
    + intros Hsame.
      rewrite call_accepts; unfold wait_for_instance_configuration_status_once;
        rewrite Hc, Hsame, String.eqb_refl; reflexivity.
    + intros Hdiff.
      assert (Honce : wait_for_instance_configuration_status_once status all_containers_list
                      = Raise (Exception ("instances_configurator status: "
                                            +:+ Container.status c
                                            +:+ " - Expected: " +:+ status))).
      { unfold wait_for_instance_configuration_status_once. rewrite Hc.
        destruct (String.eqb_spec (Container.status c) status); [contradiction|reflexivity]. }
      eexists. split; [exact Honce|]. split; [reflexivity|]. split.
      * intros Hdelay. apply call_goes_on. unfold retrying.goes_on. cbn [fst snd].
        split; [rewrite Honce; reflexivity|exact Hdelay].
      * intros Hdelay. rewrite call_gives_up; [rewrite Honce; reflexivity| |exact Hdelay].
        rewrite Honce. reflexivity.
Qed.

(** No configurator in the fleet; a configurator already running; a
    configurator still "created" at the first poll and running at the
    second. *)
Lemma wait_for_instance_configuration_status_cases_witness :
  wait_for_instance_configuration_status "running"
    [ ([Demo.container "navitia_kraken-fr-idf_1" "running"], 30) ]
  = Some (Ok ["No 'instances_configurator' container found"], 1%nat)
  /\ wait_for_instance_configuration_status "running"
       [ ([Demo.container "navitia_instances_configurator_1" "running"], 30) ]
     = Some (Ok [], 1%nat)
  /\ wait_for_instance_configuration_status "running"
       [ ([Demo.container "navitia_instances_configurator_1" "created"], 30);
         ([Demo.container "navitia_instances_configurator_1" "running"], 2040) ]
     = Some (Ok [], 2%nat).
Proof.
  split; [|split].
  - apply (proj1 (wait_for_instance_configuration_status_cases "running"
                    [Demo.container "navitia_kraken-fr-idf_1" "running"] 30 [])).
    repeat constructor.
  - apply (proj2 (wait_for_instance_configuration_status_cases "running"
                    [Demo.container "navitia_instances_configurator_1" "running"] 30 [])
             (Demo.container "navitia_instances_configurator_1" "running"));
      reflexivity.
  - destruct (proj2 (wait_for_instance_configuration_status_cases "running"
                       [Demo.container "navitia_instances_configurator_1" "created"] 30
                       [ ([Demo.container "navitia_instances_configurator_1" "running"],
                          2040) ])
                (Demo.container "navitia_instances_configurator_1" "created")
                eq_refl) as [_ Hdiff].
    destruct Hdiff as (msg & _ & _ & Hagain & _); [discriminate|].
    rewrite Hagain; reflexivity.
Defined.

(** ** Loading each dataset once *)

Lemma name_in_In (name : string) (l : list string) :
  name_in name l = true <-> In name l.
Proof.
  unfold name_in. rewrite existsb_exists. split.
  - intros (x & Hx & Heq). apply String.eqb_eq in Heq. subst. assumption.
  - intros H. exists name. split; [assumption|apply String.eqb_refl].
Qed.

Section ManageDataFacts.

Variable W : Type.
Variable update_instance_db : string -> M W unit.
Variable remove_data_by_dataset : DataSet.t -> M W unit.
Variable update_data_by_dataset : DataSet.t -> M W unit.
Variable check_values : string -> M W unit.

Local Abbreviation loop :=
  (manage_data_loop W update_instance_db remove_data_by_dataset
     update_data_by_dataset check_values).
Local Abbreviation pipeline :=
  (load_pipeline W update_instance_db remove_data_by_dataset
     update_data_by_dataset check_values).

Lemma manage_data_loop_skips data_set rest fx :
  name_in (DataSet.name data_set) (dataset_binarized fx) = true ->
  loop (data_set :: rest) fx = loop rest fx.
Proof.
  intros Hin. unfold loop. simpl. unfold bind at 1, gets. rewrite Hin. reflexivity.
Qed.

Lemma manage_data_loop_loads data_set rest fx :
  name_in (DataSet.name data_set) (dataset_binarized fx) = false ->
  loop (data_set :: rest) fx
  = match pipeline data_set (backend fx) with
    | (Ok _, w) =>
        loop rest
          {| dataset_binarized := dataset_binarized fx ++ [DataSet.name data_set];
             backend := w |}
    | (Raise e, w) =>
        (Raise e, {| dataset_binarized := dataset_binarized fx; backend := w |})
    end.
Proof.
  intros Hin. unfold loop, pipeline, load_pipeline. simpl.
  unfold bind at 1, gets. rewrite Hin.
  unfold bind, on_backend, append_binarized, modify. simpl.
  destruct (update_instance_db (DataSet.name data_set) (backend fx)) as [[[]|e1] w1];
    simpl; [|reflexivity].
  destruct (remove_data_by_dataset data_set w1) as [[[]|e2] w2]; simpl; [|reflexivity].
  destruct (update_data_by_dataset data_set w2) as [[[]|e3] w3]; simpl; [|reflexivity].
  destruct (check_values (DataSet.name data_set) w3) as [[[]|e4] w4]; simpl; reflexivity.
Qed.

Lemma manage_data_loop_all_loaded data_sets : forall fx,
  (forall d, In d data_sets -> In (DataSet.name d) (dataset_binarized fx)) ->
  loop data_sets fx = (Ok tt, fx).
Proof.
  induction data_sets as [|d rest IH]; intros fx Hall; [reflexivity|].
  rewrite manage_data_loop_skips.
  - apply IH. intros d' Hd'. apply Hall. right. assumption.
  - apply name_in_In. apply Hall. left. reflexivity.
Qed.

Lemma manage_data_loop_marks data_sets : forall fx fx',
  loop data_sets fx = (Ok tt, fx') ->
  (exists added, dataset_binarized fx' = dataset_binarized fx ++ added)
  /\ (forall d, In d data_sets -> In (DataSet.name d) (dataset_binarized fx')).
Proof.
  induction data_sets as [|d rest IH]; intros fx fx' Hrun.
  - inversion Hrun; subst. split; [exists []; symmetry; apply app_nil_r|].
    intros d [].
  - destruct (name_in (DataSet.name d) (dataset_binarized fx)) eqn:Hin.
    + rewrite manage_data_loop_skips in Hrun by assumption.
      destruct (IH _ _ Hrun) as [[added Hadded] Hrest]. split; [exists added; assumption|].
      intros d' [<-|Hd']; [|apply Hrest; assumption].
      rewrite Hadded. apply in_or_app. left. apply name_in_In. assumption.
    + rewrite manage_data_loop_loads in Hrun by assumption.
      destruct (pipeline d (backend fx)) as [[[]|e] w]; [|discriminate].
      destruct (IH _ _ Hrun) as [[added Hadded] Hrest]. simpl in Hadded. split.
      * exists ([DataSet.name d] ++ added). rewrite Hadded. symmetry. apply app_assoc.
      * intros d' [<-|Hd']; [|apply Hrest; assumption].
        rewrite Hadded. apply in_or_app. left. apply in_or_app. right. left. reflexivity.
Qed.

(** C8.  [manage_data] loads a dataset only when its name is not yet in
    [dataset_binarized]: for a dataset whose name is in the list the state
    is left as it is and the run goes on with the datasets that follow, and
    a run over datasets that are all in the list does nothing at all; a
    dataset whose name is not in the list goes through the four steps, in
    their order, whatever datasets follow it: when they have all returned
    its name is appended and the run goes on with the datasets that follow,
    and when one of them raises the run ends with that exception, the list
    as it was.  After a run that returned, every dataset of the class is in
    the list, the names that were in it are still there, and running again
    does nothing.  With [skip_bina] nothing is run. *)
Theorem manage_data_loads_each_dataset_once (data_sets : list DataSet.t)
    (fx : Fixture W) :
  let run := manage_data W update_instance_db remove_data_by_dataset
               update_data_by_dataset check_values in
  ((forall d, In d data_sets -> In (DataSet.name d) (dataset_binarized fx)) ->
   run false data_sets fx = (Ok tt, fx))
  /\ (forall d rest,
        In (DataSet.name d) (dataset_binarized fx) ->
        run false (d :: rest) fx = run false rest fx)
  /\ (forall d rest,
        ~ In (DataSet.name d) (dataset_binarized fx) ->
        run false (d :: rest) fx
        = match (update_instance_db (DataSet.name d) ;;;
                 remove_data_by_dataset d ;;;
                 update_data_by_dataset d ;;;
                 check_values (DataSet.name d)) (backend fx) with
          | (Ok _, w) =>
              run false rest
                {| dataset_binarized := dataset_binarized fx ++ [DataSet.name d];
                   backend := w |}
          | (Raise e, w) =>
              (Raise e, {| dataset_binarized := dataset_binarized fx; backend := w |})
          end)
  /\ (forall fx',
        run false data_sets fx = (Ok tt, fx') ->
        (forall d, In d data_sets -> In (DataSet.name d) (dataset_binarized fx'))
        /\ (exists added, dataset_binarized fx' = dataset_binarized fx ++ added)
        /\ run false data_sets fx' = (Ok tt, fx'))
  /\ run true data_sets fx = (Ok tt, fx).
Proof.
  intros run. unfold run, manage_data. fold loop. repeat split.
  - apply manage_data_loop_all_loaded.
  - intros d rest Hin. apply manage_data_loop_skips. apply name_in_In. assumption.
  - intros d rest Hnot. rewrite manage_data_loop_loads.
    + reflexivity.
    + destruct (name_in (DataSet.name d) (dataset_binarized fx)) eqn:Hin; [|reflexivity].
      apply name_in_In in Hin. contradiction.
  - apply (manage_data_loop_marks _ _ _ H).
  - apply (manage_data_loop_marks _ _ _ H).
  - apply manage_data_loop_all_loaded. apply (manage_data_loop_marks _ _ _ H).
Qed.

End ManageDataFacts.

(** "fr-idf", "fr-bre" and "fr-idf" again: the first run loads "fr-idf"
    and then "fr-bre", each through its four steps and once, and the second
    run does nothing. *)
Lemma manage_data_loads_each_dataset_once_witness :
  Demo.logged_manage_data false [Demo.fr_idf; Outage.fr_bre; Demo.fr_idf]
    {| dataset_binarized := []; backend := [] |}
  = (Ok tt,
     {| dataset_binarized := ["fr-idf"; "fr-bre"];
        backend := [ "update_instance_db fr-idf"; "remove_data_by_dataset fr-idf";
                     "update_data_by_dataset fr-idf"; "check_values fr-idf";
                     "update_instance_db fr-bre"; "remove_data_by_dataset fr-bre";
                     "update_data_by_dataset fr-bre"; "check_values fr-bre" ] |})
  /\ Demo.logged_manage_data false [Demo.fr_idf; Outage.fr_bre; Demo.fr_idf]
       {| dataset_binarized := ["fr-idf"; "fr-bre"];
          backend := [ "update_instance_db fr-idf"; "remove_data_by_dataset fr-idf";
                       "update_data_by_dataset fr-idf"; "check_values fr-idf";
                       "update_instance_db fr-bre"; "remove_data_by_dataset fr-bre";
                       "update_data_by_dataset fr-bre"; "check_values fr-bre" ] |}
     = (Ok tt,
        {| dataset_binarized := ["fr-idf"; "fr-bre"];
           backend := [ "update_instance_db fr-idf"; "remove_data_by_dataset fr-idf";
                        "update_data_by_dataset fr-idf"; "check_values fr-idf";
                        "update_instance_db fr-bre"; "remove_data_by_dataset fr-bre";
                        "update_data_by_dataset fr-bre"; "check_values fr-bre" ] |}).
Proof.
  split.
  - refine (eq_trans
              (proj1 (proj2 (proj2
                 (manage_data_loads_each_dataset_once (list string)
                    (Demo.logged "update_instance_db")
                    (fun data_set =>
                       Demo.logged "remove_data_by_dataset" (DataSet.name data_set))
                    (fun data_set =>
                       Demo.logged "update_data_by_dataset" (DataSet.name data_set))
                    (Demo.logged "check_values")
                    [Demo.fr_idf; Outage.fr_bre; Demo.fr_idf]
                    {| dataset_binarized := []; backend := [] |})))
                 Demo.fr_idf [Outage.fr_bre; Demo.fr_idf] _) _).
    + intros [].
    + reflexivity.
  - apply (proj1 (manage_data_loads_each_dataset_once (list string)
                    (Demo.logged "update_instance_db")
                    (fun data_set =>
                       Demo.logged "remove_data_by_dataset" (DataSet.name data_set))
                    (fun data_set =>
                       Demo.logged "update_data_by_dataset" (DataSet.name data_set))
                    (Demo.logged "check_values")
                    [Demo.fr_idf; Outage.fr_bre; Demo.fr_idf]
                    {| dataset_binarized := ["fr-idf"; "fr-bre"];
                       backend := [ "update_instance_db fr-idf";
                                    "remove_data_by_dataset fr-idf";
                                    "update_data_by_dataset fr-idf";
                                    "check_values fr-idf";
                                    "update_instance_db fr-bre";
                                    "remove_data_by_dataset fr-bre";
                                    "update_data_by_dataset fr-bre";
                                    "check_values fr-bre" ] |})).
    intros d [<-|[<-|[<-|[]]]]; simpl; auto.
Defined.

(** ** Staging the input data *)

Section StageInputFacts.

Context {config : Config}.
Variable data_tree : gmap string (list (string * string)).
Variable all_containers : list Container.t.
Variable data_set : DataSet.t.
Variable tyr_worker : Container.t.
Hypothesis first_tyr_worker : first_item (containers all_containers) = Ok tyr_worker.

Lemma put_data_absent data_type file_suffix zipped st :
  data_tree !! category_path data_set data_type = None ->
  put_data data_tree all_containers data_set data_type file_suffix zipped st
  = (Ok false, st).
Proof.
  intros Hnone. unfold put_data, data_path. fold (category_path data_set data_type).
  rewrite Hnone. reflexivity.
Qed.

Lemma put_data_present data_type dataset_type file_suffix zipped st c :
  staged_categories data_tree data_set [(data_type, dataset_type, file_suffix, zipped)]
  = [c] ->
  put_data data_tree all_containers data_set data_type file_suffix zipped st
  = (Ok true,
     {| written := write_category data_set (written st) c;
        pushed := pushed st
                  ++ [(Container.name tyr_worker, input_path data_set, category_tar c)] |}).
Proof.
  unfold staged_categories, put_data, data_path. simpl.
  fold (category_path data_set data_type).
  destruct (data_tree !! category_path data_set data_type) as [listing|];
    simpl; [|discriminate].
  intros [= <-]. unfold write_category, category_tar, category_zip_path. simpl.
  unfold bind, write_archive, read_archive, put_archive, modify, lift, ret.
  destruct zipped; simpl;
    repeat first [rewrite lookup_insert_eq | rewrite first_tyr_worker | progress simpl];
    reflexivity.
Qed.

Lemma stage_all_staged todo : forall dataset_types_to_process st,
  stage_all data_tree all_containers data_set todo dataset_types_to_process st
  = (Ok (dataset_types_to_process
           ++ List.map staged_dataset_type (staged_categories data_tree data_set todo)),
     {| written :=
          fold_left (write_category data_set)
            (staged_categories data_tree data_set todo) (written st);
        pushed :=
          pushed st
          ++ List.map
               (fun c => (Container.name tyr_worker, input_path data_set, category_tar c))
               (staged_categories data_tree data_set todo) |}).
Proof.
  induction todo as [|[[[data_type dataset_type] file_ext] is_zipped] rest IH];
    intros acc st.
  - simpl. rewrite !app_nil_r. destruct st; reflexivity.
  - simpl stage_all. unfold bind at 1.
    destruct (staged_categories data_tree data_set
                [(data_type, dataset_type, file_ext, is_zipped)]) as [|c l] eqn:Hone.
    + assert (Hnone : data_tree !! category_path data_set data_type = None).
      { unfold staged_categories in Hone. simpl in Hone.
        destruct (data_tree !! category_path data_set data_type); [discriminate|reflexivity]. }
      rewrite put_data_absent by assumption. rewrite IH.
      unfold staged_categories. simpl. rewrite Hnone. reflexivity.
    + assert (Hl : l = []).
      { unfold staged_categories in Hone. simpl in Hone.
        destruct (data_tree !! category_path data_set data_type); simpl in Hone;
          [inversion Hone; reflexivity|discriminate]. }
      subst l. rewrite (put_data_present _ _ _ _ _ _ Hone). rewrite IH.
      assert (Hcons : staged_categories data_tree data_set
                        ((data_type, dataset_type, file_ext, is_zipped) :: rest)
                      = c :: staged_categories data_tree data_set rest).
      { unfold staged_categories in *. simpl in *.
        destruct (data_tree !! category_path data_set data_type); simpl in *;
          [inversion Hone; reflexivity|discriminate]. }
      rewrite Hcons. simpl. rewrite <- !app_assoc. simpl.
      assert (Ht : staged_dataset_type c = dataset_type).
      { unfold staged_categories in Hone. simpl in Hone.
        destruct (data_tree !! category_path data_set data_type); simpl in Hone;
          [inversion Hone; reflexivity|discriminate]. }
      rewrite Ht. reflexivity.
Qed.

(** C7.  Staging goes through the table in its order: fusio, osm,
    fusio-poi, geopal, fusio-geopal, with the dataset types fusio, osm, poi,
    geopal, geopal, and every category zipped but osm.  A category whose
    directory does not exist is skipped: the call changes nothing and
    records nothing.  For the categories whose directory exists, in that
    order, the files that end with the extension are archived in
    [./{category}.tar] (inside one zip named [{category}.zip], or as they
    are for osm), the tar is pushed to the first [tyr_worker] container
    at the input path of the dataset, and the dataset type is recorded; the
    list returned is the one the job-state waits go through. *)
Theorem stage_and_push_input_staged (st : Staging) :
  List.map (fun entry => (fst (fst (fst entry)), snd (fst (fst entry)), snd entry))
    data_to_process
  = [ ("fusio", "fusio", true); ("osm", "osm", false); ("fusio-poi", "poi", true);
      ("geopal", "geopal", true); ("fusio-geopal", "geopal", true) ]
  /\ stage_and_push_input data_tree all_containers data_set st
     = (Ok (List.map staged_dataset_type
              (staged_categories data_tree data_set data_to_process)),
        {| written :=
             fold_left (write_category data_set)
               (staged_categories data_tree data_set data_to_process) (written st);
           pushed :=
             pushed st
             ++ List.map
                  (fun c =>
                     (Container.name tyr_worker, input_path data_set, category_tar c))
                  (staged_categories data_tree data_set data_to_process) |})
  /\ (forall data_type file_suffix zipped st',
        data_tree !! category_path data_set data_type = None ->
        put_data data_tree all_containers data_set data_type file_suffix zipped st'
        = (Ok false, st')).
Proof.
  split; [reflexivity|]. split.
  - unfold stage_and_push_input. rewrite stage_all_staged. reflexivity.
  - intros. apply put_data_absent. assumption.
Qed.

End StageInputFacts.

(** The dataset "fr-idf" with a "fusio" directory that holds [a.txt]:
    [fusio.tar], with [fusio.zip] inside, is pushed to the worker, and the
    dataset type "fusio" is recorded. *)
Lemma stage_and_push_input_staged_witness :
  stage_and_push_input (config := Demo.config) Demo.data_tree Demo.fleet Demo.fr_idf
    {| written := ∅; pushed := [] |}
  = (Ok ["fusio"],
     {| written :=
          <["./fusio.tar" :=
              TarFile [("fusio.zip", ZipFile [("a.txt", Data "stops")])]]>
            (<["/artemis/data/fr-idf/fusio/fr-idf_fusio.zip" :=
                 ZipFile [("a.txt", Data "stops")]]> ∅);
        pushed :=
          [ ("navitia_tyr_worker_1", "/srv/ed/input/fr-idf",
             TarFile [("fusio.zip", ZipFile [("a.txt", Data "stops")])]) ] |}).
Proof.
  exact (proj1 (proj2 (stage_and_push_input_staged (config := Demo.config)
                         Demo.data_tree Demo.fleet Demo.fr_idf
                         (Demo.container "navitia_tyr_worker_1" "running") eq_refl
                         {| written := ∅; pushed := [] |}))).
Defined.

(** ** The query string of [journey] *)

Lemma append_assoc_string (a b c : string) : (a +:+ b) +:+ c = a +:+ (b +:+ c).
Proof.
  induction a as [|x a IH]; [reflexivity|].
  change (String x ((a +:+ b) +:+ c) = String x (a +:+ (b +:+ c))). f_equal. exact IH.
Qed.

Lemma has_char_append c a b : has_char c (a +:+ b) = has_char c a || has_char c b.
Proof.
  induction a as [|x a IH]; [reflexivity|].
  change (has_char c (String x (a +:+ b)) = has_char c (String x a) || has_char c b).
  simpl. rewrite IH. apply orb_assoc.
Qed.

Lemma split_on_not_nil sep s : split_on sep s <> [].
Proof.
  destruct s as [|c s]; simpl; [discriminate|].
  destruct (Ascii.eqb c sep); [discriminate|].
  destruct (split_on sep s); discriminate.
Qed.

Lemma split_on_append sep a b :
  split_on sep (a +:+ String sep b) = split_on sep a ++ split_on sep b.
Proof.
  induction a as [|c a IH].
  - change (split_on sep (String sep b) = [EmptyString] ++ split_on sep b).
    simpl. rewrite Ascii.eqb_refl. reflexivity.
  - change (split_on sep (String c (a +:+ String sep b))
            = split_on sep (String c a) ++ split_on sep b).
    simpl. destruct (Ascii.eqb c sep).
    + rewrite IH. reflexivity.
    + rewrite IH. pose proof (split_on_not_nil sep a) as Hne.
      destruct (split_on sep a); [contradiction|reflexivity].
Qed.

Lemma split_on_plain sep s : has_char sep s = false -> split_on sep s = [s].
Proof.
  induction s as [|c s IH]; simpl; [reflexivity|].
  destruct (Ascii.eqb c sep); simpl; [discriminate|].
  intros H. rewrite (IH H). reflexivity.
Qed.

Lemma cut_at_append sep k v :
  has_char sep k = false -> cut_at sep (k +:+ String sep v) = (k, v).
Proof.
  induction k as [|c k IH].
  - intros _. change (cut_at sep (String sep v) = (EmptyString, v)).
    simpl. rewrite Ascii.eqb_refl. reflexivity.
  - change (has_char sep (String c k) = false ->
            cut_at sep (String c (k +:+ String sep v)) = (String c k, v)).
    simpl. destruct (Ascii.eqb c sep); simpl; [discriminate|].
    intros H. rewrite (IH H). reflexivity.
Qed.

Lemma plain_name_spec k :
  plain_name k = true <-> has_char "&" k = false /\ has_char "=" k = false.
Proof.
  unfold plain_name. rewrite andb_true_iff, !negb_true_iff. reflexivity.
Qed.

Lemma query_params_one k v :
  plain_name k = true -> plain_text v = true ->
  query_params (k +:+ String "=" v) = [(k, v)].
Proof.
  intros Hk Hv. apply plain_name_spec in Hk. destruct Hk as [Hk1 Hk2].
  apply negb_true_iff in Hv. unfold query_params.
  rewrite split_on_plain.
  - simpl. rewrite cut_at_append by assumption. reflexivity.
  - rewrite has_char_append. simpl. rewrite Hk1, Hv. reflexivity.
Qed.

Lemma query_params_snoc q k v :
  plain_name k = true -> plain_text v = true ->
  query_params (q +:+ String "&" (k +:+ String "=" v)) = query_params q ++ [(k, v)].
Proof.
  intros Hk Hv. unfold query_params at 1. rewrite split_on_append, map_app.
  fold (query_params q). fold (query_params (k +:+ String "=" v)).
  rewrite query_params_one by assumption. reflexivity.
Qed.

Lemma query_params_add_each key xs : forall q,
  plain_name key = true -> forallb plain_text xs = true ->
  query_params (add_each key xs q) = query_params q ++ List.map (pair key) xs.
Proof.
  induction xs as [|x xs IH]; intros q Hkey Hxs.
  - simpl. rewrite app_nil_r. reflexivity.
  - simpl in Hxs. apply andb_true_iff in Hxs. destruct Hxs as [Hx Hxs].
    unfold add_each in *. simpl. rewrite IH by assumption.
    change (q +:+ "&" +:+ key +:+ "=" +:+ x) with (q +:+ String "&" (key +:+ String "=" x)).
    rewrite query_params_snoc by assumption. rewrite <- app_assoc. reflexivity.
Qed.

Lemma query_params_add_kwargs kwargs : forall q,
  forallb (fun kv => plain_name (fst kv) && plain_text (snd kv)) kwargs = true ->
  query_params (add_kwargs kwargs q) = query_params q ++ kwargs.
Proof.
  induction kwargs as [|[k v] kwargs IH]; intros q Hkw.
  - simpl. rewrite app_nil_r. reflexivity.
  - simpl in Hkw. apply andb_true_iff in Hkw. destruct Hkw as [Hkv Hkw].
    apply andb_true_iff in Hkv. destruct Hkv as [Hk Hv].
    unfold add_kwargs in *. simpl. rewrite IH by assumption.
    change (q +:+ "&" +:+ k +:+ "=" +:+ v) with (q +:+ String "&" (k +:+ String "=" v)).
    rewrite query_params_snoc by assumption. rewrite <- app_assoc. reflexivity.
Qed.

Lemma query_params_base _from to datetime datetime_represents :
  plain_text _from = true -> plain_text to = true -> plain_text datetime = true ->
  plain_text datetime_represents = true ->
  query_params ("from=" +:+ _from +:+ "&to=" +:+ to +:+ "&datetime=" +:+ datetime
                  +:+ "&datetime_represents=" +:+ datetime_represents)
  = [ ("from", _from); ("to", to); ("datetime", datetime);
      ("datetime_represents", datetime_represents) ].
Proof.
  intros Hf Ht Hd Hr.
  replace ("from=" +:+ _from +:+ "&to=" +:+ to +:+ "&datetime=" +:+ datetime
             +:+ "&datetime_represents=" +:+ datetime_represents)
    with (((("from" +:+ String "=" _from)
              +:+ String "&" ("to" +:+ String "=" to))
             +:+ String "&" ("datetime" +:+ String "=" datetime))
            +:+ String "&" ("datetime_represents" +:+ String "=" datetime_represents)).
  - rewrite !query_params_snoc by (assumption || reflexivity).
    rewrite query_params_one by (assumption || reflexivity). reflexivity.
  - rewrite !append_assoc_string. reflexivity.
Qed.

Lemma overridden_scenario_cases scenario :
  (In scenario ["distributed"; "experimental"; "asgard"] ->
   overridden_scenario scenario = "distributed")
  /\ (~ In scenario ["distributed"; "experimental"; "asgard"] ->
      overridden_scenario scenario = "new_default").
Proof.
  unfold overridden_scenario.
  destruct (name_in scenario ["distributed"; "experimental"; "asgard"]) eqn:Hin.
  - split; [reflexivity|]. intros Hnot. apply name_in_In in Hin. contradiction.
  - split; [|reflexivity]. intros H. apply name_in_In in H. congruence.
Qed.

Lemma params_named_pairs target key xs :
  String.eqb key target = false ->
  List.filter (fun kv : string * string => String.eqb (fst kv) target)
    (List.map (pair key) xs) = [].
Proof.
  intros Hne. induction xs as [|x xs IH]; [reflexivity|].
  simpl. rewrite Hne. exact IH.
Qed.

Lemma params_named_absent target (kwargs : list (string * string)) :
  ~ In target (List.map fst kwargs) ->
  List.filter (fun kv : string * string => String.eqb (fst kv) target) kwargs = [].
Proof.
  induction kwargs as [|[k v] kwargs IH]; intros Hnot; [reflexivity|].
  simpl in *. destruct (String.eqb_spec k target) as [->|Hne].
  - exfalso. apply Hnot. left. reflexivity.
  - apply IH. intros Hin. apply Hnot. right. assumption.
Qed.

Section JourneyFacts.

Context {config : Config}.
Variable str_data_set : DataSet.t -> string.

(** C10, as the code has it.  A call of [journey] with a non-empty
    [datetime] builds a query string that ends with
    [&_override_scenario=v&_current_datetime=datetime], where [v] is
    "distributed" when the scenario of the first dataset is one of
    distributed, experimental, asgard, and "new_default" otherwise.  When
    the texts passed by the caller do not interfere with the syntax of the
    query string, its parameters are those of the call, in order, followed
    by these two; the only parameter named [_override_scenario] is then the
    one [journey] adds, unless a keyword argument has that name. *)
Theorem journey_query_scenario_and_datetime
    (data_set0 : DataSet.t) (others : list DataSet.t)
    (_from to datetime datetime_represents : string)
    (first_section_mode last_section_mode forbidden_uris direct_path_mode : list string)
    (kwargs : list (string * string)) :
  datetime <> "" ->
  exists query head,
    journey_query (data_set0 :: others) _from to datetime datetime_represents
      first_section_mode last_section_mode forbidden_uris direct_path_mode kwargs
    = Ok query
    /\ journey_http_query str_data_set (data_set0 :: others) _from to datetime
         datetime_represents first_section_mode last_section_mode forbidden_uris
         direct_path_mode kwargs
       = Ok (URL_JORMUN +:+ "/v1/coverage/" +:+ str_data_set data_set0
               +:+ "/journeys?" +:+ query)
    /\ query
       = head +:+ "&_override_scenario="
           +:+ overridden_scenario (DataSet.scenario data_set0)
           +:+ "&_current_datetime=" +:+ datetime
    /\ (In (DataSet.scenario data_set0) ["distributed"; "experimental"; "asgard"] ->
        overridden_scenario (DataSet.scenario data_set0) = "distributed")
    /\ (~ In (DataSet.scenario data_set0) ["distributed"; "experimental"; "asgard"] ->
        overridden_scenario (DataSet.scenario data_set0) = "new_default")
    /\ (plain_arguments _from to datetime datetime_represents first_section_mode
          last_section_mode forbidden_uris direct_path_mode kwargs = true ->
        query_params query
        = [ ("from", _from); ("to", to); ("datetime", datetime);
            ("datetime_represents", datetime_represents) ]
          ++ List.map (pair "first_section_mode[]") first_section_mode
          ++ List.map (pair "last_section_mode[]") last_section_mode
          ++ List.map (pair "direct_path_mode[]") direct_path_mode
          ++ List.map (pair "forbidden_uris[]") forbidden_uris
          ++ kwargs
          ++ [ ("_override_scenario", overridden_scenario (DataSet.scenario data_set0));
               ("_current_datetime", datetime) ]
        /\ In ("_current_datetime", datetime) (query_params query)
        /\ (~ In "_override_scenario" (List.map fst kwargs) ->
            params_named "_override_scenario" query
            = [ ("_override_scenario",
                 overridden_scenario (DataSet.scenario data_set0)) ])).
Proof.
  intros Hdatetime.
  set (ov := overridden_scenario (DataSet.scenario data_set0)).
  set (base := "from=" +:+ _from +:+ "&to=" +:+ to +:+ "&datetime=" +:+ datetime
                 +:+ "&datetime_represents=" +:+ datetime_represents).
  set (head :=
         add_kwargs kwargs
           (add_each "forbidden_uris[]" forbidden_uris
              (add_each "direct_path_mode[]" direct_path_mode
                 (add_each "last_section_mode[]" last_section_mode
                    (add_each "first_section_mode[]" first_section_mode base))))).
  assert (Hquery :
            journey_query (data_set0 :: others) _from to datetime datetime_represents
              first_section_mode last_section_mode forbidden_uris direct_path_mode kwargs
            = Ok ((head +:+ "&_override_scenario=" +:+ ov)
                    +:+ "&_current_datetime=" +:+ datetime)).
  { unfold journey_query.
    destruct (String.eqb_spec datetime ""); [contradiction|reflexivity]. }
  exists ((head +:+ "&_override_scenario=" +:+ ov) +:+ "&_current_datetime=" +:+ datetime),
    head.
  split; [exact Hquery|]. split.
  { unfold journey_http_query. rewrite Hquery. reflexivity. }
  split.
  { rewrite !append_assoc_string. reflexivity. }
  split; [apply overridden_scenario_cases|]. split; [apply overridden_scenario_cases|].
  intros Hplain. unfold plain_arguments in Hplain.
  repeat (apply andb_true_iff in Hplain; destruct Hplain as [Hplain ?]).
  assert (Hov : plain_text ov = true).
  { unfold ov, overridden_scenario. destruct (name_in _ _); reflexivity. }
  assert (Hparams :
            query_params ((head +:+ "&_override_scenario=" +:+ ov)
                            +:+ "&_current_datetime=" +:+ datetime)
            = [ ("from", _from); ("to", to); ("datetime", datetime);
                ("datetime_represents", datetime_represents) ]
              ++ List.map (pair "first_section_mode[]") first_section_mode
              ++ List.map (pair "last_section_mode[]") last_section_mode
              ++ List.map (pair "direct_path_mode[]") direct_path_mode
              ++ List.map (pair "forbidden_uris[]") forbidden_uris
              ++ kwargs
              ++ [ ("_override_scenario", ov); ("_current_datetime", datetime) ]).
  { change ((head +:+ "&_override_scenario=" +:+ ov) +:+ "&_current_datetime=" +:+ datetime)
      with ((head +:+ String "&" ("_override_scenario" +:+ String "=" ov))
              +:+ String "&" ("_current_datetime" +:+ String "=" datetime)).
    rewrite !query_params_snoc by (assumption || reflexivity).
    unfold head. rewrite query_params_add_kwargs by assumption.
    rewrite !query_params_add_each by (assumption || reflexivity).
    unfold base. rewrite query_params_base by assumption.
    rewrite <- !app_assoc. reflexivity. }
  split; [exact Hparams|]. split.
  { rewrite Hparams. rewrite !in_app_iff. do 6 right. right. left. reflexivity. }
  intros Hnot. unfold params_named. rewrite Hparams.
  rewrite !List.filter_app.
  rewrite !params_named_pairs by reflexivity.
  rewrite (params_named_absent _ _ Hnot). reflexivity.
Qed.

End JourneyFacts.

(** A journey request for "fr-idf", whose scenario is "new_default". *)
Lemma journey_query_scenario_and_datetime_witness :
  exists query,
    journey_http_query (config := Demo.config) DataSet.name [Demo.fr_idf]
      "stop_area:A" "stop_area:B" "20200101T080000" "departure"
      ["walking"; "bike"] [] [] [] [("max_duration_to_pt", "900")]
    = Ok ("http://navitia.io/v1/coverage/fr-idf/journeys?" +:+ query)
    /\ params_named "_override_scenario" query = [("_override_scenario", "new_default")]
    /\ In ("_current_datetime", "20200101T080000") (query_params query).
Proof.
  destruct (journey_query_scenario_and_datetime (config := Demo.config) DataSet.name
              Demo.fr_idf [] "stop_area:A" "stop_area:B" "20200101T080000" "departure"
              ["walking"; "bike"] [] [] [] [("max_duration_to_pt", "900")])
    as (query & head & _ & Hurl & _ & _ & _ & Hplain); [discriminate|].
  destruct (Hplain eq_refl) as (_ & Hdatetime & Hone).
  exists query. split; [exact Hurl|]. split; [|exact Hdatetime].
  apply Hone. simpl. intros [H|[]]. discriminate.
Defined.

(** C10 as stated fails.  A keyword argument named [_override_scenario]
    goes into the query string like any other, before the parameter that
    [journey] adds: the URL then carries two parameters of that name. *)
Lemma journey_kwargs_repeat_override_scenario :
  journey_query [Demo.fr_idf] "A" "B" "20200101T080000" "departure" [] [] [] []
    [("_override_scenario", "experimental")]
  = Ok "from=A&to=B&datetime=20200101T080000&datetime_represents=departure&_override_scenario=experimental&_override_scenario=new_default&_current_datetime=20200101T080000"
  /\ params_named "_override_scenario"
       "from=A&to=B&datetime=20200101T080000&datetime_represents=departure&_override_scenario=experimental&_override_scenario=new_default&_current_datetime=20200101T080000"
     = [ ("_override_scenario", "experimental"); ("_override_scenario", "new_default") ].
Proof. split; reflexivity. Qed.

(** ** Reference files *)

Lemma length_append_string (a b : string) :
  String.length (a +:+ b) = (String.length a + String.length b)%nat.
Proof.
  induction a as [|c a IH]; [reflexivity|].
  change (S (String.length (a +:+ b)) = S (String.length a + String.length b)).
  f_equal. exact IH.
Qed.

Lemma prefix_slash_append (p s : string) :
  String.prefix "/" p = false -> String.prefix "/" s = false ->
  String.prefix "/" (p +:+ s) = false.
Proof.
  destruct p as [|c p]; intros Hp Hs; [exact Hs|].
  change (String.prefix "/" (String c p))
    with (if ascii_dec "/" c then String.prefix "" p else false) in Hp.
  change (String.prefix "/" (String c p +:+ s))
    with (if ascii_dec "/" c then String.prefix "" (p +:+ s) else false).
  destruct (ascii_dec "/" c); [|reflexivity].
  destruct p; simpl in Hp; discriminate.
Qed.

(** Joining a relative name puts it after the directory, with a slash
    between them unless the directory is empty or ends with one. *)
Lemma os_path_join_relative (a : string) :
  exists sep, forall b,
    String.prefix "/" b = false -> os_path_join a b = a +:+ sep +:+ b.
Proof.
  unfold os_path_join.
  destruct (String.eqb a "" || str_endswith a "/").
  - exists "". intros b ->. reflexivity.
  - exists "/". intros b ->. reflexivity.
Qed.

Lemma os_path_join_not_directory (a b : string) :
  String.prefix "/" b = false -> b <> "" -> os_path_join a b <> a.
Proof.
  intros Hrel Hne Heq. destruct (os_path_join_relative a) as [sep Hjoin].
  rewrite (Hjoin b Hrel) in Heq. apply (f_equal String.length) in Heq.
  rewrite !length_append_string in Heq. destruct b; [contradiction|]. simpl in Heq. lia.
Qed.

Lemma os_path_join_artifacts_differ (a p : string) :
  String.prefix "/" p = false ->
  os_path_join a (p +:+ "_resp.json") <> os_path_join a (p +:+ "_ref.json").
Proof.
  intros Hrel Heq. destruct (os_path_join_relative a) as [sep Hjoin].
  rewrite !Hjoin in Heq by (apply prefix_slash_append; [assumption|reflexivity]).
  apply (inj (String.append a)) in Heq. apply (inj (String.append sep)) in Heq.
  apply (inj (String.append p)) in Heq. discriminate.
Qed.

Lemma artifact_name_relative (p s : string) :
  String.prefix "/" p = false -> String.prefix "/" s = false -> s <> "" ->
  String.prefix "/" (p +:+ s) = false /\ p +:+ s <> "".
Proof.
  intros Hp Hs Hne. split; [apply prefix_slash_append; assumption|].
  intros Heq. apply (f_equal String.length) in Heq.
  rewrite length_append_string in Heq. destruct s; [contradiction|]. simpl in Heq. lia.
Qed.

Lemma write_reference_file_writes (path text : string) (d : Disk) :
  files d !! path <> Some Dir ->
  write_reference_file path text d
  = (Ok tt, {| files := <[path := File text]> (files d); report := report d |}).
Proof.
  intros Hnot. unfold write_reference_file.
  destruct (files d !! path) as [[t|]|]; try reflexivity. contradiction.
Qed.

Section ReferenceFacts.

Context {config : Config} {ujson : Ujson} {helpers : Helpers}.
Variable self : TestCall.




(** C1, as the code has it.  A reference that [create_reference] has just
    written holds, under "response", [order_response] of the filter of the
    decoded response text and, under "full_response", the decoding of the
    response text in which the host of [URL_JORMUN] is replaced by
    "localhost".  When that replacement leaves the response text as it is,
    "response" is [order_response] of the filter of "full_response". *)
Theorem created_reference_fields
    (http_query response_string : string) (response_checker : Checker.t) (d d' : Disk) :
  create_reference self http_query response_string response_checker d = (Ok tt, d') ->
  exists parsed full_response doc,
    loads response_string = Ok parsed
    /\ loads (str_replace response_string (str_drop 7 URL_JORMUN) "localhost")
       = Ok full_response
    /\ files d' !! get_reference_file_path self = Some (File (dumps doc))
    /\ getitem doc "response"
       = Ok (order_response (Checker.filter response_checker parsed))
    /\ getitem doc "full_response" = Ok full_response
    /\ (str_replace response_string (str_drop 7 URL_JORMUN) "localhost" = response_string ->
        getitem doc "response"
        = Ok (order_response (Checker.filter response_checker full_response))).
Proof.
  unfold create_reference, bind, gets.
  destruct (os_path_isfile (get_reference_file_path self) d); [discriminate|].
  unfold write_full_response_to_file, bind, lift, reference_text.
  destruct (loads response_string) as [parsed|e] eqn:Hparsed; [|discriminate].
  destruct (loads (str_replace response_string (str_drop 7 URL_JORMUN) "localhost"))
    as [full_response|e] eqn:Hfull; [|discriminate].
  unfold write_reference_file.
  destruct (files d !! get_reference_file_path self) as [[t|]|] eqn:Hat;
    intros Hrun; inversion Hrun; subst; clear Hrun;
    (eexists parsed, full_response, _; split; [reflexivity|]; split; [reflexivity|];
     split; [simpl; apply lookup_insert_eq|]; split; [reflexivity|];
     split; [reflexivity|]; intros Hsame; rewrite Hsame in Hfull;
     rewrite Hparsed in Hfull; inversion Hfull; reflexivity).
Qed.

End ReferenceFacts.

(** *** The directories above a path *)

Lemma append_empty_r (s : string) : s +:+ "" = s.
Proof.
  induction s as [|c s IH]; [reflexivity|].
  change (String c (s +:+ "") = String c s). f_equal. exact IH.
Qed.

Lemma dirs_above_from_app (a : string) : forall seen b,
  dirs_above_from seen (a +:+ b)
  = dirs_above_from seen a ++ dirs_above_from (seen +:+ a) b.
Proof.
  induction a as [|c a IH]; intros seen b.
  - change ("" +:+ b) with b. rewrite append_empty_r. reflexivity.
  - change (String c a +:+ b) with (String c (a +:+ b)). cbn [dirs_above_from].
    rewrite IH, <- app_assoc. do 2 f_equal.
    rewrite append_assoc_string. reflexivity.
Qed.

Lemma dirs_above_from_plain (n : string) : forall seen,
  has_char "/" n = false -> dirs_above_from seen n = [].
Proof.
  induction n as [|c n IH]; intros seen Hplain; [reflexivity|].
  cbn [has_char] in Hplain. apply orb_false_iff in Hplain. destruct Hplain as [Hc Hn].
  cbn [dirs_above_from]. rewrite Hc. simpl. apply IH. exact Hn.
Qed.

Lemma dirs_above_from_length (rest : string) : forall seen a,
  In a (dirs_above_from seen rest) ->
  (String.length seen <= String.length a < String.length seen + String.length rest)%nat.
Proof.
  induction rest as [|c rest IH]; intros seen a Hin; [destruct Hin|].
  cbn [dirs_above_from] in Hin. apply in_app_or in Hin. destruct Hin as [Hin|Hin].
  - destruct (_ && _); [|destruct Hin]. destruct Hin as [<-|[]]. simpl. lia.
  - apply IH in Hin. rewrite length_append_string in Hin. simpl in *. lia.
Qed.

Lemma dirs_above_shorter (path a : string) :
  In a (dirs_above path) -> (String.length a < String.length path)%nat.
Proof. intros Hin. apply dirs_above_from_length in Hin. simpl in Hin. lia. Qed.

Lemma has_char_prefix_slash (n : string) :
  has_char "/" n = false -> String.prefix "/" n = false.
Proof.
  destruct n as [|c n]; [reflexivity|]. intros Hplain.
  cbn [has_char] in Hplain. apply orb_false_iff in Hplain. destruct Hplain as [Hc _].
  change (String.prefix "/" (String c n))
    with (if ascii_dec "/" c then String.prefix "" n else false).
  destruct (ascii_dec "/" c) as [<-|]; [discriminate|reflexivity].
Qed.

(** A file named without a slash is in the directory it is joined to. *)
Lemma dirs_above_joined (out n : string) :
  has_char "/" n = false ->
  dirs_above (os_path_join out n)
  = if String.eqb out "" || str_endswith out "/" then dirs_above out
    else dirs_above out ++ [out].
Proof.
  intros Hplain. unfold os_path_join. rewrite (has_char_prefix_slash n Hplain).
  unfold dirs_above.
  destruct (String.eqb out "" || str_endswith out "/") eqn:Hend.
  - rewrite dirs_above_from_app. change ("" +:+ out) with out.
    rewrite (dirs_above_from_plain n) by exact Hplain. apply app_nil_r.
  - rewrite dirs_above_from_app. change ("" +:+ out) with out.
    change ("/" +:+ n) with (String "/" n). cbn [dirs_above_from].
    rewrite Hend. simpl. rewrite (dirs_above_from_plain n) by exact Hplain. reflexivity.
Qed.

Lemma dirs_above_joined_incl (out n a : string) :
  has_char "/" n = false ->
  In a (dirs_above (os_path_join out n)) -> In a (dirs_above out ++ [out]).
Proof.
  intros Hplain. rewrite (dirs_above_joined out n Hplain).
  destruct (_ || _); [|auto]. intros Hin. apply in_or_app. left. exact Hin.
Qed.

Lemma os_path_join_longer (out n : string) :
  String.prefix "/" n = false -> n <> "" ->
  (String.length out < String.length (os_path_join out n))%nat.
Proof.
  intros Hrel Hne. destruct (os_path_join_relative out) as [sep Hjoin].
  rewrite (Hjoin n Hrel), !length_append_string. destruct n; [contradiction|]. simpl. lia.
Qed.

(** An artifact is not one of the directories it is under. *)
Lemma artifact_not_directory (out n a : string) :
  has_char "/" n = false -> n <> "" ->
  In a (dirs_above out ++ [out]) -> a <> os_path_join out n.
Proof.
  intros Hplain Hne Hin ->.
  pose proof (os_path_join_longer out n (has_char_prefix_slash n Hplain) Hne) as Hlen.
  apply in_app_or in Hin. destruct Hin as [Hin|[Heq|[]]].
  - apply dirs_above_shorter in Hin. lia.
  - rewrite <- Heq in Hlen at 1. lia.
Qed.

Lemma prefix_empty (s : string) : String.prefix "" s = true.
Proof. destruct s; reflexivity. Qed.

(** The two artifacts of a test are two files. *)
Lemma artifacts_differ (a p : string) :
  os_path_join a (p +:+ "_resp.json") <> os_path_join a (p +:+ "_ref.json").
Proof.
  destruct (String.prefix "/" p) eqn:Hp.
  - destruct p as [|c p]; [discriminate|].
    change (String.prefix "/" (String c p))
      with (if ascii_dec "/" c then String.prefix "" p else false) in Hp.
    unfold os_path_join.
    change (String.prefix "/" (String c p +:+ "_resp.json"))
      with (if ascii_dec "/" c then String.prefix "" (p +:+ "_resp.json") else false).
    change (String.prefix "/" (String c p +:+ "_ref.json"))
      with (if ascii_dec "/" c then String.prefix "" (p +:+ "_ref.json") else false).
    destruct (ascii_dec "/" c); [|discriminate]. rewrite !prefix_empty.
    intros Heq. apply (inj (String.append (String c p))) in Heq. discriminate.
  - apply os_path_join_artifacts_differ. exact Hp.
Qed.

(** *** Making directories and opening files *)

Lemma resolve_ok (path : string) (d : Disk) (dirs : list string) :
  resolve dirs path d = Ok tt <-> Forall (fun a => files d !! a = Some Dir) dirs.
Proof.
  induction dirs as [|a below IH]; simpl.
  - split; [constructor|reflexivity].
  - destruct (files d !! a) as [[t|]|] eqn:Hat.
    + split; [discriminate|]. intros H. inversion H; subst. congruence.
    + rewrite IH. split; [intros H; constructor; assumption|].
      intros H. inversion H; subst. assumption.
    + split; [discriminate|]. intros H. inversion H; subst. congruence.
Qed.

Lemma resolve_raises (path : string) (d : Disk) (dirs : list string) (e : exn) :
  resolve dirs path d = Raise e ->
  e = NotADirectoryError path \/ e = FileNotFoundError path.
Proof.
  induction dirs as [|a below IH]; simpl; [discriminate|].
  destruct (files d !! a) as [[t|]|]; [intros [= <-]; auto|exact IH|intros [= <-]; auto].
Qed.

Lemma resolve_stops (path : string) (d : Disk) (dirs : list string) (a t : string) :
  In a dirs -> files d !! a = Some (File t) -> exists e, resolve dirs path d = Raise e.
Proof.
  induction dirs as [|b below IH]; intros Hin Hat; [destruct Hin|]. simpl.
  destruct Hin as [->|Hin].
  - rewrite Hat. eexists. reflexivity.
  - destruct (files d !! b) as [[u|]|]; [eexists; reflexivity|auto|eexists; reflexivity].
Qed.

(** [write_text] either writes the file at its path and nothing else, or
    raises an error of [open] and changes nothing. *)
Lemma write_text_cases (path text : string) (d : Disk) :
  (write_text path text d
   = (Ok tt, {| files := <[path := File text]> (files d); report := report d |})
   /\ Forall (fun a => files d !! a = Some Dir) (dirs_above path)
   /\ files d !! path <> Some Dir)
  \/ (exists e,
        write_text path text d = (Raise e, d)
        /\ (e = NotADirectoryError path \/ e = FileNotFoundError path
            \/ e = IsADirectoryError path)).
Proof.
  unfold write_text.
  destruct (resolve (dirs_above path) path d) as [[]|e] eqn:Hres.
  - unfold write_reference_file. destruct (files d !! path) as [[t|]|] eqn:Hat.
    + left. split; [reflexivity|]. split; [apply resolve_ok in Hres; exact Hres|discriminate].
    + right. eexists. split; [reflexivity|]. auto.
    + left. split; [reflexivity|]. split; [apply resolve_ok in Hres; exact Hres|discriminate].
  - right. exists e. split; [reflexivity|].
    destruct (resolve_raises _ _ _ _ Hres); auto.
Qed.

Lemma write_text_writes (path text : string) (d : Disk) :
  Forall (fun a => files d !! a = Some Dir) (dirs_above path) ->
  files d !! path <> Some Dir ->
  write_text path text d
  = (Ok tt, {| files := <[path := File text]> (files d); report := report d |}).
Proof.
  intros Hdirs Hfree. unfold write_text.
  rewrite (proj2 (resolve_ok path d (dirs_above path)) Hdirs).
  apply write_reference_file_writes. exact Hfree.
Qed.

(** What [make_dirs] does, whatever it meets: it makes directories only,
    where nothing was, at the paths it is given. *)
Lemma make_dirs_cases (name : string) (dirs : list string) : forall d,
  exists r d1,
    make_dirs dirs name d = (r, d1)
    /\ report d1 = report d
    /\ (forall p n, files d !! p = Some n -> files d1 !! p = Some n)
    /\ (forall p, ~ In p (dirs ++ [name]) -> files d1 !! p = files d !! p)
    /\ (r = Ok tt -> Forall (fun a => files d1 !! a = Some Dir) (dirs ++ [name]))
    /\ (forall e, r = Raise e ->
          exists q, e = NotADirectoryError q \/ e = FileExistsError q).
Proof.
  induction dirs as [|a below IH]; intros d.
  - simpl. unfold os_mkdir. destruct (files d !! name) as [n|] eqn:Hat.
    + exists (Raise (FileExistsError name)), d. split; [reflexivity|].
      split; [reflexivity|]. split; [auto|]. split; [auto|].
      split; [discriminate|]. intros e [= <-]. eauto.
    + eexists _, _. split; [reflexivity|]. cbn [files report].
      split; [reflexivity|]. split.
      { intros p n Hp. rewrite lookup_insert_ne by congruence. exact Hp. }
      split.
      { intros p Hp. apply lookup_insert_ne. intros ->. apply Hp. left. reflexivity. }
      split; [|discriminate]. intros _. constructor; [apply lookup_insert_eq|constructor].
  - cbn [make_dirs]. destruct (files d !! a) as [[t|]|] eqn:Hat.
    + eexists _, d. split; [reflexivity|]. split; [reflexivity|]. split; [auto|].
      split; [auto|]. split; [discriminate|]. intros e [= <-]. eauto.
    + destruct (IH d) as (r & d1 & Hrun & Hreport & Hkeeps & Hframe & Hmade & Herr).
      exists r, d1. split; [exact Hrun|]. split; [exact Hreport|].
      split; [exact Hkeeps|]. split.
      { intros p Hp. apply Hframe. intros Hin. apply Hp. right. exact Hin. }
      split; [|exact Herr]. intros Hr. simpl. constructor; [|apply Hmade; exact Hr].
      apply Hkeeps. exact Hat.
    + destruct (IH {| files := <[a := Dir]> (files d); report := report d |})
        as (r & d1 & Hrun & Hreport & Hkeeps & Hframe & Hmade & Herr).
      cbn [files report] in *.
      exists r, d1. split; [exact Hrun|]. split; [exact Hreport|]. split.
      { intros p n Hp. apply Hkeeps. rewrite lookup_insert_ne by congruence. exact Hp. }
      split.
      { intros p Hp. rewrite Hframe.
        - apply lookup_insert_ne. intros ->. apply Hp. left. reflexivity.
        - intros Hin. apply Hp. right. exact Hin. }
      split; [|exact Herr]. intros Hr. simpl. constructor; [|apply Hmade; exact Hr].
      apply Hkeeps. apply lookup_insert_eq.
Qed.

(** With no regular file on the way and nothing at [name], [make_dirs]
    returns. *)
Lemma make_dirs_returns (name : string) (dirs : list string) : forall d,
  ~ In name dirs ->
  files d !! name = None ->
  Forall (fun a => forall t, files d !! a <> Some (File t)) dirs ->
  fst (make_dirs dirs name d) = Ok tt.
Proof.
  induction dirs as [|a below IH]; intros d Hnot Hnone Hway.
  - simpl. unfold os_mkdir. rewrite Hnone. reflexivity.
  - inversion Hway as [|? ? Ha Hbelow]; subst. cbn [make_dirs].
    assert (Hne : name <> a) by (intros ->; apply Hnot; left; reflexivity).
    assert (Hnot' : ~ In name below) by (intros Hin; apply Hnot; right; exact Hin).
    destruct (files d !! a) as [[t|]|] eqn:Hat.
    + exfalso. apply (Ha t). reflexivity.
    + apply IH; assumption.
    + apply IH; [assumption| |].
      * cbn [files]. rewrite lookup_insert_ne by congruence. exact Hnone.
      * eapply List.Forall_impl; [|exact Hbelow]. cbn [files]. intros b Hb t.
        destruct (String.eqb_spec a b) as [->|Hab].
        -- rewrite lookup_insert_eq. discriminate.
        -- rewrite lookup_insert_ne by assumption. apply Hb.
Qed.

Section CompareFacts.

Context {config : Config} {ujson : Ujson} {helpers : Helpers}.
Variable self : TestCall.

Local Abbreviation output_dir :=
  (os_path_join RESPONSE_FILE_PATH (get_reference_suffix_path self)).
Local Abbreviation resp_path :=
  (os_path_join output_dir (get_reference_filename_prefix self +:+ "_resp.json")).
Local Abbreviation ref_path :=
  (os_path_join output_dir (get_reference_filename_prefix self +:+ "_ref.json")).

(** The step that makes sure of the output directory. *)
Lemma output_dir_step_cases (out : string) (d : Disk) :
  exists r d1,
    (if os_path_exists out d then (Ok tt, d) else os_makedirs out d) = (r, d1)
    /\ report d1 = report d
    /\ (forall p n, files d !! p = Some n -> files d1 !! p = Some n)
    /\ (forall p, ~ In p (dirs_above out ++ [out]) -> files d1 !! p = files d !! p)
    /\ (forall e, r = Raise e -> forall m, e <> AssertionError m)
    /\ (files d !! out = Some Dir -> r = Ok tt /\ d1 = d)
    /\ (forall t, files d !! out = Some (File t) -> r = Ok tt /\ d1 = d)
    /\ (files d !! out = None -> out <> "" ->
        Forall (fun a => forall t, files d !! a <> Some (File t)) (dirs_above out) ->
        r = Ok tt
        /\ Forall (fun a => files d1 !! a = Some Dir) (dirs_above out ++ [out])).
Proof.
  unfold os_path_exists.
  destruct (files d !! out) as [n|] eqn:Hat.
  - exists (Ok tt), d. split; [reflexivity|]. split; [reflexivity|]. split; [auto|].
    split; [auto|]. split; [discriminate|]. split; [auto|]. split; [auto|discriminate].
  - unfold os_makedirs. destruct (String.eqb_spec out "") as [->|Hne].
    + exists (Raise (FileNotFoundError "")), d. split; [reflexivity|].
      split; [reflexivity|]. split; [auto|]. split; [auto|].
      split; [intros e [= <-] m; discriminate|]. split; [discriminate|].
      split; [discriminate|]. intros _ Habs. contradiction.
    + destruct (make_dirs_cases out (dirs_above out) d)
        as (r & d1 & Hrun & Hreport & Hkeeps & Hframe & Hmade & Herr).
      exists r, d1. split; [exact Hrun|]. split; [exact Hreport|].
      split; [exact Hkeeps|]. split; [exact Hframe|]. split.
      { intros e He m ->. destruct (Herr _ He) as [q [Hq|Hq]]; discriminate. }
      split; [discriminate|]. split; [discriminate|]. intros _ _ Hway.
      assert (Hr : r = Ok tt).
      { pose proof (make_dirs_returns out (dirs_above out) d) as Hret.
        rewrite Hrun in Hret. apply Hret; [|exact Hat|exact Hway].
        intros Hin. apply dirs_above_shorter in Hin. lia. }
      split; [exact Hr|apply Hmade; exact Hr].
Qed.

(** The mismatch, step by step. *)
Lemma compare_with_ref_mismatch_steps
    (http_query response_string : string) (response_checker : Checker.t) (d : Disk)
    (resp_dict ref_dict reference_full_response doc : json)
    (raw_reference msg : string) :
  loads response_string = Ok resp_dict ->
  files d !! get_reference_file_path self = Some (File raw_reference) ->
  loads raw_reference = Ok ref_dict ->
  getitem ref_dict "full_response" = Ok reference_full_response ->
  Checker.compare response_checker
    (Checker.filter response_checker resp_dict)
    (Checker.filter response_checker reference_full_response)
  = Raise (AssertionError msg) ->
  reference_text http_query response_string response_checker = Ok doc ->
  compare_with_ref self http_query response_string response_checker d
  = match (if os_path_exists output_dir d then (Ok tt, d)
           else os_makedirs output_dir d) with
    | (Raise e, d1) => (Raise e, d1)
    | (Ok _, d1) =>
        match write_text resp_path (dumps doc) d1 with
        | (Raise e, d2) => (Raise e, d2)
        | (Ok _, d2) =>
            match write_text ref_path raw_reference d2 with
            | (Raise e, d3) => (Raise e, d3)
            | (Ok _, d3) =>
                (Raise (AssertionError msg),
                 {| files := files d3;
                    report :=
                      report d3
                      ++ (if PY3
                          then [ (get_test_name self, http_query,
                                  journeys_diff
                                    (Checker.filter response_checker
                                       reference_full_response)
                                    (Checker.filter response_checker resp_dict)) ]
                          else []) |})
            end
        end
    end.
Proof.
  intros Hresp Href Hraw Hfull Hcompare Hdoc.
  unfold compare_with_ref.
  unfold bind at 1, lift. rewrite Hresp.
  unfold bind at 1, gets, os_path_isfile. rewrite Href. cbn [negb].
  unfold bind at 1, read_text. rewrite Href.
  unfold bind at 1, lift. rewrite Hraw.
  unfold bind at 1, lift. rewrite Hfull.
  rewrite Hcompare.
  unfold bind at 1, gets.
  assert (Hstep :
            ((if negb (os_path_exists output_dir d) then os_makedirs output_dir
              else ret tt) d)
            = (if os_path_exists output_dir d then (Ok tt, d)
               else os_makedirs output_dir d))
    by (destruct (os_path_exists output_dir d); reflexivity).
  unfold bind at 1. rewrite Hstep. clear Hstep.
  destruct (if os_path_exists output_dir d then (Ok tt, d)
            else os_makedirs output_dir d) as [[[]|e1] d1]; [|reflexivity].
  unfold bind at 1, write_full_response_to_file. unfold bind at 1, lift. rewrite Hdoc.
  destruct (write_text resp_path (dumps doc) d1) as [[[]|e2] d2]; [|reflexivity].
  unfold bind at 1.
  destruct (write_text ref_path raw_reference d2) as [[[]|e3] d3]; [|reflexivity].
  unfold bind, add_to_report, modify, ret, raise.
  destruct PY3; cbn [files report]; [reflexivity|].
  rewrite app_nil_r. destruct d3; reflexivity.
Qed.

(** C6, as the code has it.  In compare mode, when the checker's
    comparison of the filtered response with the filtered reference raises
    [AssertionError] and the live response still decodes once the host is
    replaced, [compare_with_ref] never returns, and the [AssertionError]
    reaches the caller only after both artifacts are written: the
    reference-format document of the live response (query, ordered filtered
    response, full response with the host replaced) at [{prefix}_resp.json],
    the text of the reference file as it is at [{prefix}_ref.json], and the
    entry of the report.  It does reach the caller when the file name prefix
    has no slash, neither artifact path holds a directory, and the output
    directory of the test either is there under its directories or is
    missing with no regular file on the way to it: the directory and the
    missing ones above it are then made.  With a regular file at the path
    of the output directory, [open] fails, nothing is written and the
    [AssertionError] does not reach the caller. *)
Theorem compare_with_ref_mismatch_artifacts
    (http_query response_string : string) (response_checker : Checker.t) (d : Disk)
    (resp_dict ref_dict reference_full_response doc : json)
    (raw_reference msg : string) :
  let output_dir_path :=
    os_path_join RESPONSE_FILE_PATH (get_reference_suffix_path self) in
  let response_filepath :=
    os_path_join output_dir_path (get_reference_filename_prefix self +:+ "_resp.json") in
  let output_reference_filepath :=
    os_path_join output_dir_path (get_reference_filename_prefix self +:+ "_ref.json") in
  let entry :=
    if PY3
    then [ (get_test_name self, http_query,
            journeys_diff
              (Checker.filter response_checker reference_full_response)
              (Checker.filter response_checker resp_dict)) ]
    else [] in
  loads response_string = Ok resp_dict ->
  files d !! get_reference_file_path self = Some (File raw_reference) ->
  loads raw_reference = Ok ref_dict ->
  getitem ref_dict "full_response" = Ok reference_full_response ->
  Checker.compare response_checker
    (Checker.filter response_checker resp_dict)
    (Checker.filter response_checker reference_full_response)
  = Raise (AssertionError msg) ->
  reference_text http_query response_string response_checker = Ok doc ->
  (forall r d',
      compare_with_ref self http_query response_string response_checker d = (r, d') ->
      (exists e, r = Raise e)
      /\ (forall m, r = Raise (AssertionError m) ->
            m = msg
            /\ files d' !! response_filepath = Some (File (dumps doc))
            /\ files d' !! output_reference_filepath = Some (File raw_reference)
            /\ report d' = report d ++ entry))
  /\ (has_char "/" (get_reference_filename_prefix self) = false ->
      files d !! response_filepath <> Some Dir ->
      files d !! output_reference_filepath <> Some Dir ->
      Forall (fun a => files d !! a = Some Dir) (dirs_above output_dir_path ++ [output_dir_path])
      \/ (files d !! output_dir_path = None
          /\ output_dir_path <> ""
          /\ Forall (fun a => forall t, files d !! a <> Some (File t))
               (dirs_above output_dir_path)) ->
      exists d',
        compare_with_ref self http_query response_string response_checker d
        = (Raise (AssertionError msg), d')
        /\ Forall (fun a => files d' !! a = Some Dir)
             (dirs_above output_dir_path ++ [output_dir_path])
        /\ files d' !! response_filepath = Some (File (dumps doc))
        /\ files d' !! output_reference_filepath = Some (File raw_reference)
        /\ report d' = report d ++ entry)
  /\ (forall t,
        files d !! output_dir_path = Some (File t) ->
        has_char "/" (get_reference_filename_prefix self) = false ->
        String.eqb output_dir_path "" || str_endswith output_dir_path "/" = false ->
        exists e,
          compare_with_ref self http_query response_string response_checker d
          = (Raise e, d)
          /\ (e = NotADirectoryError response_filepath
              \/ e = FileNotFoundError response_filepath)).
Proof.
  intros output_dir_path response_filepath output_reference_filepath entry
    Hresp Href Hraw Hfull Hcompare Hdoc.
  rewrite (compare_with_ref_mismatch_steps _ _ _ _ _ _ _ _ _ _
             Hresp Href Hraw Hfull Hcompare Hdoc).
  fold output_dir_path. fold response_filepath. fold output_reference_filepath. fold entry.
  assert (Hdiffer : response_filepath <> output_reference_filepath)
    by apply artifacts_differ.
  destruct (output_dir_step_cases output_dir_path d)
    as (r1 & d1 & Hstep & Hreport1 & Hkeeps1 & Hframe1 & Herr1 & Hdir1 & Hfile1 & Hmade1).
  rewrite Hstep.
  split; [|split].
  - (* the [AssertionError] comes after the artifacts *)
    intros r d' Hrun. destruct r1 as [[]|e1].
    2:{ inversion Hrun; subst. split; [eauto|]. intros m [= ->].
        exfalso. apply (Herr1 _ eq_refl m). reflexivity. }
    destruct (write_text_cases response_filepath (dumps doc) d1)
      as [(Hw2 & _ & _)|(e2 & Hw2 & He2)]; rewrite Hw2 in Hrun.
    2:{ inversion Hrun; subst. split; [eauto|]. intros m [= ->].
        destruct He2 as [He2|[He2|He2]]; discriminate. }
    match type of Hrun with
    | context [write_text output_reference_filepath raw_reference ?d2] =>
        destruct (write_text_cases output_reference_filepath raw_reference d2)
          as [(Hw3 & _ & _)|(e3 & Hw3 & He3)]; rewrite Hw3 in Hrun
    end.
    2:{ inversion Hrun; subst. split; [eauto|]. intros m [= ->].
        destruct He3 as [He3|[He3|He3]]; discriminate. }
    inversion Hrun; subst. split; [eauto|]. intros m [= <-].
    split; [reflexivity|]. cbn [files report].
    split; [rewrite lookup_insert_ne by congruence; apply lookup_insert_eq|].
    split; [apply lookup_insert_eq|]. rewrite Hreport1. reflexivity.
  - (* it reaches the caller *)
    intros Hplain Hresp_free Href_free Hway.
    assert (Hname : forall s, has_char "/" s = false -> s <> "" ->
                      has_char "/" (get_reference_filename_prefix self +:+ s) = false
                      /\ get_reference_filename_prefix self +:+ s <> "").
    { intros s Hs Hne. split; [rewrite has_char_append, Hplain, Hs; reflexivity|].
      intros Heq. apply (f_equal String.length) in Heq.
      rewrite length_append_string in Heq. destruct s; [contradiction|]. simpl in Heq. lia. }
    destruct (Hname "_resp.json" eq_refl ltac:(discriminate)) as [Hresp_plain Hresp_ne].
    destruct (Hname "_ref.json" eq_refl ltac:(discriminate)) as [Href_plain Href_ne].
    assert (Hd1 : r1 = Ok tt
                  /\ Forall (fun a => files d1 !! a = Some Dir)
                       (dirs_above output_dir_path ++ [output_dir_path])).
    { destruct Hway as [Hthere|(Hnone & Hne & Hway)].
      - assert (Hout : files d !! output_dir_path = Some Dir).
        { apply Forall_app in Hthere. destruct Hthere as [_ Hout].
          inversion Hout; subst. assumption. }
        destruct (Hdir1 Hout) as [-> ->]. split; [reflexivity|exact Hthere].
      - apply Hmade1; assumption. }
    destruct Hd1 as [-> Hdirs1].
    assert (Hresp1 : files d1 !! response_filepath = files d !! response_filepath).
    { apply Hframe1. intros Hin.
      apply (artifact_not_directory _ _ _ Hresp_plain Hresp_ne Hin). reflexivity. }
    assert (Href1 : files d1 !! output_reference_filepath
                    = files d !! output_reference_filepath).
    { apply Hframe1. intros Hin.
      apply (artifact_not_directory _ _ _ Href_plain Href_ne Hin). reflexivity. }
    rewrite write_text_writes.
    2:{ apply List.Forall_forall. intros a Ha.
        apply (dirs_above_joined_incl _ _ _ Hresp_plain) in Ha.
        rewrite List.Forall_forall in Hdirs1. apply Hdirs1. exact Ha. }
    2:{ rewrite Hresp1. exact Hresp_free. }
    assert (Hdirs2 : Forall (fun a =>
                               files {| files := <[response_filepath := File (dumps doc)]>
                                                   (files d1);
                                        report := report d1 |} !! a = Some Dir)
                       (dirs_above output_dir_path ++ [output_dir_path])).
    { apply List.Forall_forall. intros a Ha. cbn [files].
      rewrite lookup_insert_ne
        by (intros Heq; apply (artifact_not_directory _ _ _ Hresp_plain Hresp_ne Ha);
            symmetry; exact Heq).
      rewrite List.Forall_forall in Hdirs1. apply Hdirs1. exact Ha. }
    rewrite write_text_writes.
    2:{ apply List.Forall_forall. intros a Ha.
        apply (dirs_above_joined_incl _ _ _ Href_plain) in Ha.
        rewrite List.Forall_forall in Hdirs2. apply Hdirs2. exact Ha. }
    2:{ cbn [files]. rewrite lookup_insert_ne by congruence. rewrite Href1.
        exact Href_free. }
    eexists. split; [reflexivity|]. cbn [files report]. split.
    { apply List.Forall_forall. intros a Ha.
      rewrite lookup_insert_ne
        by (intros Heq; apply (artifact_not_directory _ _ _ Href_plain Href_ne Ha);
            symmetry; exact Heq).
      rewrite List.Forall_forall in Hdirs2. apply (Hdirs2 a Ha). }
    split; [rewrite lookup_insert_ne by congruence; apply lookup_insert_eq|].
    split; [apply lookup_insert_eq|]. rewrite Hreport1. reflexivity.
  - (* a regular file where the directory should be *)
    intros t Hat Hplain Hend.
    destruct (Hfile1 t Hat) as [-> ->].
    assert (Hresp_plain : has_char "/" (get_reference_filename_prefix self +:+ "_resp.json")
                          = false)
      by (rewrite has_char_append, Hplain; reflexivity).
    assert (Hin : In output_dir_path (dirs_above response_filepath)).
    { unfold response_filepath. rewrite (dirs_above_joined _ _ Hresp_plain), Hend.
      apply in_or_app. right. left. reflexivity. }
    destruct (resolve_stops response_filepath d _ _ _ Hin Hat) as [e He].
    unfold write_text. rewrite He. exists e. split; [reflexivity|].
    apply (resolve_raises _ _ _ _ He).
Qed.

End CompareFacts.


(** The response does not name the host: the stored "response" is the
    filter of the stored "full_response". *)
Lemma created_reference_fields_witness :
  exists doc full_response,
    files (snd (create_reference (config := Demo.config) (ujson := LiteJson.ujson)
                  (helpers := Demo.helpers) Demo.test_call Demo.journeys_query
                  Demo.response_without_host Demo.links_checker Demo.empty_disk))
      !! "/artemis/references/TestIdfm/test_idfm_01_0.json"
    = Some (File (LiteJson.dumps doc))
    /\ getitem doc "full_response" = Ok full_response
    /\ getitem doc "response" = Ok (Demo.strip_links full_response).
Proof.
  destruct (created_reference_fields (config := Demo.config) (ujson := LiteJson.ujson)
              (helpers := Demo.helpers) Demo.test_call Demo.journeys_query
              Demo.response_without_host Demo.links_checker Demo.empty_disk
              (snd (create_reference (config := Demo.config) (ujson := LiteJson.ujson)
                      (helpers := Demo.helpers) Demo.test_call Demo.journeys_query
                      Demo.response_without_host Demo.links_checker Demo.empty_disk))
              eq_refl)
    as (parsed & full_response & doc & _ & _ & Hfile & _ & Hfull & Hsame).
  exists doc, full_response. split; [exact Hfile|]. split; [exact Hfull|].
  apply Hsame. reflexivity.
Defined.

(** C1 as stated fails.  The response names the backend host in a field
    that the filter keeps.  The reference is created; its "response" still
    names the host, its "full_response" names "localhost", and the filter of
    "full_response" is not the stored "response". *)
Lemma created_reference_response_keeps_host :
  create_reference (config := Demo.config) (ujson := LiteJson.ujson)
    (helpers := Demo.helpers) Demo.test_call Demo.journeys_query
    Demo.response_with_host Demo.links_checker Demo.empty_disk
  = (Ok tt,
     {| files :=
          <["/artemis/references/TestIdfm/test_idfm_01_0.json" :=
              File (LiteJson.dumps
                (JObj
                   [ ("query",
                      JStr "http://localhost/v1/coverage/fr-idf/journeys?from=A&to=B");
                     ("response",
                      JObj [ ("journeys", JArr [JObj [("duration", JNum 100)]]);
                             ("self", JStr "http://navitia.io/v1/coverage/fr-idf") ]);
                     ("full_response",
                      JObj [ ("journeys", JArr [JObj [("duration", JNum 100)]]);
                             ("links", JArr [JStr "http://localhost/v1/journeys"]);
                             ("self", JStr "http://localhost/v1/coverage/fr-idf") ]) ]))]>
            ∅;
        report := [] |})
  /\ Checker.filter Demo.links_checker
       (JObj [ ("journeys", JArr [JObj [("duration", JNum 100)]]);
               ("links", JArr [JStr "http://localhost/v1/journeys"]);
               ("self", JStr "http://localhost/v1/coverage/fr-idf") ])
     = JObj [ ("journeys", JArr [JObj [("duration", JNum 100)]]);
              ("self", JStr "http://localhost/v1/coverage/fr-idf") ]
  /\ Checker.filter Demo.links_checker
       (JObj [ ("journeys", JArr [JObj [("duration", JNum 100)]]);
               ("links", JArr [JStr "http://localhost/v1/journeys"]);
               ("self", JStr "http://localhost/v1/coverage/fr-idf") ])
     <> JObj [ ("journeys", JArr [JObj [("duration", JNum 100)]]);
               ("self", JStr "http://navitia.io/v1/coverage/fr-idf") ].
Proof.
  split; [reflexivity|]. split; [reflexivity|]. discriminate.
Qed.

(** The live journey lasts 100, the reference says 90.  The output tree
    was removed at import: the two directories are made, then the
    artifacts.  With a regular file where the directory of the test should
    be, nothing is written and [open] fails. *)
Lemma compare_with_ref_mismatch_artifacts_witness :
  (exists d',
     compare_with_ref (config := Demo.config) (ujson := LiteJson.ujson)
       (helpers := Demo.helpers) Demo.test_call Demo.journeys_query
       Demo.response_without_host Demo.links_checker Cases.disk_after_import
     = (Raise (AssertionError "response and reference differ"), d')
     /\ files d' !! "/artemis/output" = Some Dir
     /\ files d' !! "/artemis/output/TestIdfm" = Some Dir
     /\ files d' !! "/artemis/output/TestIdfm/test_idfm_01_0_resp.json"
        = Some (File (LiteJson.text
            "{'query':'http://localhost/v1/coverage/fr-idf/journeys?from=A&to=B','response':{'journeys':[{'duration':100}]},'full_response':{'journeys':[{'duration':100}],'links':['/v1/journeys']}}"))
     /\ files d' !! "/artemis/output/TestIdfm/test_idfm_01_0_ref.json"
        = Some (File Demo.stored_reference))
  /\ exists e,
       compare_with_ref (config := Demo.config) (ujson := LiteJson.ujson)
         (helpers := Demo.helpers) Demo.test_call Demo.journeys_query
         Demo.response_without_host Demo.links_checker Cases.disk_with_file_in_the_way
       = (Raise e, Cases.disk_with_file_in_the_way)
       /\ (e = NotADirectoryError "/artemis/output/TestIdfm/test_idfm_01_0_resp.json"
           \/ e = FileNotFoundError "/artemis/output/TestIdfm/test_idfm_01_0_resp.json").
Proof.
  split.
  - destruct (compare_with_ref_mismatch_artifacts (config := Demo.config)
                (ujson := LiteJson.ujson) (helpers := Demo.helpers) Demo.test_call
                Demo.journeys_query Demo.response_without_host Demo.links_checker
                Cases.disk_after_import
                (JObj [ ("journeys", JArr [JObj [("duration", JNum 100)]]);
                        ("links", JArr [JStr "/v1/journeys"]) ])
                (JObj
                   [ ("query",
                      JStr "http://localhost/v1/coverage/fr-idf/journeys?from=A&to=B");
                     ("response",
                      JObj [ ("journeys", JArr [JObj [("duration", JNum 90)]]);
                             ("links", JArr [JStr "/v1/journeys"]) ]);
                     ("full_response",
                      JObj [ ("journeys", JArr [JObj [("duration", JNum 90)]]);
                             ("links", JArr [JStr "/v1/journeys"]) ]) ])
                (JObj [ ("journeys", JArr [JObj [("duration", JNum 90)]]);
                        ("links", JArr [JStr "/v1/journeys"]) ])
                (JObj
                   [ ("query",
                      JStr "http://localhost/v1/coverage/fr-idf/journeys?from=A&to=B");
                     ("response",
                      JObj [("journeys", JArr [JObj [("duration", JNum 100)]])]);
                     ("full_response",
                      JObj [ ("journeys", JArr [JObj [("duration", JNum 100)]]);
                             ("links", JArr [JStr "/v1/journeys"]) ]) ])
                Demo.stored_reference "response and reference differ"
                eq_refl eq_refl eq_refl eq_refl eq_refl eq_refl)
      as (_ & Hreaches & _).
    destruct Hreaches as (d' & Hrun & Hdirs & Hresp & Href & _);
      [reflexivity|discriminate|discriminate| |].
    + right. split; [reflexivity|]. split; [discriminate|].
      repeat constructor; intros t; vm_compute; discriminate.
    + exists d'. split; [exact Hrun|].
      apply List.Forall_forall with (x := "/artemis/output") in Hdirs as Houtput;
        [|vm_compute; auto].
      apply List.Forall_forall with (x := "/artemis/output/TestIdfm") in Hdirs as Htest;
        [|vm_compute; auto].
      split; [exact Houtput|]. split; [exact Htest|]. split; [exact Hresp|exact Href].
  - destruct (compare_with_ref_mismatch_artifacts (config := Demo.config)
                (ujson := LiteJson.ujson) (helpers := Demo.helpers) Demo.test_call
                Demo.journeys_query Demo.response_without_host Demo.links_checker
                Cases.disk_with_file_in_the_way
                (JObj [ ("journeys", JArr [JObj [("duration", JNum 100)]]);
                        ("links", JArr [JStr "/v1/journeys"]) ])
                (JObj
                   [ ("query",
                      JStr "http://localhost/v1/coverage/fr-idf/journeys?from=A&to=B");
                     ("response",
                      JObj [ ("journeys", JArr [JObj [("duration", JNum 90)]]);
                             ("links", JArr [JStr "/v1/journeys"]) ]);
                     ("full_response",
                      JObj [ ("journeys", JArr [JObj [("duration", JNum 90)]]);
                             ("links", JArr [JStr "/v1/journeys"]) ]) ])
                (JObj [ ("journeys", JArr [JObj [("duration", JNum 90)]]);
                        ("links", JArr [JStr "/v1/journeys"]) ])
                (JObj
                   [ ("query",
                      JStr "http://localhost/v1/coverage/fr-idf/journeys?from=A&to=B");
                     ("response",
                      JObj [("journeys", JArr [JObj [("duration", JNum 100)]])]);
                     ("full_response",
                      JObj [ ("journeys", JArr [JObj [("duration", JNum 100)]]);
                             ("links", JArr [JStr "/v1/journeys"]) ]) ])
                Demo.stored_reference "response and reference differ"
                eq_refl eq_refl eq_refl eq_refl eq_refl eq_refl)
      as (_ & _ & Hfile).
    exact (Hfile "notes" eq_refl eq_refl eq_refl).
Defined.

(** C6 as stated fails.  After the mismatch the artifact
    [{prefix}_ref.json] is the reference file as it was read, with its
    three fields; it does not decode to the filtered reference that was
    compared, and [{prefix}_resp.json] likewise is not the filtered
    response but a whole reference document. *)
Lemma reference_artifact_is_reference_file :
  fst (compare_with_ref (config := Demo.config) (ujson := LiteJson.ujson)
         (helpers := Demo.helpers) Demo.test_call Demo.journeys_query
         Demo.response_without_host Demo.links_checker Demo.disk_with_reference)
  = Raise (AssertionError "response and reference differ")
  /\ files (snd (compare_with_ref (config := Demo.config) (ujson := LiteJson.ujson)
                   (helpers := Demo.helpers) Demo.test_call Demo.journeys_query
                   Demo.response_without_host Demo.links_checker
                   Demo.disk_with_reference))
       !! "/artemis/output/TestIdfm/test_idfm_01_0_ref.json"
     = Some (File Demo.stored_reference)
  /\ match LiteJson.loads Demo.stored_reference with
     | Ok ref_dict =>
         match getitem ref_dict "full_response" with
         | Ok reference_full_response =>
             Some (Checker.filter Demo.links_checker reference_full_response)
         | Raise _ => None
         end
     | Raise _ => None
     end
     = Some (JObj [("journeys", JArr [JObj [("duration", JNum 90)]])])
  /\ LiteJson.loads Demo.stored_reference
     <> Ok (JObj [("journeys", JArr [JObj [("duration", JNum 90)]])])
  /\ Demo.stored_reference
     <> LiteJson.dumps (JObj [("journeys", JArr [JObj [("duration", JNum 90)]])])
  /\ files (snd (compare_with_ref (config := Demo.config) (ujson := LiteJson.ujson)
                   (helpers := Demo.helpers) Demo.test_call Demo.journeys_query
                   Demo.response_without_host Demo.links_checker
                   Demo.disk_with_reference))
       !! "/artemis/output/TestIdfm/test_idfm_01_0_resp.json"
     <> Some (File (LiteJson.dumps
                     (JObj [("journeys", JArr [JObj [("duration", JNum 100)]])]))).
Proof.
  split; [reflexivity|]. split; [reflexivity|]. split; [reflexivity|].
  split; [vm_compute; discriminate|]. split; vm_compute; discriminate.
Qed.

(** ** The retry loop: how a wait ends *)

Section RetryOutcome.

Context {O A : Type}.
Variable r : retrying.Retrying.
Variable fn : O -> result A.

(** An outcome is that of the first attempt that was either accepted or
    read at or after [stop_max_delay]. *)
Lemma call_outcome_iff attempts : forall n res k,
  retrying.call r fn attempts n = Some (res, k) <->
  exists before o delay later,
    attempts = before ++ (o, delay) :: later
    /\ k = (n + length before)%nat
    /\ Forall (retrying.goes_on r fn) before
    /\ fn o = res
    /\ (retrying.should_reject r res = false \/ retrying.stop_max_delay r <= delay).
Proof.
  induction attempts as [|[o delay] later IH]; intros n res k.
  - split; [discriminate|]. intros (before & ? & ? & ? & Hnil & _).
    destruct before; discriminate.
  - split.
    + intros Hcall. simpl in Hcall.
      destruct (retrying.should_reject r (fn o)) eqn:Hrej; simpl in Hcall.
      * destruct (retrying.stop_after_delay r delay) eqn:Hstop.
        -- inversion Hcall; subst. exists [], o, delay, later.
           repeat split; [simpl; lia|constructor|].
           right. unfold retrying.stop_after_delay in Hstop. lia.
        -- apply IH in Hcall.
           destruct Hcall as (before & o' & delay' & later' & -> & -> & Hb & Hfn & Hend).
           exists ((o, delay) :: before), o', delay', later'.
           repeat split; try assumption; [simpl; lia|].
           constructor; [|assumption]. split; [assumption|].
           unfold retrying.stop_after_delay in Hstop. simpl. lia.
      * inversion Hcall; subst. exists [], o, delay, later.
        repeat split; [simpl; lia|constructor|]. left. assumption.
    + intros (before & o' & delay' & later' & Heq & -> & Hb & Hfn & Hend).
      destruct before as [|p before].
      * simpl in Heq. inversion Heq; subst o' delay' later'. subst res.
        replace (n + length (@nil (O * Z)))%nat with n by (simpl; lia).
        destruct Hend as [Hacc|Hlate];
          [apply call_accepts; assumption|].
        destruct (retrying.should_reject r (fn o)) eqn:Hrej;
          [apply call_gives_up; assumption|apply call_accepts; assumption].
      * simpl in Heq. inversion Heq; subst p later. inversion Hb; subst.
        rewrite call_goes_on by assumption. apply IH.
        exists before, o', delay', later'. repeat split; try assumption. simpl. lia.
Qed.

(** A wait has ended by the first attempt read at or after [stop_max_delay]. *)
Lemma retry_ends_by_deadline before : forall o delay later n,
  retrying.stop_max_delay r <= delay ->
  exists res k,
    retrying.call r fn (before ++ (o, delay) :: later) n = Some (res, k)
    /\ (k <= n + length before)%nat.
Proof.
  induction before as [|[o' delay'] before IH]; intros o delay later n Hlate.
  - exists (fn o), n. split; [|simpl; lia]. simpl.
    destruct (retrying.should_reject r (fn o)); simpl; [|reflexivity].
    unfold retrying.stop_after_delay.
    destruct (Z.leb_spec (retrying.stop_max_delay r) delay); [reflexivity|lia].
  - simpl.
    destruct (retrying.should_reject r (fn o')); simpl;
      [|exists (fn o'), n; split; [reflexivity|lia]].
    destruct (retrying.stop_after_delay r delay');
      [exists (fn o'), n; split; [reflexivity|lia]|].
    destruct (IH o delay later (S n) Hlate) as (res & k & Hcall & Hk).
    exists res, k. split; [assumption|lia].
Qed.

End RetryOutcome.

Lemma next_found {X} (p : X -> bool) (l : list X) :
  (exists x, next p l = Some x) <-> Exists (fun x => p x = true) l.
Proof.
  induction l as [|y rest IH]; simpl.
  - split; [intros [x H]; discriminate|intros H; inversion H].
  - destruct (p y) eqn:Hp.
    + split; [intros _; left; assumption|intros _; exists y; reflexivity].
    + rewrite IH. split; [intros H; right; assumption|].
      intros H. inversion H; [congruence|assumption].
Qed.

(** ** The waits of the orchestrator *)

(** X1.  The wait on the stop of a Kraken returns at poll [k] exactly when
    at each earlier poll the first compose container whose name contains
    [kraken_name] was "running" (with time left to poll again), and at poll
    [k] either no compose container has such a name, or the first that has
    is in any state but "running". *)
Theorem wait_for_kraken_stop_returns
    (kraken_name : string) (polls : list (list Container.t * Z))
    (lines : list string) (k : nat) :
  wait_for_kraken_stop kraken_name polls = Some (Ok lines, k) <->
  exists before all_containers_list delay later,
    polls = before ++ (all_containers_list, delay) :: later
    /\ k = S (length before)
    /\ Forall
         (fun p =>
            (exists c,
               next (fun x => str_in kraken_name (Container.name x))
                 (get_compose_containers_list (fst p)) = Some c
               /\ Container.status c = "running")
            /\ snd p < 3000000) before
    /\ match next (fun x => str_in kraken_name (Container.name x))
               (get_compose_containers_list all_containers_list) with
       | Some c =>
           Container.status c <> "running"
           /\ lines = ["Container " +:+ Container.name c +:+ " : Status: "
                         +:+ Container.status c]
       | None => lines = ["No container found for " +:+ kraken_name]
       end.
Proof.
  unfold wait_for_kraken_stop. rewrite retry_returns_iff.
  assert (Hgo : forall p,
             retrying.goes_on orchestrator_retry (wait_for_kraken_stop_once kraken_name) p
             <-> (exists c,
                    next (fun x => str_in kraken_name (Container.name x))
                      (get_compose_containers_list (fst p)) = Some c
                    /\ Container.status c = "running")
                 /\ snd p < 3000000).
  { intros p. unfold retrying.goes_on, wait_for_kraken_stop_once. simpl.
    destruct (next _ (get_compose_containers_list (fst p))) as [c|].
    - destruct (String.eqb_spec (Container.status c) "running") as [Hrun|Hrun]; simpl.
      + split; intros [_ Ht]; (split; [|exact Ht]); [exists c; auto|reflexivity].
      + split; [intros [H _]; discriminate|].
        intros [(c' & [= <-] & Hc') _]. contradiction.
    - split; [intros [H _]; discriminate|]. intros [(c' & H & _) _]. discriminate. }
  split; intros (before & all & delay & later & Hpolls & Hk & Hb & Hlast);
    exists before, all, delay, later; (split; [exact Hpolls|]); (split; [exact Hk|]);
    (split; [eapply List.Forall_impl; [|exact Hb]; intros p Hp; apply Hgo; exact Hp|]).
  - unfold wait_for_kraken_stop_once in Hlast.
    destruct (next _ (get_compose_containers_list all)) as [c|].
    + destruct (String.eqb_spec (Container.status c) "running"); [discriminate|].
      inversion Hlast. split; [assumption|reflexivity].
    + inversion Hlast. reflexivity.
  - unfold wait_for_kraken_stop_once.
    destruct (next _ (get_compose_containers_list all)) as [c|].
    + destruct Hlast as [Hnot ->].
      destruct (String.eqb_spec (Container.status c) "running"); [contradiction|reflexivity].
    + rewrite Hlast. reflexivity.
Qed.

(** The Kraken of "fr-idf" is running at the first poll and exited at the
    second. *)
Lemma wait_for_kraken_stop_returns_witness :
  wait_for_kraken_stop "kraken-fr-idf"
    [ ([Demo.container "navitia_kraken-fr-idf_1" "running"], 40);
      ([Demo.container "navitia_kraken-fr-idf_1" "exited"], 2050) ]
  = Some (Ok ["Container navitia_kraken-fr-idf_1 : Status: exited"], 2%nat).
Proof.
  apply (proj2 (wait_for_kraken_stop_returns "kraken-fr-idf" _ _ _)).
  exists [ ([Demo.container "navitia_kraken-fr-idf_1" "running"], 40) ],
    [Demo.container "navitia_kraken-fr-idf_1" "exited"], 2050, [].
  split; [reflexivity|]. split; [reflexivity|]. split.
  - constructor; [|constructor]. split; [|reflexivity].
    exists (Demo.container "navitia_kraken-fr-idf_1" "running"). split; reflexivity.
  - simpl. split; [discriminate|reflexivity].
Defined.

(** X2.  The wait on the removal of a Kraken returns at poll [k] exactly
    when at each earlier poll some compose container had a name containing
    [kraken_name] (with time left to poll again) and at poll [k] none has.
    A list of containers that satisfies one poll of the removal wait
    satisfies one poll of the stop wait. *)
Theorem wait_for_docker_removal_returns
    (kraken_name : string) (polls : list (list Container.t * Z)) (k : nat) :
  (wait_for_docker_removal kraken_name polls = Some (Ok tt, k) <->
   exists before all_containers_list delay later,
     polls = before ++ (all_containers_list, delay) :: later
     /\ k = S (length before)
     /\ Forall
          (fun p =>
             Exists (fun x => str_in kraken_name (Container.name x) = true)
               (get_compose_containers_list (fst p))
             /\ snd p < 3000000) before
     /\ Forall (fun x => str_in kraken_name (Container.name x) = false)
          (get_compose_containers_list all_containers_list))
  /\ (forall all_containers_list,
        wait_for_kraken_removal_once kraken_name all_containers_list = Ok tt ->
        wait_for_kraken_stop_once kraken_name all_containers_list
        = Ok ["No container found for " +:+ kraken_name]).
Proof.
  split.
  - unfold wait_for_docker_removal. rewrite retry_returns_iff.
    assert (Hgo : forall p,
               retrying.goes_on orchestrator_retry
                 (wait_for_kraken_removal_once kraken_name) p
               <-> Exists (fun x => str_in kraken_name (Container.name x) = true)
                     (get_compose_containers_list (fst p))
                   /\ snd p < 3000000).
    { intros p. unfold retrying.goes_on, wait_for_kraken_removal_once. simpl.
      rewrite <- next_found.
      destruct (next _ (get_compose_containers_list (fst p))) as [c|]; simpl.
      - split; intros [_ Ht]; (split; [|exact Ht]); [exists c; reflexivity|reflexivity].
      - split; [intros [H _]; discriminate|]. intros [[c H] _]. discriminate. }
    split; intros (before & all & delay & later & Hpolls & Hk & Hb & Hlast);
      exists before, all, delay, later; (split; [exact Hpolls|]); (split; [exact Hk|]);
      (split; [eapply List.Forall_impl; [|exact Hb]; intros p Hp; apply Hgo; exact Hp|]).
    + apply next_none. unfold wait_for_kraken_removal_once in Hlast.
      destruct (next _ (get_compose_containers_list all)); [discriminate|reflexivity].
    + apply next_none in Hlast. unfold wait_for_kraken_removal_once. rewrite Hlast.
      reflexivity.
  - intros all. unfold wait_for_kraken_removal_once, wait_for_kraken_stop_once.
    destruct (next _ (get_compose_containers_list all)); [discriminate|reflexivity].
Qed.

(** The stopped Kraken is still listed at the first poll and gone at the
    second. *)
Lemma wait_for_docker_removal_returns_witness :
  wait_for_docker_removal "kraken-fr-idf"
    [ ([Demo.container "navitia_kraken-fr-idf_1" "exited";
        Demo.container "navitia_tyr_worker_1" "running"], 40);
      ([Demo.container "navitia_tyr_worker_1" "running"], 2050) ]
  = Some (Ok tt, 2%nat).
Proof.
  apply (proj2 (proj1 (wait_for_docker_removal_returns "kraken-fr-idf" _ 2%nat))).
  exists [ ([Demo.container "navitia_kraken-fr-idf_1" "exited";
             Demo.container "navitia_tyr_worker_1" "running"], 40) ],
    [Demo.container "navitia_tyr_worker_1" "running"], 2050, [].
  split; [reflexivity|]. split; [reflexivity|]. split.
  - constructor; [|constructor]. split; [|reflexivity]. left. reflexivity.
  - repeat constructor.
Defined.

(** X3.  The wait of [docker_clean] returns at poll [k] exactly when the
    compose list was not empty at each earlier poll (with time left) and is
    empty at poll [k].  A poll that finds no compose container at all
    satisfies every container wait of the orchestrator at once: the three
    others return at that poll, whatever name or status they wait for. *)
Theorem wait_for_containers_stop_returns
    (polls : list (list Container.t * Z)) (k : nat) :
  (wait_for_containers_stop polls = Some (Ok tt, k) <->
   exists before all_containers_list delay later,
     polls = before ++ (all_containers_list, delay) :: later
     /\ k = S (length before)
     /\ Forall (fun p => get_compose_containers_list (fst p) <> [] /\ snd p < 3000000)
          before
     /\ get_compose_containers_list all_containers_list = [])
  /\ (forall all_containers_list delay later name status,
        get_compose_containers_list all_containers_list = [] ->
        wait_for_containers_stop ((all_containers_list, delay) :: later)
        = Some (Ok tt, 1%nat)
        /\ wait_for_docker_removal name ((all_containers_list, delay) :: later)
           = Some (Ok tt, 1%nat)
        /\ wait_for_kraken_stop name ((all_containers_list, delay) :: later)
           = Some (Ok ["No container found for " +:+ name], 1%nat)
        /\ wait_for_instance_configuration_status status
             ((all_containers_list, delay) :: later)
           = Some (Ok ["No 'instances_configurator' container found"], 1%nat)).
Proof.
  split.
  - unfold wait_for_containers_stop. rewrite retry_returns_iff.
    assert (Hgo : forall p,
               retrying.goes_on orchestrator_retry wait_for_containers_stop_once p
               <-> get_compose_containers_list (fst p) <> [] /\ snd p < 3000000).
    { intros p. unfold retrying.goes_on, wait_for_containers_stop_once. simpl.
      destruct (get_compose_containers_list (fst p)); simpl.
      - split; [intros [H _]; discriminate|]. intros [H _]. contradiction.
      - split; intros [_ Ht]; (split; [|exact Ht]); [discriminate|reflexivity]. }
    split; intros (before & all & delay & later & Hpolls & Hk & Hb & Hlast);
      exists before, all, delay, later; (split; [exact Hpolls|]); (split; [exact Hk|]);
      (split; [eapply List.Forall_impl; [|exact Hb]; intros p Hp; apply Hgo; exact Hp|]).
    + unfold wait_for_containers_stop_once in Hlast.
      destruct (get_compose_containers_list all); [reflexivity|discriminate].
    + unfold wait_for_containers_stop_once. rewrite Hlast. reflexivity.
  - intros all delay later name status Hempty.
    unfold wait_for_containers_stop, wait_for_docker_removal, wait_for_kraken_stop,
      wait_for_instance_configuration_status, retrying.retry.
    repeat split; rewrite call_accepts;
      unfold wait_for_containers_stop_once, wait_for_kraken_removal_once,
        wait_for_kraken_stop_once, wait_for_instance_configuration_status_once;
      rewrite Hempty; reflexivity.
Qed.

(** Only a container that does not belong to the compose project is
    left. *)
Lemma wait_for_containers_stop_returns_witness :
  wait_for_containers_stop
    [ ([Demo.container "navitia_tyr_worker_1" "exited"], 40);
      ([ {| Container.name := "registry"; Container.status := "running";
            Container.attrs_Name := "/registry" |} ], 2050) ]
  = Some (Ok tt, 2%nat)
  /\ wait_for_kraken_stop "kraken-fr-idf"
       [ ([ {| Container.name := "registry"; Container.status := "running";
               Container.attrs_Name := "/registry" |} ], 40) ]
     = Some (Ok ["No container found for kraken-fr-idf"], 1%nat).
Proof.
  split.
  - apply (proj2 (proj1 (wait_for_containers_stop_returns _ 2%nat))).
    exists [ ([Demo.container "navitia_tyr_worker_1" "exited"], 40) ],
      [ {| Container.name := "registry"; Container.status := "running";
           Container.attrs_Name := "/registry" |} ], 2050, [].
    split; [reflexivity|]. split; [reflexivity|]. split; [|reflexivity].
    constructor; [|constructor]. split; [discriminate|reflexivity].
  - apply (proj2 (wait_for_containers_stop_returns [] 1%nat)
             [ {| Container.name := "registry"; Container.status := "running";
                  Container.attrs_Name := "/registry" |} ] 40 [] "kraken-fr-idf" "running").
    reflexivity.
Defined.

(** X4.  The wait on the cities database returns at the first poll
    answered with status 200.  When no poll is, it gives up with
    "Cities not reachable" at the first poll read at or after 3 000 000 ms,
    and it never ends otherwise. *)
Theorem wait_for_cities_db_ends (polls : list (Z * Z)) (k : nat) :
  (forall lines,
      wait_for_cities_db polls = Some (Ok lines, k) <->
      exists before delay later,
        polls = before ++ (200, delay) :: later
        /\ k = S (length before)
        /\ Forall (fun p => fst p <> 200 /\ snd p < 3000000) before
        /\ lines = ["Wait for cities db upgrade..."; " -> Cities Responding"])
  /\ (forall e,
        wait_for_cities_db polls = Some (Raise e, k) <->
        exists before status_code delay later,
          polls = before ++ (status_code, delay) :: later
          /\ k = S (length before)
          /\ Forall (fun p => fst p <> 200 /\ snd p < 3000000) before
          /\ status_code <> 200 /\ 3000000 <= delay
          /\ e = Exception "Cities not reachable").
Proof.
  assert (Hgo : forall p,
             retrying.goes_on orchestrator_retry wait_for_cities_db_once p
             <-> fst p <> 200 /\ snd p < 3000000).
  { intros p. unfold retrying.goes_on, wait_for_cities_db_once. simpl.
    destruct (Z.eqb_spec (fst p) 200) as [Heq|Hne]; simpl.
    - split; [intros [H _]; discriminate|]. intros [H _]. contradiction.
    - split; intros [_ Ht]; (split; [|exact Ht]); [assumption|reflexivity]. }
  split.
  - intros lines. unfold wait_for_cities_db. rewrite retry_returns_iff. split.
    + intros (before & o & delay & later & Hpolls & Hk & Hb & Hlast).
      unfold wait_for_cities_db_once in Hlast.
      destruct (Z.eqb_spec o 200) as [->|Hne]; [|discriminate]. inversion Hlast.
      exists before, delay, later. repeat split; try assumption.
      eapply List.Forall_impl; [|exact Hb]. intros p Hp. apply Hgo. exact Hp.
    + intros (before & delay & later & Hpolls & Hk & Hb & ->).
      exists before, 200, delay, later. repeat split; try assumption.
      eapply List.Forall_impl; [|exact Hb]. intros p Hp. apply Hgo. exact Hp.
  - intros e. unfold wait_for_cities_db, retrying.retry. rewrite call_outcome_iff. split.
    + intros (before & o & delay & later & Hpolls & Hk & Hb & Hlast & Hend).
      unfold wait_for_cities_db_once in Hlast.
      destruct (Z.eqb_spec o 200) as [->|Hne]; [discriminate|]. inversion Hlast; subst e.
      destruct Hend as [Hacc|Hlate]; [discriminate|].
      exists before, o, delay, later. repeat split; try assumption.
      eapply List.Forall_impl; [|exact Hb]. intros p Hp. apply Hgo. exact Hp.
    + intros (before & o & delay & later & Hpolls & Hk & Hb & Hne & Hlate & ->).
      exists before, o, delay, later. repeat split; try assumption.
      * eapply List.Forall_impl; [|exact Hb]. intros p Hp. apply Hgo. exact Hp.
      * unfold wait_for_cities_db_once. destruct (Z.eqb_spec o 200); [contradiction|reflexivity].
      * right. exact Hlate.
Qed.

(** Tyr answers 503 twice and then 200; or it still answers 503 when the
    clock passes the limit. *)
Lemma wait_for_cities_db_ends_witness :
  wait_for_cities_db [ (503, 30); (503, 2040); (200, 4050) ]
  = Some (Ok ["Wait for cities db upgrade..."; " -> Cities Responding"], 3%nat)
  /\ wait_for_cities_db [ (503, 30); (503, 3000010); (200, 3002020) ]
     = Some (Raise (Exception "Cities not reachable"), 2%nat).
Proof.
  split.
  - apply (proj2 (proj1 (wait_for_cities_db_ends _ 3%nat) _)).
    exists [ (503, 30); (503, 2040) ], 4050, [].
    repeat split; repeat constructor; simpl; discriminate.
  - apply (proj2 (proj2 (wait_for_cities_db_ends _ 2%nat) _)).
    exists [ (503, 30) ], 503, 3000010, [ (200, 3002020) ].
    repeat split; repeat constructor; simpl; discriminate.
Defined.

(** X5.  [wait_for_cities_job_completion] never returns: an answer with
    status 200 raises [TypeError], any other "Cities not reachable", both are
    retried, and the wait ends only by giving up, at a poll read at or after
    3 000 000 ms. *)
Theorem wait_for_cities_job_completion_only_gives_up
    (polls : list (Z * string * Z)) (outcome : result (list string)) (k : nat) :
  wait_for_cities_job_completion polls = Some (outcome, k) ->
  exists before answer delay later,
    polls = before ++ (answer, delay) :: later
    /\ k = S (length before)
    /\ 3000000 <= delay
    /\ outcome
       = Raise (if fst answer =? 200
                then TypeError "string indices must be integers"
                else Exception "Cities not reachable").
Proof.
  unfold wait_for_cities_job_completion, retrying.retry. intros Hcall.
  apply call_outcome_iff in Hcall.
  destruct Hcall as (before & answer & delay & later & Hpolls & Hk & _ & Hlast & Hend).
  exists before, answer, delay, later. split; [exact Hpolls|]. split; [exact Hk|].
  unfold wait_for_cities_job_completion_once in Hlast.
  destruct (fst answer =? 200); simpl in Hlast; subst outcome;
    (destruct Hend as [Hacc|Hlate]; [discriminate|]); split; auto.
Qed.

(** The job is reported done at every poll, and the wait still fails. *)
Lemma wait_for_cities_job_completion_only_gives_up_witness :
  exists before answer delay later,
    [ (200, "{}", 30); (200, "{}", 3000040) ] = before ++ (answer, delay) :: later
    /\ 2%nat = S (length before)
    /\ 3000000 <= delay
    /\ (Raise (TypeError "string indices must be integers") : result (list string))
       = Raise (if fst answer =? 200
                then TypeError "string indices must be integers"
                else Exception "Cities not reachable").
Proof.
  exact (wait_for_cities_job_completion_only_gives_up
           [ (200, "{}", 30); (200, "{}", 3000040) ]
           (Raise (TypeError "string indices must be integers")) 2%nat eq_refl).
Defined.

(** ** Loading the data of a dataset *)

Section UpdateDataFacts.

Context {config : Config}.
Variable data_tree : gmap string (list (string * string)).
Variable all_containers : list Container.t.
Variable data_set : DataSet.t.

Lemma staged_categories_cons entry rest :
  staged_categories data_tree data_set (entry :: rest)
  = staged_categories data_tree data_set [entry]
    ++ staged_categories data_tree data_set rest.
Proof.
  unfold staged_categories. simpl.
  destruct entry as [[[data_type dataset_type] file_ext] is_zipped].
  destruct (data_tree !! category_path data_set data_type); reflexivity.
Qed.

Lemma staged_categories_one data_type dataset_type file_ext is_zipped :
  staged_categories data_tree data_set [(data_type, dataset_type, file_ext, is_zipped)]
  = match data_tree !! category_path data_set data_type with
    | Some listing =>
        [ {| staged_files_type := data_type;
             staged_dataset_type := dataset_type;
             staged_zipped := is_zipped;
             staged_files :=
               List.map (fun f => (fst f, Data (snd f)))
                 (List.filter (fun f => str_endswith_any (fst f) file_ext) listing) |} ]
    | None => []
    end.
Proof.
  unfold staged_categories. simpl.
  destruct (data_tree !! category_path data_set data_type); reflexivity.
Qed.

Lemma put_data_without_worker data_type dataset_type file_suffix zipped st c :
  containers all_containers = [] ->
  staged_categories data_tree data_set [(data_type, dataset_type, file_suffix, zipped)]
  = [c] ->
  put_data data_tree all_containers data_set data_type file_suffix zipped st
  = (Raise (IndexError "list index out of range"),
     {| written := write_category data_set (written st) c; pushed := pushed st |}).
Proof.
  intros Hnone. rewrite staged_categories_one. unfold put_data, data_path.
  fold (category_path data_set data_type).
  destruct (data_tree !! category_path data_set data_type) as [listing|]; [|discriminate].
  intros [= <-]. unfold write_category, category_tar, category_zip_path. simpl.
  unfold bind, write_archive, read_archive, put_archive, modify, lift, ret.
  destruct zipped; simpl;
    repeat first [rewrite lookup_insert_eq | rewrite Hnone | progress simpl];
    reflexivity.
Qed.

Lemma stage_all_without_worker todo : forall dataset_types_to_process st,
  containers all_containers = [] ->
  stage_all data_tree all_containers data_set todo dataset_types_to_process st
  = match staged_categories data_tree data_set todo with
    | [] => (Ok dataset_types_to_process, st)
    | c :: _ =>
        (Raise (IndexError "list index out of range"),
         {| written := write_category data_set (written st) c; pushed := pushed st |})
    end.
Proof.
  induction todo as [|[[[data_type dataset_type] file_ext] is_zipped] rest IH];
    intros acc st Hnone; [reflexivity|].
  rewrite staged_categories_cons. simpl stage_all. unfold bind at 1.
  destruct (staged_categories data_tree data_set
              [(data_type, dataset_type, file_ext, is_zipped)]) as [|c l] eqn:Hone.
  - rewrite staged_categories_one in Hone.
    rewrite put_data_absent
      by (destruct (data_tree !! category_path data_set data_type);
          [discriminate|reflexivity]).
    rewrite IH by assumption. reflexivity.
  - assert (Hl : l = []).
    { rewrite staged_categories_one in Hone.
      destruct (data_tree !! category_path data_set data_type);
        [inversion Hone; reflexivity|discriminate]. }
    subst l. rewrite (put_data_without_worker _ _ _ _ _ _ Hnone Hone). reflexivity.
Qed.

(** X6.  Without a [tyr_worker] container the staging does not skip the
    push: when no category directory exists it returns the empty list and
    changes nothing, and otherwise it raises [IndexError] at the first
    category whose directory exists, after it has written the archives of
    that category and before anything is pushed. *)
Theorem stage_and_push_input_without_worker (st : Staging) :
  containers all_containers = [] ->
  stage_and_push_input data_tree all_containers data_set st
  = match staged_categories data_tree data_set data_to_process with
    | [] => (Ok [], st)
    | c :: _ =>
        (Raise (IndexError "list index out of range"),
         {| written := write_category data_set (written st) c; pushed := pushed st |})
    end.
Proof. intros Hnone. apply stage_all_without_worker. assumption. Qed.

Lemma wait_for_each_returns current_utc_datetime dataset_types : forall jobs_polls,
  wait_for_each data_set dataset_types current_utc_datetime jobs_polls = Some (Ok tt) <->
  exists used rest,
    jobs_polls = used ++ rest
    /\ Forall2
         (fun dataset_type polls =>
            exists k,
              wait_for_data_processing data_set dataset_type current_utc_datetime polls
              = Some (Ok tt, k))
         dataset_types used.
Proof.
  induction dataset_types as [|dataset_type types IH]; intros jobs_polls.
  - simpl. split; [intros _; exists [], jobs_polls; split; [reflexivity|constructor]|
                   reflexivity].
  - simpl. destruct jobs_polls as [|polls more].
    + split; [discriminate|]. intros (used & rest & Heq & Hall).
      inversion Hall; subst. discriminate.
    + destruct (wait_for_data_processing data_set dataset_type current_utc_datetime polls)
        as [[[[]|e] k]|] eqn:Hwait.
      * rewrite IH. split.
        -- intros (used & rest & -> & Hall). exists (polls :: used), rest.
           split; [reflexivity|]. constructor; [exists k; assumption|assumption].
        -- intros (used & rest & Heq & Hall). inversion Hall; subst.
           inversion Heq; subst. eexists _, rest. split; [reflexivity|assumption].
      * split; [discriminate|]. intros (used & rest & Heq & Hall).
        inversion Hall as [|? ? ? ? [k' Hk'] ?]; subst. inversion Heq; subst. congruence.
      * split; [discriminate|]. intros (used & rest & Heq & Hall).
        inversion Hall as [|? ? ? ? [k' Hk'] ?]; subst. inversion Heq; subst. congruence.
Qed.

(** X7.  With a [tyr_worker] container, [update_data_by_dataset] runs
    [mkdir] of the input path in the worker, stages and pushes the
    categories whose directory exists, and leaves these effects whatever
    the waits give.  It returns exactly when, for each staged category in
    order, the job wait on its dataset type returns, with the clock read
    before the staging as time limit, and then the reload wait returns, with
    the [last_load_at] read before the staging as baseline.  When no
    category directory exists no job wait is run and the outcome is that of
    the reload wait alone. *)
Theorem update_data_by_dataset_sequence
    (worker : Container.t) (status_before : CoverageStatus.t)
    (current_utc_datetime : Z)
    (jobs_polls : list (list (Http.response (list Job.t) * Z)))
    (reload_polls : list (CoverageStatus.t * Z)) (ld : Loading) :
  first_item (containers all_containers) = Ok worker ->
  snd (update_data_by_dataset data_tree all_containers data_set status_before
         current_utc_datetime jobs_polls reload_polls ld)
  = {| staging :=
         {| written :=
              fold_left (write_category data_set)
                (staged_categories data_tree data_set data_to_process)
                (written (staging ld));
            pushed :=
              pushed (staging ld)
              ++ List.map
                   (fun c => (Container.name worker, input_path data_set, category_tar c))
                   (staged_categories data_tree data_set data_to_process) |};
       executed :=
         executed ld ++ [(Container.name worker, "mkdir " +:+ input_path data_set)] |}
  /\ (fst (update_data_by_dataset data_tree all_containers data_set status_before
             current_utc_datetime jobs_polls reload_polls ld) = Some (Ok tt)
      <-> (exists used rest,
             jobs_polls = used ++ rest
             /\ Forall2
                  (fun c polls =>
                     exists k,
                       wait_for_data_processing data_set (staged_dataset_type c)
                         current_utc_datetime polls = Some (Ok tt, k))
                  (staged_categories data_tree data_set data_to_process) used)
          /\ exists k,
               wait_for_kraken_reload data_set
                 (get_last_coverage_loaded_time status_before) reload_polls
               = Some (Ok tt, k))
  /\ (staged_categories data_tree data_set data_to_process = [] ->
      fst (update_data_by_dataset data_tree all_containers data_set status_before
             current_utc_datetime jobs_polls reload_polls ld)
      = option_map fst
          (wait_for_kraken_reload data_set
             (get_last_coverage_loaded_time status_before) reload_polls)).
Proof.
  intros Hworker.
  assert (Hfirst : exists others, containers all_containers = worker :: others).
  { destruct (containers all_containers) as [|w others]; [discriminate|].
    inversion Hworker; subst. exists others. reflexivity. }
  destruct Hfirst as [others Hcontainers].
  unfold update_data_by_dataset. rewrite Hcontainers.
  unfold exec_run, modify, on_staging. cbn [staging executed].
  unfold stage_and_push_input.
  rewrite (stage_all_staged data_tree all_containers data_set worker Hworker).
  cbn [app].
  set (staged := staged_categories data_tree data_set data_to_process).
  destruct (wait_for_each data_set (List.map staged_dataset_type staged)
              current_utc_datetime jobs_polls) as [[[]|e]|] eqn:Hwaits.
  - destruct (wait_for_kraken_reload data_set
                (get_last_coverage_loaded_time status_before) reload_polls)
      as [[outcome k]|] eqn:Hreload; cbn [fst snd].
    + split; [reflexivity|]. split.
      * split.
        -- intros [= ->]. split; [|exists k; reflexivity].
           apply wait_for_each_returns in Hwaits.
           destruct Hwaits as (used & rest & Heq & Hall). exists used, rest.
           split; [assumption|]. apply Forall2_fmap_l in Hall. exact Hall.
        -- intros [_ [k' Hk']]. inversion Hk'; subst. reflexivity.
      * intros _. reflexivity.
    + split; [reflexivity|]. split.
      * split; [discriminate|]. intros [_ [k' Hk']]. discriminate.
      * intros _. reflexivity.
  - cbn [fst snd]. split; [reflexivity|]. split.
    + split; [discriminate|]. intros [(used & rest & Heq & Hall) _].
      assert (Hok : wait_for_each data_set (List.map staged_dataset_type staged)
                      current_utc_datetime jobs_polls = Some (Ok tt)).
      { apply wait_for_each_returns. exists used, rest. split; [assumption|].
        apply Forall2_fmap_l. exact Hall. }
      congruence.
    + intros Hnil. rewrite Hnil in Hwaits. discriminate.
  - cbn [fst snd]. split; [reflexivity|]. split.
    + split; [discriminate|]. intros [(used & rest & Heq & Hall) _].
      assert (Hok : wait_for_each data_set (List.map staged_dataset_type staged)
                      current_utc_datetime jobs_polls = Some (Ok tt)).
      { apply wait_for_each_returns. exists used, rest. split; [assumption|].
        apply Forall2_fmap_l. exact Hall. }
      congruence.
    + intros Hnil. rewrite Hnil in Hwaits. discriminate.
Qed.

End UpdateDataFacts.

(** No worker in the fleet, and a "fusio" directory to stage. *)
Lemma stage_and_push_input_without_worker_witness :
  stage_and_push_input (config := Demo.config) Demo.data_tree
    [Demo.container "navitia_kraken-fr-idf_1" "running"] Demo.fr_idf
    {| written := ∅; pushed := [] |}
  = (Raise (IndexError "list index out of range"),
     {| written :=
          <["./fusio.tar" :=
              TarFile [("fusio.zip", ZipFile [("a.txt", Data "stops")])]]>
            (<["/artemis/data/fr-idf/fusio/fr-idf_fusio.zip" :=
                 ZipFile [("a.txt", Data "stops")]]> ∅);
        pushed := [] |}).
Proof.
  exact (stage_and_push_input_without_worker (config := Demo.config) Demo.data_tree
           [Demo.container "navitia_kraken-fr-idf_1" "running"] Demo.fr_idf
           {| written := ∅; pushed := [] |} eq_refl).
Defined.

(** The "fusio" data of "fr-idf": one job wait, answered by a job done,
    then the reload wait, answered by a new load time. *)
Lemma update_data_by_dataset_sequence_witness :
  fst (update_data_by_dataset (config := Demo.config) Demo.data_tree Demo.fleet
         Demo.fr_idf (Demo.loaded_at "20200101T080000") 100
         [ [ (Demo.answer Demo.done_only, 40) ] ]
         [ (Demo.loaded_at "20200101T091500", 30) ]
         {| staging := {| written := ∅; pushed := [] |}; executed := [] |})
  = Some (Ok tt)
  /\ executed
       (snd (update_data_by_dataset (config := Demo.config) Demo.data_tree Demo.fleet
               Demo.fr_idf (Demo.loaded_at "20200101T080000") 100
               [ [ (Demo.answer Demo.done_only, 40) ] ]
               [ (Demo.loaded_at "20200101T091500", 30) ]
               {| staging := {| written := ∅; pushed := [] |}; executed := [] |}))
     = [ ("navitia_tyr_worker_1", "mkdir /srv/ed/input/fr-idf") ].
Proof.
  destruct (update_data_by_dataset_sequence (config := Demo.config) Demo.data_tree
              Demo.fleet Demo.fr_idf (Demo.container "navitia_tyr_worker_1" "running")
              (Demo.loaded_at "20200101T080000") 100
              [ [ (Demo.answer Demo.done_only, 40) ] ]
              [ (Demo.loaded_at "20200101T091500", 30) ]
              {| staging := {| written := ∅; pushed := [] |}; executed := [] |} eq_refl)
    as (Hsnd & Hfst & _).
  split.
  - apply Hfst. split.
    + exists [ [ (Demo.answer Demo.done_only, 40) ] ], []. split; [reflexivity|].
      change (staged_categories Demo.data_tree Demo.fr_idf data_to_process)
        with [ {| staged_files_type := "fusio"; staged_dataset_type := "fusio";
                  staged_zipped := true;
                  staged_files := [("a.txt", Data "stops")] |} ].
      constructor; [exists 1%nat; reflexivity|constructor].
    + exists 1%nat. reflexivity.
  - rewrite Hsnd. reflexivity.
Defined.

(** ** Comparing with a reference *)

Lemma bind_returns_inv {S A B} (m : M S A) (k : A -> M S B) s b s' :
  bind m k s = (Ok b, s') ->
  exists a s1, m s = (Ok a, s1) /\ k a s1 = (Ok b, s').
Proof.
  unfold bind. destruct (m s) as [[a|e] s1]; [|discriminate].
  intros H. exists a, s1. split; [reflexivity|assumption].
Qed.

Lemma leaves_alone_bind path {A B} (m : M Disk A) (k : A -> M Disk B) :
  leaves_alone path m -> (forall a, leaves_alone path (k a)) ->
  leaves_alone path (bind m k).
Proof.
  intros Hm Hk d. unfold bind. destruct (Hm d) as [Hfiles [added Hadded]].
  destruct (m d) as [[a|e] d1]; simpl in *.
  - destruct (Hk a d1) as [Hfiles' [added' Hadded']].
    split; [congruence|]. exists (added ++ added').
    rewrite Hadded', Hadded. symmetry. apply app_assoc.
  - split; [assumption|]. exists added. assumption.
Qed.

Lemma leaves_alone_pure path {A} (r : result A) : leaves_alone path (lift r).
Proof. intros d. split; [reflexivity|]. exists []. symmetry. apply app_nil_r. Qed.

Lemma leaves_alone_gets path {A} (f : Disk -> A) : leaves_alone path (gets f).
Proof. intros d. split; [reflexivity|]. exists []. symmetry. apply app_nil_r. Qed.

Lemma leaves_alone_read_text path other : leaves_alone path (read_text other).
Proof.
  intros d. unfold read_text. destruct (files d !! other) as [[t|]|];
    (split; [reflexivity|]; exists []; symmetry; apply app_nil_r).
Qed.

Lemma leaves_alone_write_reference_file path other text :
  path <> other -> leaves_alone path (write_reference_file other text).
Proof.
  intros Hne d. unfold write_reference_file.
  destruct (files d !! other) as [[t|]|]; simpl;
    (split; [rewrite ?lookup_insert_ne by congruence; reflexivity|];
     exists []; symmetry; apply app_nil_r).
Qed.

Lemma leaves_alone_write_text path other text :
  path <> other -> leaves_alone path (write_text other text).
Proof.
  intros Hne d.
  destruct (write_text_cases other text d) as [(-> & _ & _)|(e & -> & _)]; simpl;
    (split; [rewrite ?lookup_insert_ne by congruence; reflexivity|];
     exists []; symmetry; apply app_nil_r).
Qed.

Lemma leaves_alone_makedirs path other :
  ~ In path (dirs_above other ++ [other]) -> leaves_alone path (os_makedirs other).
Proof.
  intros Hnot d. unfold os_makedirs. destruct (String.eqb other "").
  - split; [reflexivity|]. exists []. symmetry. apply app_nil_r.
  - destruct (make_dirs_cases other (dirs_above other) d)
      as (r & d1 & -> & Hreport & _ & Hframe & _). simpl.
    split; [apply Hframe; exact Hnot|]. exists []. rewrite Hreport, app_nil_r. reflexivity.
Qed.

Lemma keeps_bind path {A B} (m : M Disk A) (k : A -> M Disk B) :
  keeps path m -> (forall a, keeps path (k a)) -> keeps path (bind m k).
Proof.
  intros Hm Hk d n Hat. unfold bind. pose proof (Hm d n Hat) as Hat1.
  destruct (m d) as [[a|e] d1]; simpl in *; [|exact Hat1]. apply Hk. exact Hat1.
Qed.

Lemma keeps_pure path {A} (r : result A) : keeps path (lift r).
Proof. intros d n Hat. exact Hat. Qed.

Lemma keeps_gets path {A} (f : Disk -> A) : keeps path (gets f).
Proof. intros d n Hat. exact Hat. Qed.

Lemma keeps_read_text path other : keeps path (read_text other).
Proof.
  intros d n Hat. unfold read_text. destruct (files d !! other) as [[t|]|]; exact Hat.
Qed.

Lemma keeps_write_reference_file path other text :
  path <> other -> keeps path (write_reference_file other text).
Proof.
  intros Hne d n Hat. unfold write_reference_file.
  destruct (files d !! other) as [[t|]|]; simpl;
    rewrite ?lookup_insert_ne by congruence; exact Hat.
Qed.

Lemma keeps_write_text path other text :
  path <> other -> keeps path (write_text other text).
Proof.
  intros Hne d n Hat.
  destruct (write_text_cases other text d) as [(-> & _ & _)|(e & -> & _)]; simpl;
    rewrite ?lookup_insert_ne by congruence; exact Hat.
Qed.

(** [os.makedirs] makes directories where nothing is: what is there
    stays. *)
Lemma keeps_makedirs path other : keeps path (os_makedirs other).
Proof.
  intros d n Hat. unfold os_makedirs. destruct (String.eqb other ""); [exact Hat|].
  destruct (make_dirs_cases other (dirs_above other) d)
    as (r & d1 & -> & _ & Hkeeps & _). simpl. apply Hkeeps. exact Hat.
Qed.

Lemma keeps_add_to_report path test_name query message :
  keeps path (add_to_report test_name query message).
Proof. intros d n Hat. exact Hat. Qed.

Lemma leaves_alone_add_to_report path test_name query message :
  leaves_alone path (add_to_report test_name query message).
Proof. intros d. simpl. split; [reflexivity|]. eexists. reflexivity. Qed.

Section ComparePasses.

Context {config : Config} {ujson : Ujson} {helpers : Helpers}.
Variable self : TestCall.

Lemma leaves_alone_write_full_response path open_w http_query response_string filepath
    response_checker :
  (forall text, leaves_alone path (open_w filepath text)) ->
  leaves_alone path
    (write_full_response_to_file open_w http_query response_string filepath
       response_checker).
Proof.
  intros Hopen. unfold write_full_response_to_file.
  apply leaves_alone_bind; [apply leaves_alone_pure|].
  intros doc. apply Hopen.
Qed.

Lemma keeps_write_full_response path open_w http_query response_string filepath
    response_checker :
  (forall text, keeps path (open_w filepath text)) ->
  keeps path
    (write_full_response_to_file open_w http_query response_string filepath
       response_checker).
Proof.
  intros Hopen. unfold write_full_response_to_file.
  apply keeps_bind; [apply keeps_pure|]. intros doc. apply Hopen.
Qed.

Lemma compare_with_ref_passes http_query response_string response_checker d
    resp_dict raw_reference ref_dict reference_full_response :
  loads response_string = Ok resp_dict ->
  files d !! get_reference_file_path self = Some (File raw_reference) ->
  loads raw_reference = Ok ref_dict ->
  getitem ref_dict "full_response" = Ok reference_full_response ->
  Checker.compare response_checker
    (Checker.filter response_checker resp_dict)
    (Checker.filter response_checker reference_full_response) = Ok tt ->
  compare_with_ref self http_query response_string response_checker d = (Ok tt, d).
Proof.
  intros Hresp Href Hraw Hfull Hcompare.
  unfold compare_with_ref.
  unfold bind at 1, lift. rewrite Hresp.
  unfold bind at 1, gets, os_path_isfile. rewrite Href. cbn [negb].
  unfold bind at 1, read_text. rewrite Href.
  unfold bind at 1. rewrite Hraw.
  unfold bind at 1. rewrite Hfull.
  rewrite Hcompare. reflexivity.
Qed.

(** X8.  [compare_with_ref] returns exactly when the response decodes, the
    reference path holds a file that decodes to a document with a
    "full_response", and the checker's comparison of the filtered response
    with the filtered "full_response" returns; the "query" and "response"
    fields of the reference play no part.  A comparison that returns has
    written nothing: the file system and the report are as they were. *)
Theorem compare_with_ref_passes_iff
    (http_query response_string : string) (response_checker : Checker.t) (d d' : Disk) :
  compare_with_ref self http_query response_string response_checker d = (Ok tt, d') <->
  d' = d
  /\ exists resp_dict raw_reference ref_dict reference_full_response,
       loads response_string = Ok resp_dict
       /\ files d !! get_reference_file_path self = Some (File raw_reference)
       /\ loads raw_reference = Ok ref_dict
       /\ getitem ref_dict "full_response" = Ok reference_full_response
       /\ Checker.compare response_checker
            (Checker.filter response_checker resp_dict)
            (Checker.filter response_checker reference_full_response)
          = Ok tt.
Proof.
  split.
  - unfold compare_with_ref.
    unfold bind at 1, lift.
    destruct (loads response_string) as [resp_dict|e] eqn:Hresp; [|discriminate].
    unfold bind at 1, gets, os_path_isfile.
    destruct (files d !! get_reference_file_path self) as [[raw|]|] eqn:Href;
      cbn [negb]; try (unfold raise; discriminate).
    unfold bind at 1, read_text. rewrite Href.
    unfold bind at 1, lift.
    destruct (loads raw) as [ref_dict|e] eqn:Hraw; [|discriminate].
    unfold bind at 1, lift.
    destruct (getitem ref_dict "full_response") as [full|e] eqn:Hfull; [|discriminate].
    destruct (Checker.compare response_checker _ _) as [[]|e] eqn:Hcompare.
    + unfold ret. intros [= <-]. split; [reflexivity|].
      exists resp_dict, raw, ref_dict, full. auto.
    + destruct e; try (unfold raise; discriminate).
      intros Hrun.
      repeat (apply bind_returns_inv in Hrun; destruct Hrun as (? & ? & _ & Hrun)).
      unfold raise in Hrun. discriminate.
  - intros (-> & resp_dict & raw & ref_dict & full & Hresp & Href & Hraw & Hfull & Hcompare).
    eapply compare_with_ref_passes; eassumption.
Qed.

(** The steps of a computation, one by one. *)
Ltac frame_steps path :=
  repeat first
    [ apply leaves_alone_bind; [|intros ?]
    | apply leaves_alone_pure
    | apply leaves_alone_gets
    | apply leaves_alone_read_text
    | apply leaves_alone_add_to_report
    | apply leaves_alone_write_text; assumption
    | apply leaves_alone_makedirs; assumption
    | apply leaves_alone_write_full_response; intros ?;
      apply leaves_alone_write_text; assumption
    | apply (leaves_alone_pure path (Ok tt))
    | match goal with
      | |- leaves_alone _ (raise ?e) => apply (leaves_alone_pure path (Raise e))
      | |- leaves_alone _ (if ?b then _ else _) => destruct b
      | |- leaves_alone _ (match ?x with _ => _ end) => destruct x
      end ].

Ltac keeps_steps path :=
  repeat first
    [ apply keeps_bind; [|intros ?]
    | apply keeps_pure
    | apply keeps_gets
    | apply keeps_read_text
    | apply keeps_add_to_report
    | apply keeps_write_text; assumption
    | apply keeps_makedirs
    | apply keeps_write_full_response; intros ?; apply keeps_write_text; assumption
    | apply (keeps_pure path (Ok tt))
    | match goal with
      | |- keeps _ (raise ?e) => apply (keeps_pure path (Raise e))
      | |- keeps _ (if ?b then _ else _) => destruct b
      | |- keeps _ (match ?x with _ => _ end) => destruct x
      end ].

(** X9.  Whatever its outcome, [compare_with_ref] leaves every path other
    than the output directory of the test, the directories above it and
    the two artifact paths as it was, the reference file among them when
    it is none of these, and it removes nothing from the report. *)
Theorem compare_with_ref_touches_only_artifacts
    (http_query response_string : string) (response_checker : Checker.t)
    (path : string) :
  let output_dir_path :=
    os_path_join RESPONSE_FILE_PATH (get_reference_suffix_path self) in
  ~ In path (dirs_above output_dir_path ++ [output_dir_path]) ->
  path <> os_path_join output_dir_path (get_reference_filename_prefix self +:+ "_resp.json") ->
  path <> os_path_join output_dir_path (get_reference_filename_prefix self +:+ "_ref.json") ->
  leaves_alone path (compare_with_ref self http_query response_string response_checker).
Proof.
  intros output_dir_path Hdir Hresp Href. unfold compare_with_ref.
  fold output_dir_path. frame_steps path.
Qed.

(** X10.  [request_compare] never touches a file that is there, in either
    mode, unless it is at one of the artifact paths: in create mode the
    reference path is written only when no file is at it, and in compare
    mode nothing but the artifacts is written. *)
Theorem request_compare_keeps_existing_files
    (create_ref : bool) (http_query response_string : string) (checker : Checker.t)
    (path text : string) (d : Disk) :
  let output_dir_path :=
    os_path_join RESPONSE_FILE_PATH (get_reference_suffix_path self) in
  path <> output_dir_path ->
  path <> os_path_join output_dir_path (get_reference_filename_prefix self +:+ "_resp.json") ->
  path <> os_path_join output_dir_path (get_reference_filename_prefix self +:+ "_ref.json") ->
  files d !! path = Some (File text) ->
  files (snd (request_compare self create_ref http_query response_string checker d))
    !! path
  = Some (File text).
Proof.
  intros output_dir_path Hdir Hresp Href Hfile.
  unfold request_compare. destruct create_ref.
  - unfold create_reference, bind, gets, os_path_isfile.
    destruct (String.eqb_spec path (get_reference_file_path self)) as [<-|Hne].
    + rewrite Hfile. exact Hfile.
    + assert (Hkeeps : keeps path
                         (write_full_response_to_file write_reference_file http_query
                            response_string (get_reference_file_path self) checker)).
      { apply keeps_write_full_response. intros t. apply keeps_write_reference_file. exact Hne. }
      destruct (files d !! get_reference_file_path self) as [[t|]|];
        first [exact Hfile | apply Hkeeps; exact Hfile].
  - assert (Hkeeps : keeps path
                       (compare_with_ref self http_query response_string checker)).
    { unfold compare_with_ref. fold output_dir_path. keeps_steps path. }
    apply Hkeeps. exact Hfile.
Qed.

End ComparePasses.

(** The live response and the reference differ by their links alone,
    which the filter drops. *)
Lemma compare_with_ref_passes_iff_witness :
  compare_with_ref (config := Demo.config) (ujson := LiteJson.ujson)
    (helpers := Demo.helpers) Demo.test_call Demo.journeys_query
    Demo.response_without_host Demo.links_checker Cases.disk_with_agreeing_reference
  = (Ok tt, Cases.disk_with_agreeing_reference).
Proof.
  apply (proj2 (compare_with_ref_passes_iff (config := Demo.config)
                  (ujson := LiteJson.ujson) (helpers := Demo.helpers) Demo.test_call
                  Demo.journeys_query Demo.response_without_host Demo.links_checker
                  Cases.disk_with_agreeing_reference Cases.disk_with_agreeing_reference)).
  split; [reflexivity|].
  eexists _, Cases.agreeing_reference, _, _.
  split; [reflexivity|]. split; [reflexivity|]. split; [reflexivity|].
  split; reflexivity.
Defined.

(** The failing comparison of the examples leaves the reference file as it
    was. *)
Lemma compare_with_ref_touches_only_artifacts_witness :
  files (snd (compare_with_ref (config := Demo.config) (ujson := LiteJson.ujson)
                (helpers := Demo.helpers) Demo.test_call Demo.journeys_query
                Demo.response_without_host Demo.links_checker
                Cases.disk_after_import))
    !! "/artemis/references/TestIdfm/test_idfm_01_0.json"
  = files Cases.disk_after_import !! "/artemis/references/TestIdfm/test_idfm_01_0.json"
  /\ exists added,
       report (snd (compare_with_ref (config := Demo.config) (ujson := LiteJson.ujson)
                      (helpers := Demo.helpers) Demo.test_call Demo.journeys_query
                      Demo.response_without_host Demo.links_checker
                      Cases.disk_after_import))
       = report Cases.disk_after_import ++ added.
Proof.
  apply (compare_with_ref_touches_only_artifacts (config := Demo.config)
           (ujson := LiteJson.ujson) (helpers := Demo.helpers) Demo.test_call
           Demo.journeys_query Demo.response_without_host Demo.links_checker
           "/artemis/references/TestIdfm/test_idfm_01_0.json").
  - intros Hin. vm_compute in Hin. decompose [or] Hin; first [discriminate|contradiction].
  - vm_compute. discriminate.
  - vm_compute. discriminate.
Defined.

(** ** Creating a reference and comparing with it *)


Section CreateThenCompare.

Context {config : Config} {ujson : Ujson} {helpers : Helpers}.
Variable self : TestCall.


End CreateThenCompare.



(** ** The list of loaded datasets, whatever the outcome *)

Section ManageDataInvariant.

Variable W : Type.
Variable update_instance_db : string -> M W unit.
Variable remove_data_by_dataset : DataSet.t -> M W unit.
Variable update_data_by_dataset : DataSet.t -> M W unit.
Variable check_values : string -> M W unit.

Lemma manage_data_loop_grows data_sets : forall fx r fx',
  manage_data_loop W update_instance_db remove_data_by_dataset
    update_data_by_dataset check_values data_sets fx = (r, fx') ->
  exists added,
    dataset_binarized fx' = dataset_binarized fx ++ added
    /\ List.NoDup added
    /\ (forall n, In n added ->
          ~ In n (dataset_binarized fx)
          /\ exists d, In d data_sets /\ DataSet.name d = n)
    /\ (forall e, r = Raise e ->
          exists d, In d data_sets /\ ~ In (DataSet.name d) (dataset_binarized fx')).
Proof.
  induction data_sets as [|d rest IH]; intros fx r fx' Hrun.
  - inversion Hrun; subst. exists []. split; [symmetry; apply app_nil_r|].
    split; [constructor|]. split; [intros n []|discriminate].
  - destruct (name_in (DataSet.name d) (dataset_binarized fx)) eqn:Hin.
    + rewrite manage_data_loop_skips in Hrun by assumption.
      destruct (IH _ _ _ Hrun) as (added & Hadded & Hnodup & Hnew & Hraise).
      exists added. split; [assumption|]. split; [assumption|]. split.
      * intros n Hn. destruct (Hnew n Hn) as [Hnot (d' & Hd' & Hname)].
        split; [assumption|]. exists d'. split; [right; assumption|assumption].
      * intros e He. destruct (Hraise e He) as (d' & Hd' & Hnot).
        exists d'. split; [right; assumption|assumption].
    + rewrite manage_data_loop_loads in Hrun by assumption.
      assert (Hnotin : ~ In (DataSet.name d) (dataset_binarized fx)).
      { intros Habs. apply name_in_In in Habs. congruence. }
      destruct (load_pipeline W update_instance_db remove_data_by_dataset
                  update_data_by_dataset check_values d (backend fx)) as [[[]|e] w].
      * destruct (IH _ _ _ Hrun) as (added & Hadded & Hnodup & Hnew & Hraise).
        cbn [dataset_binarized] in Hadded, Hnew.
        exists (DataSet.name d :: added). split.
        { rewrite Hadded. rewrite <- app_assoc. reflexivity. }
        split.
        { constructor; [|assumption]. intros Habs.
          destruct (Hnew _ Habs) as [Hnot _]. apply Hnot.
          apply in_or_app. right. left. reflexivity. }
        split.
        { intros n [<-|Hn].
          - split; [assumption|]. exists d. split; [left; reflexivity|reflexivity].
          - destruct (Hnew n Hn) as [Hnot (d' & Hd' & Hname)]. split.
            + intros Habs. apply Hnot. apply in_or_app. left. assumption.
            + exists d'. split; [right; assumption|assumption]. }
        intros e He. destruct (Hraise e He) as (d' & Hd' & Hnot).
        exists d'. split; [right; assumption|assumption].
      * inversion Hrun; subst. cbn [dataset_binarized]. exists [].
        split; [symmetry; apply app_nil_r|]. split; [constructor|].
        split; [intros n []|]. intros e' _. exists d. split; [left; reflexivity|assumption].
Qed.

(** X12.  Whatever the outcome of [manage_data], [dataset_binarized] is
    the list it was followed by names of datasets of the class that were
    not in it, each of them once: a list without duplicates stays so.
    When the run raises, some dataset of the class is still out of the
    list. *)
Theorem manage_data_binarized_only_grows
    (skip_bina : bool) (data_sets : list DataSet.t) (fx fx' : Fixture W)
    (r : result unit) :
  manage_data W update_instance_db remove_data_by_dataset update_data_by_dataset
    check_values skip_bina data_sets fx = (r, fx') ->
  (exists added,
     dataset_binarized fx' = dataset_binarized fx ++ added
     /\ List.NoDup added
     /\ forall n, In n added ->
          ~ In n (dataset_binarized fx)
          /\ exists d, In d data_sets /\ DataSet.name d = n)
  /\ (List.NoDup (dataset_binarized fx) -> List.NoDup (dataset_binarized fx'))
  /\ (forall e, r = Raise e ->
        exists d, In d data_sets /\ ~ In (DataSet.name d) (dataset_binarized fx')).
Proof.
  intros Hrun.
  assert (Hgrows : exists added,
             dataset_binarized fx' = dataset_binarized fx ++ added
             /\ List.NoDup added
             /\ (forall n, In n added ->
                   ~ In n (dataset_binarized fx)
                   /\ exists d, In d data_sets /\ DataSet.name d = n)
             /\ (forall e, r = Raise e ->
                   exists d, In d data_sets
                             /\ ~ In (DataSet.name d) (dataset_binarized fx'))).
  { unfold manage_data in Hrun. destruct skip_bina.
    - inversion Hrun; subst. exists []. split; [symmetry; apply app_nil_r|].
      split; [constructor|]. split; [intros n []|discriminate].
    - apply manage_data_loop_grows. exact Hrun. }
  destruct Hgrows as (added & Hadded & Hnodup & Hnew & Hraise).
  split; [exists added; auto|]. split; [|exact Hraise].
  intros Hbefore. rewrite Hadded. clear Hadded Hraise.
  induction (dataset_binarized fx) as [|x l IHl]; [exact Hnodup|].
  inversion Hbefore; subst. simpl. constructor.
  - intros Habs. apply in_app_or in Habs. destruct Habs as [Hl|Ha]; [contradiction|].
    destruct (Hnew x Ha) as [Hnot _]. apply Hnot. left. reflexivity.
  - apply IHl; [|assumption]. intros n Hn. destruct (Hnew n Hn) as [Hnot Hd].
    split; [|exact Hd]. intros Habs. apply Hnot. right. assumption.
Qed.

End ManageDataInvariant.

(** "fr-idf" twice and then "fr-bre", whose check fails: "fr-idf" is
    marked once and "fr-bre" is not. *)
Lemma manage_data_binarized_only_grows_witness :
  (exists added,
     ["fr-idf"] = [] ++ added
     /\ List.NoDup added
     /\ forall n, In n added ->
          ~ In n []
          /\ exists d, In d [Demo.fr_idf; Demo.fr_idf; Outage.fr_bre]
                       /\ DataSet.name d = n)
  /\ (List.NoDup (@nil string) -> List.NoDup ["fr-idf"])
  /\ (forall e, (Raise (Exception "Coverage fr-bre NOT RUNNING") : result unit) = Raise e ->
        exists d, In d [Demo.fr_idf; Demo.fr_idf; Outage.fr_bre]
                  /\ ~ In (DataSet.name d) ["fr-idf"]).
Proof.
  exact (manage_data_binarized_only_grows (list string)
           (Demo.logged "update_instance_db")
           (fun data_set => Demo.logged "remove_data_by_dataset" (DataSet.name data_set))
           (fun data_set => Demo.logged "update_data_by_dataset" (DataSet.name data_set))
           Outage.check_values false [Demo.fr_idf; Demo.fr_idf; Outage.fr_bre]
           {| dataset_binarized := []; backend := [] |}
           {| dataset_binarized := ["fr-idf"];
              backend := [ "update_instance_db fr-idf"; "remove_data_by_dataset fr-idf";
                           "update_data_by_dataset fr-idf"; "check_values fr-idf";
                           "update_instance_db fr-bre"; "remove_data_by_dataset fr-bre";
                           "update_data_by_dataset fr-bre" ] |}
           (Raise (Exception "Coverage fr-bre NOT RUNNING")) eq_refl).
Defined.

(** ** Updating the instance in Tyr *)

Lemma raise_for_status_cases {B} (r : Http.response B) :
  (Http.raise_for_status r = Ok tt
   /\ ~ (400 <= Http.status_code r < 600))
  \/ (Http.raise_for_status r = Raise (HTTPError (Http.status_code r))
      /\ 400 <= Http.status_code r < 600).
Proof.
  unfold Http.raise_for_status.
  destruct (Z.leb_spec 400 (Http.status_code r));
    destruct (Z.ltb_spec (Http.status_code r) 600); simpl;
    first [left; split; [reflexivity|lia] | right; split; [reflexivity|lia]].
Qed.

(** A poll after which the scan wait polls again: the answer is no HTTP
    error and does not list the instance, and less than a minute has
    passed. *)
Lemma tyr_scan_goes_on instance_name (p : Http.response (list string) * Z) :
  retrying.goes_on tyr_scan_retry (wait_for_tyr_instance_scan_once instance_name) p
  <-> ~ (400 <= Http.status_code (fst p) < 600)
      /\ ~ In instance_name (Http.body (fst p))
      /\ snd p < 60000.
Proof.
  unfold retrying.goes_on, wait_for_tyr_instance_scan_once. cbn [retrying.stop_max_delay
    tyr_scan_retry].
  destruct (raise_for_status_cases (fst p)) as [[-> Hok]|[-> Herr]].
  - destruct (name_in instance_name (Http.body (fst p))) eqn:Hin; simpl.
    + apply name_in_In in Hin. split; [intros [H _]; discriminate|].
      intros (_ & Hnot & _). contradiction.
    + assert (Hnot : ~ In instance_name (Http.body (fst p))).
      { intros Habs. apply name_in_In in Habs. congruence. }
      split; [intros [_ Ht]; auto|intros (_ & _ & Ht); auto].
  - simpl. split; [intros [H _]; discriminate|]. intros (Hnot & _). contradiction.
Qed.

Lemma wait_for_tyr_instance_scan_once_listed data_set answer :
  wait_for_tyr_instance_scan_once data_set answer = Ok tt
  <-> ~ (400 <= Http.status_code answer < 600) /\ In data_set (Http.body answer).
Proof.
  unfold wait_for_tyr_instance_scan_once.
  destruct (raise_for_status_cases answer) as [[-> Hok]|[-> Herr]].
  - destruct (name_in data_set (Http.body answer)) eqn:Hin; simpl.
    + apply name_in_In in Hin. split; auto.
    + split; [discriminate|]. intros [_ Habs]. apply name_in_In in Habs. congruence.
  - split; [discriminate|]. intros [Hnot _]. contradiction.
Qed.

Lemma wait_for_tyr_instance_scan_returns data_set scan_polls k :
  wait_for_tyr_instance_scan data_set scan_polls = Some (Ok tt, k)
  <-> exists before answer delay later,
        scan_polls = before ++ (answer, delay) :: later
        /\ k = S (length before)
        /\ Forall
             (fun p =>
                ~ (400 <= Http.status_code (fst p) < 600)
                /\ ~ In data_set (Http.body (fst p))
                /\ snd p < 60000) before
        /\ ~ (400 <= Http.status_code answer < 600)
        /\ In data_set (Http.body answer).
Proof.
  unfold wait_for_tyr_instance_scan. rewrite retry_returns_iff.
  split; intros (before & answer & delay & later & Hpolls & Hk & Hb & Hlast);
    exists before, answer, delay, later; (split; [exact Hpolls|]);
    (split; [exact Hk|]);
    (split; [eapply List.Forall_impl; [|exact Hb]; intros p Hp;
             apply tyr_scan_goes_on; exact Hp|]);
    apply wait_for_tyr_instance_scan_once_listed; exact Hlast.
Qed.

Section UpdateInstanceDbFacts.

Context {config : Config}.
Variable default_values_data : string.

(** X13.  [update_instance_db] sends its [PUT] once the scan wait has
    returned, and only then.  It returns exactly when some poll of
    [GET /v0/instances/] lists the instance, every earlier poll having been
    answered without HTTP error, without the instance, and within the
    minute, and the [PUT] is answered without HTTP error.  A poll answered
    with an HTTP error ends the wait at once with that error, and nothing
    is sent.  Whatever the outcome, the requests sent before are kept, and
    a [PUT] is added to them only when some poll listed the instance. *)
Theorem update_instance_db_puts_after_scan
    (data_set : string) (scan_polls : list (Http.response (list string) * Z))
    (r : Http.response string) (sent : list (string * string)) :
  let instance_url := URL_TYR +:+ "/v0/instances/" +:+ data_set in
  let pending (p : Http.response (list string) * Z) :=
    ~ (400 <= Http.status_code (fst p) < 600)
    /\ ~ In data_set (Http.body (fst p))
    /\ snd p < 60000 in
  (forall sent',
      update_instance_db default_values_data data_set scan_polls r sent
      = (Some (Ok tt), sent')
      <-> (exists before answer delay later,
             scan_polls = before ++ (answer, delay) :: later
             /\ Forall pending before
             /\ ~ (400 <= Http.status_code answer < 600)
             /\ In data_set (Http.body answer))
          /\ ~ (400 <= Http.status_code r < 600)
          /\ sent' = sent ++ [(instance_url, default_values_data)])
  /\ (forall before answer delay later,
        scan_polls = before ++ (answer, delay) :: later ->
        Forall pending before ->
        400 <= Http.status_code answer < 600 ->
        update_instance_db default_values_data data_set scan_polls r sent
        = (Some (Raise (HTTPError (Http.status_code answer))), sent))
  /\ (forall outcome sent',
        update_instance_db default_values_data data_set scan_polls r sent
        = (outcome, sent') ->
        sent' = sent
        \/ (sent' = sent ++ [(instance_url, default_values_data)]
            /\ exists p, In p scan_polls /\ In data_set (Http.body (fst p)))).
Proof.
  intros instance_url pending.
  split; [|split].
  - intros sent'. unfold update_instance_db.
    destruct (wait_for_tyr_instance_scan data_set scan_polls) as [[[[]|e] k]|] eqn:Hwait.
    + apply wait_for_tyr_instance_scan_returns in Hwait.
      destruct Hwait as (before & answer & delay & later & Hpolls & _ & Hb & Hok & Hin).
      fold instance_url.
      destruct (raise_for_status_cases r) as [[-> Hr]|[-> Hr]].
      * split.
        -- intros [= <-]. split; [exists before, answer, delay, later; auto|]. auto.
        -- intros (_ & _ & ->). reflexivity.
      * split; [discriminate|]. intros (_ & Hnot & _). contradiction.
    + split; [discriminate|].
      intros ((before & answer & delay & later & Hpolls & Hb & Hok & Hin) & _).
      assert (Hret : wait_for_tyr_instance_scan data_set scan_polls
                     = Some (Ok tt, S (length before))).
      { apply wait_for_tyr_instance_scan_returns. exists before, answer, delay, later. auto. }
      congruence.
    + split; [discriminate|].
      intros ((before & answer & delay & later & Hpolls & Hb & Hok & Hin) & _).
      assert (Hret : wait_for_tyr_instance_scan data_set scan_polls
                     = Some (Ok tt, S (length before))).
      { apply wait_for_tyr_instance_scan_returns. exists before, answer, delay, later. auto. }
      congruence.
  - intros before answer delay later -> Hb Herr.
    unfold update_instance_db, wait_for_tyr_instance_scan, retrying.retry.
    assert (Hfn : wait_for_tyr_instance_scan_once data_set answer
                  = Raise (HTTPError (Http.status_code answer))).
    { unfold wait_for_tyr_instance_scan_once.
      destruct (raise_for_status_cases answer) as [[_ Hok]|[-> _]];
        [contradiction|reflexivity]. }
    rewrite call_accepts_after.
    + rewrite Hfn. reflexivity.
    + eapply List.Forall_impl; [|exact Hb]. intros p Hp. apply tyr_scan_goes_on. exact Hp.
    + rewrite Hfn. reflexivity.
  - intros outcome sent'. unfold update_instance_db.
    destruct (wait_for_tyr_instance_scan data_set scan_polls) as [[[[]|e] k]|] eqn:Hwait;
      intros [= _ <-]; [|left; reflexivity|left; reflexivity].
    right. split; [reflexivity|].
    apply wait_for_tyr_instance_scan_returns in Hwait.
    destruct Hwait as (before & answer & delay & later & -> & _ & _ & _ & Hin).
    exists (answer, delay). split; [|exact Hin].
    apply in_or_app. right. left. reflexivity.
Qed.

End UpdateInstanceDbFacts.

(** Tyr lists "fr-idf" at the second poll and accepts the values; or it
    answers 502 at the second poll, and nothing is sent. *)
Lemma update_instance_db_puts_after_scan_witness :
  update_instance_db (config := Demo.config) "{}" "fr-idf"
    [ ({| Http.status_code := 200; Http.body := ["fr-bre"] |}, 20);
      ({| Http.status_code := 200; Http.body := ["fr-bre"; "fr-idf"] |}, 540) ]
    {| Http.status_code := 200; Http.body := "" |} []
  = (Some (Ok tt), [("http://tyr/v0/instances/fr-idf", "{}")])
  /\ update_instance_db (config := Demo.config) "{}" "fr-idf"
       [ ({| Http.status_code := 200; Http.body := ["fr-bre"] |}, 20);
         ({| Http.status_code := 502; Http.body := [] |}, 540);
         ({| Http.status_code := 200; Http.body := ["fr-idf"] |}, 1060) ]
       {| Http.status_code := 200; Http.body := "" |} []
     = (Some (Raise (HTTPError 502)), []).
Proof.
  split.
  - apply (proj1 (update_instance_db_puts_after_scan (config := Demo.config) "{}"
                    "fr-idf" _ _ _)).
    split; [|split; [simpl; lia|reflexivity]].
    exists [ ({| Http.status_code := 200; Http.body := ["fr-bre"] |}, 20) ],
      {| Http.status_code := 200; Http.body := ["fr-bre"; "fr-idf"] |}, 540, [].
    split; [reflexivity|]. split.
    + constructor; [|constructor]. simpl. split; [lia|]. split; [|lia].
      intros [H|[]]. discriminate.
    + split; [simpl; lia|]. right. left. reflexivity.
  - apply (proj1 (proj2 (update_instance_db_puts_after_scan (config := Demo.config) "{}"
                           "fr-idf" _ _ _))
             [ ({| Http.status_code := 200; Http.body := ["fr-bre"] |}, 20) ]
             {| Http.status_code := 502; Http.body := [] |} 540
             [ ({| Http.status_code := 200; Http.body := ["fr-idf"] |}, 1060) ]).
    + reflexivity.
    + constructor; [|constructor]. simpl. split; [lia|]. split; [|lia].
      intros [H|[]]. discriminate.
    + simpl. lia.
Defined.

(** ** The check of the instance parameters *)

Lemma dict_set_not_nil key v members : dict_set key v members <> [].
Proof.
  destruct members as [|[k w] rest]; simpl; [discriminate|].
  destruct (String.eqb key k); discriminate.
Qed.

Lemma dict_get_set key key' v members :
  dict_get key (dict_set key' v members)
  = if String.eqb key key' then Some v else dict_get key members.
Proof.
  induction members as [|[k w] rest IH]; simpl.
  - reflexivity.
  - destruct (String.eqb_spec key' k) as [->|Hne]; simpl.
    + destruct (String.eqb key k); reflexivity.
    + rewrite IH. destruct (String.eqb_spec key key') as [->|Hne'].
      * destruct (String.eqb_spec key' k); [contradiction|reflexivity].
      * reflexivity.
Qed.

Section CheckValuesFacts.

Variable default_values : list (string * json).
Variable py_ne : json -> json -> bool.
Variable py_str : json -> string.
Variable dumps_diffs : list (string * json) -> string.

Local Abbreviation collect := (collect_diffs py_ne py_str).

Lemma collect_diffs_agrees k v rest params diffs :
  agrees py_ne params (k, v) ->
  collect ((k, v) :: rest) params diffs = collect rest params diffs.
Proof.
  intros (members & tyr & -> & Hget & Hsame). simpl in *.
  rewrite Hget. simpl. rewrite Hsame. reflexivity.
Qed.

Lemma collect_diffs_differs k v rest params diffs :
  ~ agrees py_ne params (k, v) ->
  (exists e, collect ((k, v) :: rest) params diffs = Raise e)
  \/ exists message,
       collect ((k, v) :: rest) params diffs
       = collect rest params (dict_set k (JStr message) diffs).
Proof.
  intros Hnot. cbn [collect_diffs].
  destruct (in_params k params) eqn:Hin; simpl; [|right; eexists; reflexivity].
  destruct params as [members|]; simpl in *.
  - destruct (dict_get k members) as [tyr|] eqn:Hget; [|discriminate].
    destruct (py_ne tyr v) eqn:Hne; [right; eexists; reflexivity|].
    exfalso. apply Hnot. exists members, tyr. auto.
  - left. eexists. reflexivity.
Qed.

Lemma collect_diffs_keeps items params : forall diffs out,
  collect items params diffs = Ok out -> diffs <> [] -> out <> [].
Proof.
  induction items as [|[k v] rest IH]; intros diffs out Hrun Hne.
  - inversion Hrun; subst. assumption.
  - cbn [collect_diffs] in Hrun.
    destruct (negb (in_params k params)).
    + eapply IH; [exact Hrun|apply dict_set_not_nil].
    + destruct (params_getitem params k) as [tyr|e]; [|discriminate].
      destruct (py_ne tyr v); [|eapply IH; eassumption].
      eapply IH; [exact Hrun|apply dict_set_not_nil].
Qed.

Lemma collect_diffs_none items params :
  collect items params [] = Ok [] <-> Forall (agrees py_ne params) items.
Proof.
  induction items as [|[k v] rest IH].
  - split; [constructor|reflexivity].
  - split.
    + intros Hrun.
      assert (Hthis : agrees py_ne params (k, v)).
      { cbn [collect_diffs] in Hrun.
        destruct (in_params k params) eqn:Hin; simpl in Hrun.
        - destruct params as [members|]; simpl in *; [|discriminate].
          destruct (dict_get k members) as [tyr|] eqn:Hget; [|discriminate].
          destruct (py_ne tyr v) eqn:Hne.
          + exfalso. eapply collect_diffs_keeps;
              [exact Hrun|first [apply dict_set_not_nil|discriminate]|].
            reflexivity.
          + exists members, tyr. auto.
        - exfalso. eapply collect_diffs_keeps;
              [exact Hrun|first [apply dict_set_not_nil|discriminate]|].
          reflexivity. }
      constructor; [exact Hthis|]. apply IH.
      rewrite collect_diffs_agrees in Hrun by exact Hthis. exact Hrun.
    + intros Hall. inversion Hall; subst.
      rewrite collect_diffs_agrees by assumption. apply IH. assumption.
Qed.

(** With a dictionary of parameters the loop returns, and the keys of the
    differences are those that were there and the keys of the defaults
    that do not agree. *)
Lemma collect_diffs_keys items members : forall diffs,
  exists out,
    collect items (Some members) diffs = Ok out
    /\ forall k,
         dict_get k out <> None
         <-> dict_get k diffs <> None
             \/ exists v, In (k, v) items /\ ~ agrees py_ne (Some members) (k, v).
Proof.
  induction items as [|[k0 v0] rest IH]; intros diffs.
  - exists diffs. split; [reflexivity|]. intros k. split; [auto|].
    intros [H|(v & [] & _)]. exact H.
  - cbn [collect_diffs in_params params_getitem getitem].
    assert (Hstep : forall message,
               exists out,
                 collect rest (Some members) (dict_set k0 (JStr message) diffs) = Ok out
                 /\ forall k,
                      dict_get k out <> None
                      <-> dict_get k diffs <> None
                          \/ k = k0
                          \/ exists v, In (k, v) rest
                                       /\ ~ agrees py_ne (Some members) (k, v)).
    { intros message. destruct (IH (dict_set k0 (JStr message) diffs)) as (out & Hrun & Hkeys).
      exists out. split; [exact Hrun|]. intros k. rewrite Hkeys, dict_get_set.
      destruct (String.eqb_spec k k0) as [->|Hne].
      - split; [intros _; right; left; reflexivity|intros _; left; discriminate].
      - split.
        + intros [H|H]; [left; exact H|right; right; exact H].
        + intros [H|[H|H]]; [left; exact H|contradiction|right; exact H]. }
    destruct (dict_get k0 members) as [tyr|] eqn:Hget; simpl.
    + destruct (py_ne tyr v0) eqn:Hne.
      * destruct (Hstep (py_str v0 +:+ " != " +:+ py_str tyr)) as (out & Hrun & Hkeys).
        exists out. split; [exact Hrun|]. intros k. rewrite Hkeys. split.
        -- intros [H|[->|(v & Hin & Hnot)]]; [left; exact H| |].
           ++ right. exists v0. split; [left; reflexivity|].
              intros (m & t & [= <-] & Hg & Hs). simpl in Hg, Hs. congruence.
           ++ right. exists v. split; [right; exact Hin|exact Hnot].
        -- intros [H|(v & [[= <- <-]|Hin] & Hnot)];
             [left; exact H|right; left; reflexivity|].
           right. right. exists v. split; assumption.
      * destruct (IH diffs) as (out & Hrun & Hkeys). exists out.
        split; [exact Hrun|]. intros k. rewrite Hkeys. split.
        -- intros [H|(v & Hin & Hnot)]; [left; exact H|].
           right. exists v. split; [right; exact Hin|exact Hnot].
        -- intros [H|(v & [[= <- <-]|Hin] & Hnot)]; [left; exact H| |].
           ++ exfalso. apply Hnot. exists members, tyr. auto.
           ++ right. exists v. split; assumption.
    + destruct (Hstep "Missing in Tyr") as (out & Hrun & Hkeys).
      exists out. split; [exact Hrun|]. intros k. rewrite Hkeys. split.
      * intros [H|[->|(v & Hin & Hnot)]]; [left; exact H| |].
        -- right. exists v0. split; [left; reflexivity|].
           intros (m & t & [= <-] & Hg & Hs). simpl in Hg, Hs. congruence.
        -- right. exists v. split; [right; exact Hin|exact Hnot].
      * intros [H|(v & [[= <- <-]|Hin] & Hnot)];
          [left; exact H|right; left; reflexivity|].
        right. right. exists v. split; assumption.
Qed.

(** X14.  [check_values] returns exactly when the status code is 200, the
    coverage is "running", and every default value is held by Tyr under
    the same key with a value that is not different.  The status code is
    looked at first and the coverage status second.  When the answer has a
    dictionary of parameters and some default does not agree, the check
    raises with the dictionary of differences, whose keys are exactly the
    keys of the defaults that do not agree. *)
Theorem check_values_passes_iff
    (data_set : string) (_response : InstanceStatus.t) (_status : Z) :
  let check := check_values default_values py_ne py_str dumps_diffs data_set in
  (check _response _status = Ok tt
   <-> _status = 200
       /\ exists st,
            InstanceStatus.status_obj _response = Some st
            /\ InstanceStatus.status st = Some "running"
            /\ Forall (agrees py_ne (InstanceStatus.parameters st)) default_values)
  /\ (_status <> 200 ->
      check _response _status = Raise (Exception "Error while getting coverage status"))
  /\ (forall st members,
        _status = 200 ->
        InstanceStatus.status_obj _response = Some st ->
        InstanceStatus.status st = Some "running" ->
        InstanceStatus.parameters st = Some members ->
        ~ Forall (agrees py_ne (Some members)) default_values ->
        exists diffs,
          check _response _status
          = Raise (Exception ("Diff(s) in parameters : " +:+ dumps_diffs diffs))
          /\ forall k,
               dict_get k diffs <> None
               <-> exists v, In (k, v) default_values
                             /\ ~ agrees py_ne (Some members) (k, v)).
Proof.
  intros check. unfold check, check_values. split; [|split].
  - destruct (Z.eqb_spec _status 200) as [->|Hne]; simpl.
    2:{ split; [discriminate|]. intros [H _]. contradiction. }
    destruct (InstanceStatus.status_obj _response) as [st|]; simpl.
    2:{ split; [discriminate|]. intros [_ (st & H & _)]. discriminate. }
    destruct (InstanceStatus.status st) as [s|] eqn:Hs; simpl.
    2:{ split; [discriminate|]. intros [_ (st' & [= <-] & H & _)]. congruence. }
    destruct (String.eqb_spec s "running") as [->|Hrun]; simpl.
    2:{ split; [discriminate|]. intros [_ (st' & [= <-] & H & _)]. congruence. }
    destruct (collect default_values (InstanceStatus.parameters st) [])
      as [[|d more]|e] eqn:Hdiffs.
    + split; [|reflexivity]. intros _. split; [reflexivity|]. exists st.
      split; [reflexivity|]. split; [assumption|]. apply collect_diffs_none. exact Hdiffs.
    + split; [discriminate|]. intros [_ (st' & [= <-] & _ & Hall)].
      apply collect_diffs_none in Hall. congruence.
    + split; [discriminate|]. intros [_ (st' & [= <-] & _ & Hall)].
      apply collect_diffs_none in Hall. congruence.
  - intros Hne. destruct (Z.eqb_spec _status 200); [contradiction|reflexivity].
  - intros st members -> -> Hs Hp Hnot. rewrite Hs, Hp. simpl.
    destruct (collect_diffs_keys default_values members []) as (out & Hrun & Hkeys).
    rewrite Hrun. destruct out as [|d more].
    + exfalso. apply Hnot. apply collect_diffs_none. exact Hrun.
    + exists (d :: more). split; [reflexivity|]. intros k. rewrite Hkeys.
      split; [intros [H|H]; [contradiction|exact H]|intros H; right; exact H].
Qed.

End CheckValuesFacts.

(** Tyr holds both defaults, beside a parameter of its own; or it holds
    another walking duration and no "bss_provider". *)
Lemma check_values_passes_iff_witness :
  check_values Defaults.default_values Defaults.py_ne LiteJson.dumps
    Defaults.dumps_diffs "fr-idf"
    (Defaults.running [ ("bss_provider", JBool true); ("walking_speed", JNum 1);
                        ("max_walking_duration_to_pt", JNum 1800) ]) 200
  = Ok tt
  /\ exists diffs,
       check_values Defaults.default_values Defaults.py_ne LiteJson.dumps
         Defaults.dumps_diffs "fr-idf"
         (Defaults.running [ ("max_walking_duration_to_pt", JNum 900) ]) 200
       = Raise (Exception ("Diff(s) in parameters : " +:+ Defaults.dumps_diffs diffs))
       /\ forall k,
            dict_get k diffs <> None
            <-> exists v,
                  In (k, v) Defaults.default_values
                  /\ ~ agrees Defaults.py_ne
                         (Some [ ("max_walking_duration_to_pt", JNum 900) ]) (k, v).
Proof.
  split.
  - apply (proj1 (check_values_passes_iff Defaults.default_values Defaults.py_ne
                    LiteJson.dumps Defaults.dumps_diffs "fr-idf" _ 200)).
    split; [reflexivity|]. eexists. split; [reflexivity|]. split; [reflexivity|].
    constructor; [|constructor; [|constructor]]; eexists _, _;
      (split; [reflexivity|]); split; reflexivity.
  - apply (proj2 (proj2 (check_values_passes_iff Defaults.default_values Defaults.py_ne
                           LiteJson.dumps Defaults.dumps_diffs "fr-idf"
                           (Defaults.running [ ("max_walking_duration_to_pt", JNum 900) ])
                           200))
             _ [ ("max_walking_duration_to_pt", JNum 900) ]
             eq_refl eq_refl eq_refl eq_refl).
    intros Hall. inversion Hall as [|? ? (m & t & Hm & Hg & Hs) _]; subst.
    inversion Hm; subst. simpl in Hg. inversion Hg; subst. discriminate.
Defined.

(** ** The script of the orchestrator *)

Section MainFacts.

Variable W : Type.
Variable os_chdir : M W unit.
Variable init_dockers : bool -> M W unit.
Variable launch_coverages : list string -> M W (option bool).
Variable docker_clean : M W unit.

Local Abbreviation script := (main W os_chdir init_dockers launch_coverages docker_clean).
Local Abbreviation tests := (run_tests W os_chdir init_dockers launch_coverages).

(** X15.  A run of the script that is not a test run never ends normally:
    [f] is bound by the test run only, so that a clean run, once
    [docker_clean] has returned, ends on the unbound name [f].  In a test
    run [docker_clean] is run only when the tests were launched and
    [launch_coverages] returned: an exception of a step before it gets out
    with the machine as that step left it.  A test run ends normally
    exactly when [launch_coverages] returned without failures and
    [docker_clean] returned; an exception gets out of it exactly when a
    step before [docker_clean] raised it, or [docker_clean] raised it, or
    it is "Some tests FAILED", raised after [docker_clean] has returned. *)
Theorem main_ends (args : Args.t) (w : W) :
  (Args.test args = false ->
   fst (script args w) <> Exits
   /\ (Args.clean args = true ->
       script args w
       = match docker_clean w with
         | (Ok _, w') => (NameError "f", w')
         | (Raise e, w') => (Raises e, w')
         end))
  /\ (Args.test args = true ->
      (forall w2,
         script args w = (Exits, w2)
         <-> exists f w1,
               tests args w = (Ok f, w1)
               /\ f <> Some true
               /\ docker_clean w1 = (Ok tt, w2))
      /\ (forall e w2,
            script args w = (Raises e, w2)
            <-> tests args w = (Raise e, w2)
                \/ exists f w1,
                     tests args w = (Ok f, w1)
                     /\ (docker_clean w1 = (Raise e, w2)
                         \/ (f = Some true
                             /\ docker_clean w1 = (Ok tt, w2)
                             /\ e = Exception "Some tests FAILED")))).
Proof.
  split.
  - unfold main. intros ->. unfold ret. rewrite orb_false_r. split.
    + destruct (Args.clean args).
      * destruct (docker_clean w) as [[[]|e] w']; simpl; discriminate.
      * simpl. discriminate.
    + intros ->. destruct (docker_clean w) as [[[]|e] w']; reflexivity.
  - intros Htest.
    assert (Hform :
              main W os_chdir init_dockers launch_coverages docker_clean args w
              = match tests args w with
                | (Raise e, w1) => (Raises e, w1)
                | (Ok f, w1) =>
                    match docker_clean w1 with
                    | (Raise e, w2) => (Raises e, w2)
                    | (Ok _, w2) =>
                        match f with
                        | Some true => (Raises (Exception "Some tests FAILED"), w2)
                        | _ => (Exits, w2)
                        end
                    end
                end).
    { unfold main. rewrite Htest, orb_true_r. unfold bind at 1, ret.
      destruct (tests args w) as [[f|e] w1]; [|reflexivity].
      destruct (docker_clean w1) as [[[]|e] w2]; [|reflexivity].
      destruct f as [[|]|]; reflexivity. }
    fold (main W os_chdir init_dockers launch_coverages docker_clean args w).
    rewrite Hform. clear Hform.
    destruct (tests args w) as [[f|e] w1] eqn:Htests.
    + destruct (docker_clean w1) as [[[]|e] w2'] eqn:Hclean; split.
      * intros w2. split.
        -- intros Hrun. exists f, w1.
           destruct f as [[|]|]; inversion Hrun; subst;
             (split; [reflexivity|]); (split; [discriminate|assumption]).
        -- intros (f' & w1' & Heq & Hf & Hc). inversion Heq; subst f' w1'.
           rewrite Hclean in Hc. inversion Hc; subst.
           destruct f as [[|]|]; [contradiction|reflexivity|reflexivity].
      * intros e w2. split.
        -- intros Hrun. right. exists f, w1. split; [reflexivity|]. right.
           destruct f as [[|]|]; inversion Hrun; subst. repeat split; assumption.
        -- intros [Habs|(f' & w1' & Heq & [Hc|(-> & Hc & ->)])];
             [discriminate| |]; inversion Heq; subst; rewrite Hclean in Hc;
             inversion Hc; subst; reflexivity.
      * intros w2. split; [discriminate|].
        intros (f' & w1' & Heq & _ & Hc). inversion Heq; subst.
        rewrite Hclean in Hc. discriminate.
      * intros e' w2. split.
        -- intros Hrun. inversion Hrun; subst. right. exists f, w1.
           split; [reflexivity|]. left. assumption.
        -- intros [Habs|(f' & w1' & Heq & [Hc|(-> & Hc & ->)])];
             [discriminate| |]; inversion Heq; subst; rewrite Hclean in Hc;
             inversion Hc; subst; reflexivity.
    + split.
      * intros w2. split; [discriminate|]. intros (f' & w1' & H & _). discriminate.
      * intros e' w2. split.
        -- intros Hrun. inversion Hrun; subst. left. reflexivity.
        -- intros [Heq|(f' & w1' & Heq & _)]; [|discriminate].
           inversion Heq; subst. reflexivity.
Qed.

End MainFacts.

(** [docker_orchestrator.py clean], on a machine that records the steps. *)
Lemma main_ends_witness :
  main (list string) (Demo.logged "chdir" "/compose")
    (fun pull => Demo.logged "init_dockers" (if pull then "pull" else "no pull"))
    (fun coverages => Demo.logged "launch_coverages" "" ;;; ret (Some false))
    (Demo.logged "docker_clean" "")
    {| Args.test := false; Args.clean := true; Args.coverage := [];
       Args.p := false; Args.pull := false |} []
  = (NameError "f", ["docker_clean "]).
Proof.
  exact (proj2 (proj1 (main_ends (list string) (Demo.logged "chdir" "/compose")
                         (fun pull =>
                            Demo.logged "init_dockers" (if pull then "pull" else "no pull"))
                         (fun coverages =>
                            Demo.logged "launch_coverages" "" ;;; ret (Some false))
                         (Demo.logged "docker_clean" "")
                         {| Args.test := false; Args.clean := true;
                            Args.coverage := []; Args.p := false;
                            Args.pull := false |} [])
                  eq_refl) eq_refl).
Defined.

(** In create mode the reference that is there stays; in compare mode, with
    a failing comparison, it stays too. *)
Lemma request_compare_keeps_existing_files_witness :
  files (snd (request_compare (config := Demo.config) (ujson := LiteJson.ujson)
                (helpers := Demo.helpers) Demo.test_call true Demo.journeys_query
                Demo.response_without_host Demo.links_checker
                Demo.disk_with_reference))
    !! "/artemis/references/TestIdfm/test_idfm_01_0.json"
  = Some (File Demo.stored_reference)
  /\ files (snd (request_compare (config := Demo.config) (ujson := LiteJson.ujson)
                   (helpers := Demo.helpers) Demo.test_call false Demo.journeys_query
                   Demo.response_without_host Demo.links_checker
                   Demo.disk_with_reference))
       !! "/artemis/references/TestIdfm/test_idfm_01_0.json"
     = Some (File Demo.stored_reference).
Proof.
  split;
    apply (request_compare_keeps_existing_files (config := Demo.config)
             (ujson := LiteJson.ujson) (helpers := Demo.helpers) Demo.test_call);
    first [reflexivity | vm_compute; discriminate].
Defined.

(** ** The coverages that a test run launches *)

Lemma extend_each_In (coverages : list string) (instances : list (list (string * json)))
    (x : list (string * json)) :
  In x (extend_each coverages instances)
  <-> In x instances /\ exists c, In c coverages /\ instance_has c x = true.
Proof.
  induction coverages as [|c rest IH]; simpl.
  - split; [intros []|intros [_ (c & [] & _)]].
  - rewrite in_app_iff, filter_In, IH. split.
    + intros [[Hin Hhas]|[Hin (c' & Hc' & Hhas)]].
      * split; [exact Hin|]. exists c. split; [left; reflexivity|exact Hhas].
      * split; [exact Hin|]. exists c'. split; [right; exact Hc'|exact Hhas].
    + intros [Hin (c' & [<-|Hc'] & Hhas)].
      * left. split; assumption.
      * right. split; [exact Hin|]. exists c'. split; assumption.
Qed.

Section LaunchFacts.

Variable W : Type.
Variable run_instance : list (string * json) -> M W Z.
Variable os_chdir : M W unit.
Variable init_dockers : bool -> M W unit.
Variable docker_clean : M W unit.

(** X16.  The instances that [launch_coverages] runs are all of them when
    no coverage is named, and otherwise those that have a named coverage
    among their keys.  A test run that names only coverages that no
    instance has runs no instance and reports no failure: with the two
    settings and the template there, the script ends normally once
    [init_dockers] and [docker_clean] have returned. *)
Theorem unknown_coverages_run_nothing
    (DOCKER_COMPOSE_PATH TEST_PATH : string) (template : string)
    (instances : list (list (string * json))) (args : Args.t) (w w1 w2 w3 : W) :
  let launch :=
    launch_coverages W run_instance DOCKER_COMPOSE_PATH TEST_PATH (Some template)
      instances in
  (forall coverages x,
      In x (list_of_coverages coverages instances)
      <-> In x instances
          /\ (coverages = [] \/ exists c, In c coverages /\ instance_has c x = true))
  /\ (Args.test args = true ->
      Args.coverage args <> [] ->
      (forall c x, In c (Args.coverage args) -> In x instances -> instance_has c x = false) ->
      DOCKER_COMPOSE_PATH <> "" ->
      TEST_PATH <> "" ->
      os_chdir w = (Ok tt, w1) ->
      init_dockers (Args.p args || Args.pull args) w1 = (Ok tt, w2) ->
      docker_clean w2 = (Ok tt, w3) ->
      launch (Args.coverage args) w2 = (Ok (Some false), w2)
      /\ main W os_chdir init_dockers launch docker_clean args w = (Exits, w3)).
Proof.
  intros launch. split.
  - intros coverages x. unfold list_of_coverages. destruct coverages as [|c rest].
    + split; [intros H; split; [exact H|left; reflexivity]|intros [H _]; exact H].
    + rewrite extend_each_In. split.
      * intros [Hin Hc]. split; [exact Hin|right; exact Hc].
      * intros [Hin [Habs|Hc]]; [discriminate|]. split; assumption.
  - intros Htest Hnamed Hunknown Hcompose Htests Hchdir Hinit Hclean.
    assert (Hnone : list_of_coverages (Args.coverage args) instances = []).
    { destruct (list_of_coverages (Args.coverage args) instances) as [|x l] eqn:Hl;
        [reflexivity|].
      assert (Hx : In x (list_of_coverages (Args.coverage args) instances))
        by (rewrite Hl; left; reflexivity).
      unfold list_of_coverages in Hx.
      destruct (Args.coverage args) as [|c rest] eqn:Hcov; [contradiction|].
      apply extend_each_In in Hx. destruct Hx as [Hin (c' & Hc' & Hhas)].
      rewrite (Hunknown c' x Hc' Hin) in Hhas. discriminate. }
    assert (Hlaunch : launch (Args.coverage args) w2 = (Ok (Some false), w2)).
    { unfold launch, launch_coverages.
      destruct (String.eqb_spec DOCKER_COMPOSE_PATH ""); [contradiction|].
      destruct (String.eqb_spec TEST_PATH ""); [contradiction|].
      rewrite Hnone. reflexivity. }
    split; [exact Hlaunch|].
    unfold main, run_tests. rewrite Htest, orb_true_r.
    unfold bind. rewrite Hchdir, Hinit, Hlaunch. unfold ret. rewrite Hclean. reflexivity.
Qed.

End LaunchFacts.

(** A test run of "fr-idd", a name that the one instance, "fr-idf", does
    not have. *)
Lemma unknown_coverages_run_nothing_witness :
  main (list string) (Demo.logged "chdir" "/compose")
    (fun pull => Demo.logged "init_dockers" (if pull then "pull" else "no pull"))
    (launch_coverages (list string)
       (fun instance => Demo.logged "pytest" "" ;;; ret 1)
       "/compose" "/tests" (Some "docker-instances.jinja2")
       [ [ ("fr-idf", JObj [("test_class", JStr "IdfM")]) ] ])
    (Demo.logged "docker_clean" "")
    {| Args.test := true; Args.clean := false; Args.coverage := ["fr-idd"];
       Args.p := false; Args.pull := false |} []
  = (Exits, ["chdir /compose"; "init_dockers no pull"; "docker_clean "]).
Proof.
  apply (proj2 (unknown_coverages_run_nothing (list string)
                  (fun instance => Demo.logged "pytest" "" ;;; ret 1)
                  (Demo.logged "chdir" "/compose")
                  (fun pull =>
                     Demo.logged "init_dockers" (if pull then "pull" else "no pull"))
                  (Demo.logged "docker_clean" "")
                  "/compose" "/tests" "docker-instances.jinja2"
                  [ [ ("fr-idf", JObj [("test_class", JStr "IdfM")]) ] ]
                  {| Args.test := true; Args.clean := false; Args.coverage := ["fr-idd"];
                     Args.p := false; Args.pull := false |}
                  [] ["chdir /compose"] ["chdir /compose"; "init_dockers no pull"]
                  ["chdir /compose"; "init_dockers no pull"; "docker_clean "]));
    try reflexivity; try discriminate.
  intros c x [<-|[]] [<-|[]]. reflexivity.
Defined.
